(** * Route controller and map surface of the routing front end

    A shallow embedding of [frontend/js/map.js] and [frontend/js/app.js]:
    the node-identifier decoding, the overlay life cycle kept in the module
    variables [routeLayer], [startMarker], [endMarker] and [allRouteLayers],
    the click-mode toggle, and the reconciliation of a route response in
    [findRoute].

    ECMAScript numbers are IEEE 754 binary64 values ([spec_float] at
    precision 53), with [Number], [parseFloat], [toFixed] and the
    number-to-string conversion written out; strings are the UTF-8 bytes of
    the text, and [Number] and [parseFloat] skip the white space of
    ECMAScript in that encoding. A function that can throw returns its
    completion next to the state it leaves behind.

    Of Leaflet, the part the two files call: [L.LatLng] and its refusal of
    NaN, [L.LatLngBounds], and a map that is a finite map from layer stamps
    to layers, together with the bounds last fitted and the record of the
    calls made on it; [fitBounds] refuses bounds without corners, and fails
    on bounds with an infinite corner. Popups are the text bound to a
    layer; the hover listeners of [drawMultiplePaths], [openPopup],
    [flyTo], the padding of [fitBounds] and the options of the tile layer
    have no effect on which layers are on the map and are left out, as are
    the [console] calls.

    The page is the state of the elements app.js looks up, and its
    listeners are run by an event loop. An [async] function is cut at its
    [await]s: [findRoute] into the part up to [getRoute] and the part from
    the moment the promise settles, [init] into its three stages. The
    functions of [frontend/js/api.js] are taken from the moment their
    [fetch] settles: what they make of a network failure, of the status
    and of the body. The fields of a reply are absent or of the type the
    service gives them. *)

From Stdlib Require Import ZArith String Ascii List Bool Lia DecimalString DecimalPos.
From Stdlib Require Import SpecFloat.
From stdpp Require Import gmap strings list.

Local Open Scope string_scope.
Local Open Scope Z_scope.

(** ** ECMAScript numbers *)

Module JS.

Definition prec : Z := 53.
Definition emax : Z := 1024.

Definition number : Type := spec_float.

Definition NaN : number := S754_nan.
Definition pos_zero : number := S754_zero false.

(** [isNaN(x)] on a value that is already a number. *)
Definition isNaN (x : number) : bool :=
  match x with S754_nan => true | _ => false end.

Definition isFinite (x : number) : bool :=
  match x with S754_zero _ | S754_finite _ _ _ => true | _ => false end.

Definition div (x y : number) : number := SFdiv prec emax x y.
Definition add (x y : number) : number := SFadd prec emax x y.

(** [x <= y] and [x < y]; both are false when an operand is NaN. *)
Definition leb (x y : number) : bool := SFleb x y.
Definition ltb (x y : number) : bool := SFltb x y.

(** [Math.min] and [Math.max]: NaN when an operand is NaN, and [-0] counts
    as less than [+0]. *)
Definition min (x y : number) : number :=
  if isNaN x || isNaN y then NaN
  else if ltb y x then y
  else if ltb x y then x
  else match x, y with
       | S754_zero sx, S754_zero sy => S754_zero (sx || sy)
       | _, _ => x
       end.
Definition max (x y : number) : number :=
  if isNaN x || isNaN y then NaN
  else if ltb x y then y
  else if ltb y x then x
  else match x, y with
       | S754_zero sx, S754_zero sy => S754_zero (sx && sy)
       | _, _ => x
       end.

(** The number nearest to [m * 10^k] (ties to even), negated when [neg]:
    the value of a decimal literal with digits [m] and exponent [k]. *)
Definition of_decimal (neg : bool) (m : N) (k : Z) : number :=
  match m with
  | N0 => S754_zero neg
  | Npos p =>
      if 0 <=? k
      then match Zpos p * 10 ^ k with
           | Zpos q => binary_round prec emax neg q 0
           | _ => NaN
           end
      else match 10 ^ (- k) with
           | Zpos d => SFdiv prec emax (S754_finite neg p 0) (S754_finite false d 0)
           | _ => NaN
           end
  end.

Definition of_nat (n : nat) : number := of_decimal false (N.of_nat n) 0.

(** *** Scanning numeric strings *)

Definition is_digit (c : ascii) : bool :=
  let n := nat_of_ascii c in (48 <=? n)%nat && (n <=? 57)%nat.

Definition digit_val (c : ascii) : N := N.of_nat (nat_of_ascii c - 48).

(** The StrWhiteSpaceChar of one byte: TAB, LF, VT, FF, CR and SP. *)
Definition is_space (c : ascii) : bool :=
  let n := nat_of_ascii c in
  ((9 <=? n)%nat && (n <=? 13)%nat) || (n =? 32)%nat.

(** The StrWhiteSpaceChar of two bytes: U+00A0. *)
Definition is_space2 (c1 c2 : ascii) : bool :=
  (c1 =? "194")%char && (c2 =? "160")%char.

(** The StrWhiteSpaceChar of three bytes: U+1680, U+2000 to U+200A,
    U+2028, U+2029, U+202F, U+205F, U+3000 and U+FEFF. *)
Definition is_space3 (c1 c2 c3 : ascii) : bool :=
  let n := nat_of_ascii c3 in
  ((c1 =? "225")%char && (c2 =? "154")%char && (c3 =? "128")%char) ||
  ((c1 =? "226")%char && (c2 =? "128")%char &&
   (((128 <=? n)%nat && (n <=? 138)%nat) || (n =? 168)%nat || (n =? 169)%nat ||
    (n =? 175)%nat)) ||
  ((c1 =? "226")%char && (c2 =? "129")%char && (c3 =? "159")%char) ||
  ((c1 =? "227")%char && (c2 =? "128")%char && (c3 =? "128")%char) ||
  ((c1 =? "239")%char && (c2 =? "187")%char && (c3 =? "191")%char).

Fixpoint skip_spaces (s : string) : string :=
  match s with
  | String c r =>
      if is_space c then skip_spaces r
      else match r with
           | String c1 r1 =>
               if is_space2 c c1 then skip_spaces r1
               else match r1 with
                    | String c2 r2 => if is_space3 c c1 c2 then skip_spaces r2 else s
                    | EmptyString => s
                    end
           | EmptyString => s
           end
  | EmptyString => s
  end.

(** Reads the longest run of decimal digits: their value when read after
    the digits [acc], how many there are, and what follows them. *)
Fixpoint take_digits (acc : N) (s : string) : N * nat * string :=
  match s with
  | String c r =>
      if is_digit c
      then let '(v, n, r') := take_digits (10 * acc + digit_val c)%N r in (v, S n, r')
      else (acc, O, s)
  | EmptyString => (acc, O, s)
  end.

(** ExponentPart, when one starts here: [e] or [E], an optional sign and at
    least one digit. Otherwise nothing is consumed. *)
Definition take_exponent (s : string) : Z * string :=
  match s with
  | String c r =>
      if (c =? "e")%char || (c =? "E")%char then
        let '(neg, r1) :=
          match r with
          | String "-" r1 => (true, r1)
          | String "+" r1 => (false, r1)
          | _ => (false, r)
          end in
        let '(v, n, r2) := take_digits 0 r1 in
        match n with
        | O => (0, s)
        | S _ => (if neg then - Z.of_N v else Z.of_N v, r2)
        end
      else (0, s)
  | EmptyString => (0, s)
  end.

(** The longest prefix that is a StrUnsignedDecimalLiteral other than
    [Infinity]: digits, an optional fraction, an optional exponent. *)
Definition take_unsigned_decimal (neg : bool) (s : string) : option (number * string) :=
  let '(iv, ilen, r) := take_digits 0 s in
  let '(mv, flen, r1, seen) :=
    match r with
    | String "." r0 =>
        let '(fv, flen, r1) := take_digits iv r0 in
        match ilen, flen with
        | O, O => (iv, O, r, false)
        | _, _ => (fv, flen, r1, true)
        end
    | _ => (iv, O, r, match ilen with O => false | S _ => true end)
    end in
  if seen
  then let '(ex, r2) := take_exponent r1 in
       Some (of_decimal neg mv (ex - Z.of_nat flen), r2)
  else None.

(** The longest prefix that is a StrDecimalLiteral. *)
Definition take_decimal (s : string) : option (number * string) :=
  let '(neg, r) :=
    match s with
    | String "-" r => (true, r)
    | String "+" r => (false, r)
    | _ => (false, s)
    end in
  match r with
  | String "I" (String "n" (String "f" (String "i" (String "n"
      (String "i" (String "t" (String "y" r'))))))) => Some (S754_infinity neg, r')
  | _ => take_unsigned_decimal neg r
  end.

(** NonDecimalIntegerLiteral: [0x], [0o] or [0b] and digits of that radix. *)
Definition radix_digit (radix : N) (c : ascii) : option N :=
  let n := nat_of_ascii c in
  let v :=
    if is_digit c then Some (digit_val c)
    else if (97 <=? n)%nat && (n <=? 102)%nat then Some (N.of_nat (n - 87))
    else if (65 <=? n)%nat && (n <=? 70)%nat then Some (N.of_nat (n - 55))
    else None in
  match v with
  | Some d => if (d <? radix)%N then Some d else None
  | None => None
  end.

Fixpoint take_radix_digits (radix acc : N) (s : string) : N * nat * string :=
  match s with
  | String c r =>
      match radix_digit radix c with
      | Some d =>
          let '(v, n, r') := take_radix_digits radix (radix * acc + d)%N r in (v, S n, r')
      | None => (acc, O, s)
      end
  | EmptyString => (acc, O, s)
  end.

Definition take_non_decimal (s : string) : option (number * string) :=
  match s with
  | String "0" (String c r) =>
      let radix :=
        if (c =? "x")%char || (c =? "X")%char then Some 16%N
        else if (c =? "o")%char || (c =? "O")%char then Some 8%N
        else if (c =? "b")%char || (c =? "B")%char then Some 2%N
        else None in
      match radix with
      | Some b =>
          let '(v, n, r') := take_radix_digits b 0 r in
          match n with
          | O => None
          | S _ => Some (of_decimal false v 0, r')
          end
      | None => None
      end
  | _ => None
  end.

(** [Number(s)] (StringToNumber): white space is trimmed, the empty string
    is [+0], and the whole of what remains must be one numeric literal. *)
Definition Number (s : string) : number :=
  let t := skip_spaces s in
  match t with
  | EmptyString => pos_zero
  | _ =>
      let whole (p : option (number * string)) :=
        match p with
        | Some (v, r) => match skip_spaces r with EmptyString => Some v | _ => None end
        | None => None
        end in
      match whole (take_non_decimal t) with
      | Some v => v
      | None => match whole (take_decimal t) with Some v => v | None => NaN end
      end
  end.

(** [parseFloat(s)]: leading white space is skipped and the longest prefix
    that is a decimal literal is read; NaN when there is none. *)
Definition parseFloat (s : string) : number :=
  match take_decimal (skip_spaces s) with
  | Some (v, _) => v
  | None => NaN
  end.

(** *** Printing numbers *)

(** The exact value of the positive finite number [m * 2^e], as a
    numerator and a denominator. *)
Definition fraction (m : positive) (e : Z) : Z * Z :=
  if 0 <=? e then (Zpos m * 2 ^ e, 1) else (Zpos m, 2 ^ (- e)).

Definition digits_of (n : Z) : string := NilEmpty.string_of_uint (N.to_uint (Z.to_N n)).

Fixpoint zeros (n : nat) : string :=
  match n with O => "" | S n' => String "0" (zeros n') end.

Fixpoint count_digits (fuel : nat) (z : Z) : Z :=
  match fuel with
  | O => 0
  | S f => if z <? 10 then 1 else 1 + count_digits f (z / 10)
  end.

(** The least [j >= 0] with [p * 10^j >= d]. *)
Fixpoint lead_shift (fuel : nat) (p d : Z) : Z :=
  match fuel with
  | O => 0
  | S f => if d <=? p then 0 else 1 + lead_shift f (10 * p) d
  end.

(** The [n] with [10^(n-1) <= p/d < 10^n]. *)
Definition magnitude (p d : Z) : Z :=
  if d <=? p
  then count_digits (S (Z.to_nat (Z.log2 (p / d)))) (p / d)
  else 1 - lead_shift 400 p d.

(** The [k]-digit decimals next to [p/d]: those that read back as [x], and
    of two the nearer one (the even one on a tie). Gives [(s, n)] with
    [s * 10^(n-k)] the decimal. *)
Definition shortest_at (x : number) (p d n0 k : Z) : option (Z * Z) :=
  let '(a, b) :=
    if 0 <=? k - n0 then (p * 10 ^ (k - n0), d) else (p, d * 10 ^ (n0 - k)) in
  let lo := a / b in
  let r := a mod b in
  let reads_back (s : Z) := SFeqb (of_decimal false (Z.to_N s) (n0 - k)) x in
  let pick (s : Z) := if s =? 10 ^ k then (10 ^ (k - 1), n0 + 1) else (s, n0) in
  match reads_back lo, reads_back (lo + 1) with
  | true, true =>
      Some (pick (if 2 * r <? b then lo
                  else if b <? 2 * r then lo + 1
                  else if Z.even lo then lo else lo + 1))
  | true, false => Some (pick lo)
  | false, true => Some (pick (lo + 1))
  | false, false => None
  end.

(** Number::toString step 5: the least [k] for which some [k]-digit decimal
    reads back as [x]; seventeen digits always do. *)
Fixpoint shortest (fuel : nat) (x : number) (p d n0 k : Z) : Z * Z * Z :=
  match fuel with
  | O => (p / d, n0, k)
  | S f =>
      match shortest_at x p d n0 k with
      | Some (s, n) => (s, n, k)
      | None => shortest f x p d n0 (k + 1)
      end
  end.

Definition toString_digits (s n k : Z) : string :=
  let ds := digits_of s in
  if (k <=? n) && (n <=? 21) then ds ++ zeros (Z.to_nat (n - k))
  else if (0 <? n) && (n <=? 21)
  then substring 0 (Z.to_nat n) ds ++ "." ++ substring (Z.to_nat n) (Z.to_nat (k - n)) ds
  else if (-6 <? n) && (n <=? 0) then "0." ++ zeros (Z.to_nat (- n)) ++ ds
  else
    let e := n - 1 in
    let es := (if 0 <=? e then "+" else "-") ++ digits_of (Z.abs e) in
    if k =? 1 then ds ++ "e" ++ es
    else substring 0 1 ds ++ "." ++ substring 1 (Z.to_nat (k - 1)) ds ++ "e" ++ es.

(** Number::toString in radix 10. *)
Definition toString (x : number) : string :=
  match x with
  | S754_nan => "NaN"
  | S754_zero _ => "0"
  | S754_infinity neg => if neg then "-Infinity" else "Infinity"
  | S754_finite neg m e =>
      let '(p, d) := fraction m e in
      let '(s, n, k) := shortest 17 (S754_finite false m e) p d (magnitude p d) 1 in
      (if neg then "-" else "") ++ toString_digits s n k
  end.

(** The digits of [n] with a point before the last [f] of them. *)
Definition fixed_digits (n : Z) (f : nat) : string :=
  let m := digits_of n in
  match f with
  | O => m
  | S _ =>
      let m' := if (String.length m <=? f)%nat
                then zeros (f + 1 - String.length m) ++ m else m in
      let k := String.length m' in
      substring 0 (k - f) m' ++ "." ++ substring (k - f) f m'
  end.

(** [x.toFixed(f)] for [0 <= f <= 100]: the integer [n] with [n / 10^f]
    nearest to [x], the larger one on a tie; numbers of magnitude [10^21]
    and more, and NaN and the infinities, are printed by [toString]. *)
Definition toFixed (x : number) (f : nat) : string :=
  match x with
  | S754_nan | S754_infinity _ => toString x
  | S754_zero _ => fixed_digits 0 f
  | S754_finite neg m e =>
      let '(p, d) := fraction m e in
      if 10 ^ 21 * d <=? p then toString x
      else
        let n := (2 * p * 10 ^ Z.of_nat f + d) / (2 * d) in
        (if neg then "-" else "") ++ fixed_digits n f
  end.

End JS.

(** ** Completions: code that can throw

    A computation over a state [S] ends normally with a value or abruptly
    with the message of the [Error] it threw; either way it leaves a
    state behind, since nothing undoes the writes made before a throw. *)

Inductive completion (A : Type) : Type :=
| Normal (a : A)
| Throw (message : string).
Arguments Normal {A} a.
Arguments Throw {A} message.

Definition M (St A : Type) : Type := St -> St * completion A.

Definition ret {St A : Type} (a : A) : M St A := fun s => (s, Normal a).
Definition throw {St A : Type} (message : string) : M St A := fun s => (s, Throw message).
Definition bind {St A B : Type} (c : M St A) (k : A -> M St B) : M St B :=
  fun s =>
    match c s with
    | (s', Normal a) => k a s'
    | (s', Throw msg) => (s', Throw msg)
    end.
Definition gets {St A : Type} (f : St -> A) : M St A := fun s => (s, Normal (f s)).
Definition modify {St : Type} (f : St -> St) : M St unit := fun s => (f s, Normal tt).

Notation "'let*' x := c 'in' k" := (bind c (fun x => k))
  (at level 10, x name, c at level 100, k at level 200).
Notation "c ;;; k" := (bind c (fun _ => k))
  (at level 200, k at level 200, right associativity).

(** [array.forEach(f)] with a callback that can throw: [f] receives the
    element and its index, and a throw leaves the loop. *)
Fixpoint forEach {St A : Type} (f : A -> nat -> M St unit) (l : list A) (index : nat) : M St unit :=
  match l with
  | [] => ret tt
  | x :: l' => f x index ;;; forEach f l' (S index)
  end.

(** ** The Leaflet calls the two files rely on *)

Module Leaflet.
Import JS.

(** What an array element handed to Leaflet can be here: a number, or
    [undefined] where a destructuring found no element. *)
Inductive value : Type :=
| Undefined
| Num (x : number).

Definition ToNumber (v : value) : number :=
  match v with Undefined => NaN | Num x => x end.

Definition ToString (v : value) : string :=
  match v with Undefined => "undefined" | Num x => toString x end.

Definition LatLng : Type := number * number.

(** [new L.LatLng(lat, lng)] refuses a coordinate for which [isNaN] holds. *)
Definition toLatLng (p : value * value) : completion LatLng :=
  let '(lat, lng) := p in
  if isNaN (ToNumber lat) || isNaN (ToNumber lng)
  then Throw ("Invalid LatLng object: (" ++ ToString lat ++ ", " ++ ToString lng ++ ")")
  else Normal (ToNumber lat, ToNumber lng).

Fixpoint convertLatLngs (l : list (value * value)) : completion (list LatLng) :=
  match l with
  | [] => Normal []
  | p :: l' =>
      match toLatLng p with
      | Throw msg => Throw msg
      | Normal q =>
          match convertLatLngs l' with
          | Throw msg => Throw msg
          | Normal qs => Normal (q :: qs)
          end
      end
  end.

(** [L.LatLngBounds]: no corners until the first point is taken in. *)
Definition LatLngBounds : Type := option (LatLng * LatLng).

Definition extend (b : LatLngBounds) (p : LatLng) : LatLngBounds :=
  match b with
  | None => Some (p, p)
  | Some (sw, ne) =>
      Some ((min (fst p) (fst sw), min (snd p) (snd sw)),
            (max (fst p) (fst ne), max (snd p) (snd ne)))
  end.

Definition latLngBounds (l : list LatLng) : LatLngBounds := fold_left extend l None.

(** [bounds.contains(p)] *)
Definition contains (b : LatLngBounds) (p : LatLng) : bool :=
  match b with
  | None => false
  | Some (sw, ne) =>
      leb (fst sw) (fst p) && leb (fst p) (fst ne) &&
      leb (snd sw) (snd p) && leb (snd p) (snd ne)
  end.

Inductive Icon : Type :=
| DefaultIcon
| DivIcon (html : string).

Record PathOptions : Type := {
  color : string;
  weight : number;
  opacity : number;
  zIndexOffset : option number
}.

Inductive Layer : Type :=
| TileLayer (urlTemplate : string)
| Polyline (latlngs : list LatLng) (options : PathOptions) (popup : option string)
| Marker (latlng : LatLng) (icon : Icon) (popup : option string).

(** A reference to a layer object: its stamp and what it holds. *)
Definition Ref : Type := nat * Layer.

Inductive Call : Type :=
| SetView (center : LatLng) (zoom : number)
| AddLayer (stamp : nat)
| RemoveLayer (stamp : nat)
| FitBounds (sw ne : LatLng).

(** The Leaflet map: the layers on it by stamp, the last stamp given out,
    the bounds the view was last fitted to, and the calls made on it,
    oldest first. *)
Record Map : Type := {
  layers : gmap nat Layer;
  lastId : nat;
  fitted : option (LatLng * LatLng);
  calls : list Call
}.

(** [L.map(id)]: a map without layers. *)
Definition L_map : Map :=
  {| layers := ∅; lastId := 0%nat; fitted := None; calls := [] |}.

(** [map.setView(center, zoom)] *)
Definition setView (center : LatLng) (zoom : number) (m : Map) : Map :=
  {| layers := layers m; lastId := lastId m; fitted := fitted m;
     calls := calls m ++ [SetView center zoom] |}.

(** [layer.addTo(map)] on a new layer object. *)
Definition addTo (l : Layer) (m : Map) : Map * Ref :=
  let id := S (lastId m) in
  ({| layers := <[id := l]> (layers m); lastId := id; fitted := fitted m;
      calls := calls m ++ [AddLayer id] |}, (id, l)).

(** [map.removeLayer(layer)]: nothing happens when the layer is not on
    the map. *)
Definition removeLayer (r : Ref) (m : Map) : Map :=
  {| layers := delete (fst r) (layers m); lastId := lastId m; fitted := fitted m;
     calls := calls m ++ [RemoveLayer (fst r)] |}.

(** The four coordinates of the corners are finite. *)
Definition finite_corners (sw ne : LatLng) : bool :=
  isFinite (fst sw) && isFinite (snd sw) && isFinite (fst ne) && isFinite (snd ne).

(** [map.fitBounds(bounds, options)] refuses bounds without corners before
    it does anything. With corners it sets out to move the view; when a
    corner is infinite there is no view to move to, and the call ends in
    the error of the tile layer, the layers on the map being what they
    were. *)
Definition fitBounds (b : LatLngBounds) (m : Map) : Map * completion unit :=
  match b with
  | None => (m, Throw "Bounds are not valid.")
  | Some (sw, ne) =>
      if finite_corners sw ne
      then ({| layers := layers m; lastId := lastId m; fitted := Some (sw, ne);
               calls := calls m ++ [FitBounds sw ne] |}, Normal tt)
      else ({| layers := layers m; lastId := lastId m; fitted := fitted m;
               calls := calls m ++ [FitBounds sw ne] |},
            Throw "Attempted to load an infinite number of tiles")
  end.

(** [layer.getBounds()] of a polyline. *)
Definition getBounds (l : Layer) : LatLngBounds :=
  match l with
  | Polyline latlngs _ _ => latLngBounds latlngs
  | _ => None
  end.

End Leaflet.

(** ** frontend/js/map.js *)

Module MapJs.
Import JS Leaflet.

(** The module variables, with the Leaflet map they act on, and the
    temporary markers whose removal timers have not fired yet. *)
Record State : Type := {
  map : Map;
  routeLayer : option Ref;
  startMarker : option Ref;
  endMarker : option Ref;
  allRouteLayers : list Ref;
  timers : list Ref
}.

(** A number literal [m * 10^k]. *)
Definition lit (m : N) (k : Z) : number := of_decimal false m k.

(** The map as the first statements of the file leave it: the view set on
    the city, and the tile layer added. *)
Definition map0 : Map :=
  fst (addTo (TileLayer "https://{s}.tile.openstreetmap.org/{z}/{x}/{y}.png")
         (setView (lit 47921 (-3), lit 106927 (-3)) (lit 12 0) L_map)).

Definition initial : State :=
  {| map := map0; routeLayer := None; startMarker := None; endMarker := None;
     allRouteLayers := []; timers := [] |}.

Definition set_map (m : Map) (s : State) : State :=
  {| map := m; routeLayer := routeLayer s; startMarker := startMarker s;
     endMarker := endMarker s; allRouteLayers := allRouteLayers s; timers := timers s |}.
Definition set_routeLayer (r : option Ref) (s : State) : State :=
  {| map := map s; routeLayer := r; startMarker := startMarker s;
     endMarker := endMarker s; allRouteLayers := allRouteLayers s; timers := timers s |}.
Definition set_startMarker (r : option Ref) (s : State) : State :=
  {| map := map s; routeLayer := routeLayer s; startMarker := r;
     endMarker := endMarker s; allRouteLayers := allRouteLayers s; timers := timers s |}.
Definition set_endMarker (r : option Ref) (s : State) : State :=
  {| map := map s; routeLayer := routeLayer s; startMarker := startMarker s;
     endMarker := r; allRouteLayers := allRouteLayers s; timers := timers s |}.
Definition set_allRouteLayers (l : list Ref) (s : State) : State :=
  {| map := map s; routeLayer := routeLayer s; startMarker := startMarker s;
     endMarker := endMarker s; allRouteLayers := l; timers := timers s |}.
Definition set_timers (l : list Ref) (s : State) : State :=
  {| map := map s; routeLayer := routeLayer s; startMarker := startMarker s;
     endMarker := endMarker s; allRouteLayers := allRouteLayers s; timers := l |}.

(** The Leaflet calls, on the map held in the state. *)
Definition map_addTo (l : Layer) : M State Ref :=
  fun s => let '(m, r) := addTo l (map s) in (set_map m s, Normal r).
Definition map_removeLayer (r : Ref) : M State unit :=
  modify (fun s => set_map (removeLayer r (map s)) s).
Definition map_fitBounds (b : LatLngBounds) : M State unit :=
  fun s => let '(m, c) := fitBounds b (map s) in (set_map m s, c).
Definition lift {A : Type} (c : completion A) : M State A := fun s => (s, c).

Definition L_polyline (latlngs : list (value * value)) (options : PathOptions)
    (popup : option string) : M State Layer :=
  let* ps := lift (convertLatLngs latlngs) in ret (Polyline ps options popup).
Definition L_marker (latlng : number * number) (icon : Icon) (popup : option string)
    : M State Layer :=
  let* p := lift (toLatLng (Num (fst latlng), Num (snd latlng))) in ret (Marker p icon popup).
Definition L_latLngBounds (latlngs : list (value * value)) : M State LatLngBounds :=
  let* ps := lift (convertLatLngs latlngs) in ret (latLngBounds ps).

Definition dq : string := String "034" "".
Definition nl : string := String "010" "".

Definition startIcon : Icon :=
  DivIcon ("<div style=" ++ dq ++ "background:#10b981;width:24px;height:24px;border-radius:50%;border:3px solid white;box-shadow:0 2px 4px rgba(0,0,0,0.3)" ++ dq ++ "></div>").

Definition endIcon : Icon :=
  DivIcon ("<div style=" ++ dq ++ "background:#ef4444;width:24px;height:24px;border-radius:50%;border:3px solid white;box-shadow:0 2px 4px rgba(0,0,0,0.3)" ++ dq ++ "></div>").

(** [s.split(sep)] for a separator of one character. *)
Fixpoint split (sep : ascii) (s : string) : list string :=
  match s with
  | EmptyString => [EmptyString]
  | String c r =>
      if (c =? sep)%char then EmptyString :: split sep r
      else match split sep r with
           | h :: t => String c h :: t
           | [] => [String c EmptyString]
           end
  end.

(** The destructuring [[a, b] = array]. *)
Definition first_two (l : list number) : value * value :=
  (from_option Num Undefined (l !! 0%nat), from_option Num Undefined (l !! 1%nat)).

(** The callback of [path.map] in [drawRoute]: from a node identifier to
    the pair handed to [L.polyline]. *)
Definition decode (node_id : string) : value * value :=
  first_two (List.map Number (split "_" node_id)).

Definition clearAllRoutes : M State unit :=
  let* ls := gets allRouteLayers in
  forEach (fun layer _ => map_removeLayer layer) ls 0%nat ;;;
  modify (set_allRouteLayers []) ;;;
  let* r := gets routeLayer in
  match r with
  | Some l => map_removeLayer l ;;; modify (set_routeLayer None)
  | None => ret tt
  end.

Definition addMarkers (startCoord endCoord : number * number) : M State unit :=
  let* sm := gets startMarker in
  match sm with Some r => map_removeLayer r | None => ret tt end ;;;
  let* em := gets endMarker in
  match em with Some r => map_removeLayer r | None => ret tt end ;;;
  let* m1 := L_marker startCoord startIcon (Some "🎯 Эхлэх цэг") in
  let* r1 := map_addTo m1 in
  modify (set_startMarker (Some r1)) ;;;
  let* m2 := L_marker endCoord endIcon (Some "🏁 Төгсгөлийн цэг") in
  let* r2 := map_addTo m2 in
  modify (set_endMarker (Some r2)).

Definition drawRoute (path : list string) (startCoord endCoord : number * number)
    : M State unit :=
  clearAllRoutes ;;;
  let latlngs := List.map decode path in
  let* line := L_polyline latlngs
    {| color := "#667eea"; weight := lit 5 0; opacity := lit 7 (-1);
       zIndexOffset := None |} None in
  let* r := map_addTo line in
  modify (set_routeLayer (Some r)) ;;;
  addMarkers startCoord endCoord ;;;
  map_fitBounds (getBounds line).

(** One entry of [all_paths_data]. *)
Record PathData : Type := {
  coordinates : list (number * number);
  distance_km : number;
  nodes : number
}.

Definition colors : list string :=
  ["#667eea"; "#10b981"; "#f59e0b"; "#ef4444"; "#8b5cf6";
   "#ec4899"; "#06b6d4"; "#84cc16"; "#f97316"; "#6366f1"].

Definition as_values (ps : list (number * number)) : list (value * value) :=
  List.map (fun p => (Num (fst p), Num (snd p))) ps.

Definition popupContent (color : string) (index : nat) (pathData : PathData) : string :=
  nl ++ "            <div style=" ++ dq ++ "font-family: sans-serif;" ++ dq ++ ">" ++ nl ++
  "                <b style=" ++ dq ++ "color: " ++ color ++ ";" ++ dq ++ ">Зам " ++
  toString (of_nat (index + 1)) ++ "</b><br>" ++ nl ++
  "                📏 Урт: <b>" ++ toFixed (distance_km pathData) 2 ++ " км</b><br>" ++ nl ++
  "                🔢 Цэгүүд: <b>" ++ toString (nodes pathData) ++ "</b>" ++ nl ++
  "            </div>" ++ nl ++ "        ".

(** The options of the line drawn for the entry at [index] of [total]. *)
Definition path_style (total index : nat) : PathOptions :=
  {| color := nth (index mod length colors) colors "";
     weight := if (index =? 0)%nat then lit 6 0 else lit 4 0;
     opacity := if (index =? 0)%nat then lit 9 (-1) else lit 6 (-1);
     zIndexOffset := Some (of_nat ((total - index) * 10)) |}.

Definition drawMultiplePaths (pathsData : list PathData)
    (startCoord endCoord : number * number) : M State unit :=
  clearAllRoutes ;;;
  forEach (fun pathData index =>
    let style := path_style (length pathsData) index in
    let* layer := L_polyline (as_values (coordinates pathData)) style
      (Some (popupContent (color style) index pathData)) in
    let* r := map_addTo layer in
    modify (fun s => set_allRouteLayers (allRouteLayers s ++ [r]) s)) pathsData 0%nat ;;;
  addMarkers startCoord endCoord ;;;
  let allCoords := flat_map coordinates pathsData in
  if (0 <? length allCoords)%nat
  then let* bounds := L_latLngBounds (as_values allCoords) in map_fitBounds bounds
  else ret tt.

Definition clearMap : M State unit :=
  clearAllRoutes ;;;
  let* sm := gets startMarker in
  match sm with
  | Some r => map_removeLayer r ;;; modify (set_startMarker None)
  | None => ret tt
  end ;;;
  let* em := gets endMarker in
  match em with
  | Some r => map_removeLayer r ;;; modify (set_endMarker None)
  | None => ret tt
  end.

(** [showTemporaryMarker]: the marker is on the map until its timer runs. *)
Definition showTemporaryMarker (lat lon : number) (text : string) : M State unit :=
  let* m := L_marker (lat, lon) DefaultIcon (Some text) in
  let* tempMarker := map_addTo m in
  modify (fun s => set_timers (timers s ++ [tempMarker]) s).

(** The callback given to [setTimeout] there, for the timer at [i]. *)
Definition timer_fires (i : nat) : M State unit :=
  let* ts := gets timers in
  match ts !! i with
  | Some tempMarker =>
      modify (set_timers (take i ts ++ drop (S i) ts)) ;;;
      map_removeLayer tempMarker
  | None => ret tt
  end.

(** The listener [onMapClick] registers: the clicked point rounded to four
    decimals and read back, handed to [callback]. *)
Definition onMapClick {St : Type} (callback : number -> number -> M St unit)
    (latlng : number * number) : M St unit :=
  let lat := toFixed (fst latlng) 4 in
  let lon := toFixed (snd latlng) 4 in
  callback (parseFloat lat) (parseFloat lon).

End MapJs.

(** ** frontend/js/app.js *)

Module AppJs.
Import JS Leaflet.

(** The body of a route reply as [getRoute] hands it on: the fields the
    controller reads, each absent or of the type the service contract
    gives it, and the elapsed time [getRoute] attached. *)
Record Response : Type := {
  path : option (list string);
  paths : option (list (list string));
  all_paths_data : option (list MapJs.PathData);
  distance_km : option number;
  distance : option number;
  computeTime : string
}.

(** How the promise of [getRoute] settles: fulfilled with the parsed body
    ([None] for a falsy one) or rejected with an error message. *)
Inductive Settled : Type :=
| Fulfilled (data : option Response)
| Rejected (message : string).

(** What a suspended [findRoute] holds across its [await]. *)
Record Request : Type := {
  algorithm : string;
  lat1 : number;
  lon1 : number;
  lat2 : number;
  lon2 : number
}.

(** How far [init] has come: it waits for [checkHealth], then for
    [getGraphStats], and then it is over. *)
Inductive Stage : Type := AwaitingHealth | AwaitingStats | Ready.

(** The page: the [value] of the four inputs and of the select, whether
    the search button is [disabled], the [className] of the status line and
    the string last assigned to its [innerHTML] (the markup the browser
    then parses, not the text it shows), whether the info panel has the
    class [show], the [textContent] of its four spans, the click mode, the
    state of map.js, the route requests that have not settled, and the
    stage of [init]. *)
Record State : Type := {
  startLatInput : string;
  startLonInput : string;
  endLatInput : string;
  endLonInput : string;
  algorithmSelect : string;
  findRouteBtn : bool;
  statusDiv : string * string;
  infoPanelDiv : bool;
  distanceSpan : string;
  nodesSpan : string;
  timeSpan : string;
  algoSpan : string;
  clickMode : string;
  surface : MapJs.State;
  inflight : list Request;
  stage : Stage
}.

Definition set_start (lat lon : string) (s : State) : State :=
  {| startLatInput := lat; startLonInput := lon;
     endLatInput := endLatInput s; endLonInput := endLonInput s;
     algorithmSelect := algorithmSelect s; findRouteBtn := findRouteBtn s;
     statusDiv := statusDiv s; infoPanelDiv := infoPanelDiv s;
     distanceSpan := distanceSpan s; nodesSpan := nodesSpan s;
     timeSpan := timeSpan s; algoSpan := algoSpan s; clickMode := clickMode s;
     surface := surface s; inflight := inflight s; stage := stage s |}.
Definition set_end (lat lon : string) (s : State) : State :=
  {| startLatInput := startLatInput s; startLonInput := startLonInput s;
     endLatInput := lat; endLonInput := lon;
     algorithmSelect := algorithmSelect s; findRouteBtn := findRouteBtn s;
     statusDiv := statusDiv s; infoPanelDiv := infoPanelDiv s;
     distanceSpan := distanceSpan s; nodesSpan := nodesSpan s;
     timeSpan := timeSpan s; algoSpan := algoSpan s; clickMode := clickMode s;
     surface := surface s; inflight := inflight s; stage := stage s |}.
Definition set_algorithmSelect (v : string) (s : State) : State :=
  {| startLatInput := startLatInput s; startLonInput := startLonInput s;
     endLatInput := endLatInput s; endLonInput := endLonInput s;
     algorithmSelect := v; findRouteBtn := findRouteBtn s;
     statusDiv := statusDiv s; infoPanelDiv := infoPanelDiv s;
     distanceSpan := distanceSpan s; nodesSpan := nodesSpan s;
     timeSpan := timeSpan s; algoSpan := algoSpan s; clickMode := clickMode s;
     surface := surface s; inflight := inflight s; stage := stage s |}.
Definition set_findRouteBtn (disabled : bool) (s : State) : State :=
  {| startLatInput := startLatInput s; startLonInput := startLonInput s;
     endLatInput := endLatInput s; endLonInput := endLonInput s;
     algorithmSelect := algorithmSelect s; findRouteBtn := disabled;
     statusDiv := statusDiv s; infoPanelDiv := infoPanelDiv s;
     distanceSpan := distanceSpan s; nodesSpan := nodesSpan s;
     timeSpan := timeSpan s; algoSpan := algoSpan s; clickMode := clickMode s;
     surface := surface s; inflight := inflight s; stage := stage s |}.
Definition set_statusDiv (className markup : string) (s : State) : State :=
  {| startLatInput := startLatInput s; startLonInput := startLonInput s;
     endLatInput := endLatInput s; endLonInput := endLonInput s;
     algorithmSelect := algorithmSelect s; findRouteBtn := findRouteBtn s;
     statusDiv := (className, markup); infoPanelDiv := infoPanelDiv s;
     distanceSpan := distanceSpan s; nodesSpan := nodesSpan s;
     timeSpan := timeSpan s; algoSpan := algoSpan s; clickMode := clickMode s;
     surface := surface s; inflight := inflight s; stage := stage s |}.
Definition set_infoPanelDiv (show : bool) (s : State) : State :=
  {| startLatInput := startLatInput s; startLonInput := startLonInput s;
     endLatInput := endLatInput s; endLonInput := endLonInput s;
     algorithmSelect := algorithmSelect s; findRouteBtn := findRouteBtn s;
     statusDiv := statusDiv s; infoPanelDiv := show;
     distanceSpan := distanceSpan s; nodesSpan := nodesSpan s;
     timeSpan := timeSpan s; algoSpan := algoSpan s; clickMode := clickMode s;
     surface := surface s; inflight := inflight s; stage := stage s |}.
Definition set_spans (d n t a : string) (s : State) : State :=
  {| startLatInput := startLatInput s; startLonInput := startLonInput s;
     endLatInput := endLatInput s; endLonInput := endLonInput s;
     algorithmSelect := algorithmSelect s; findRouteBtn := findRouteBtn s;
     statusDiv := statusDiv s; infoPanelDiv := infoPanelDiv s;
     distanceSpan := d; nodesSpan := n; timeSpan := t; algoSpan := a;
     clickMode := clickMode s; surface := surface s; inflight := inflight s;
     stage := stage s |}.
Definition set_clickMode (m : string) (s : State) : State :=
  {| startLatInput := startLatInput s; startLonInput := startLonInput s;
     endLatInput := endLatInput s; endLonInput := endLonInput s;
     algorithmSelect := algorithmSelect s; findRouteBtn := findRouteBtn s;
     statusDiv := statusDiv s; infoPanelDiv := infoPanelDiv s;
     distanceSpan := distanceSpan s; nodesSpan := nodesSpan s;
     timeSpan := timeSpan s; algoSpan := algoSpan s; clickMode := m;
     surface := surface s; inflight := inflight s; stage := stage s |}.
Definition set_surface (m : MapJs.State) (s : State) : State :=
  {| startLatInput := startLatInput s; startLonInput := startLonInput s;
     endLatInput := endLatInput s; endLonInput := endLonInput s;
     algorithmSelect := algorithmSelect s; findRouteBtn := findRouteBtn s;
     statusDiv := statusDiv s; infoPanelDiv := infoPanelDiv s;
     distanceSpan := distanceSpan s; nodesSpan := nodesSpan s;
     timeSpan := timeSpan s; algoSpan := algoSpan s; clickMode := clickMode s;
     surface := m; inflight := inflight s; stage := stage s |}.
Definition set_inflight (l : list Request) (s : State) : State :=
  {| startLatInput := startLatInput s; startLonInput := startLonInput s;
     endLatInput := endLatInput s; endLonInput := endLonInput s;
     algorithmSelect := algorithmSelect s; findRouteBtn := findRouteBtn s;
     statusDiv := statusDiv s; infoPanelDiv := infoPanelDiv s;
     distanceSpan := distanceSpan s; nodesSpan := nodesSpan s;
     timeSpan := timeSpan s; algoSpan := algoSpan s; clickMode := clickMode s;
     surface := surface s; inflight := l; stage := stage s |}.

Definition set_stage (g : Stage) (s : State) : State :=
  {| startLatInput := startLatInput s; startLonInput := startLonInput s;
     endLatInput := endLatInput s; endLonInput := endLonInput s;
     algorithmSelect := algorithmSelect s; findRouteBtn := findRouteBtn s;
     statusDiv := statusDiv s; infoPanelDiv := infoPanelDiv s;
     distanceSpan := distanceSpan s; nodesSpan := nodesSpan s;
     timeSpan := timeSpan s; algoSpan := algoSpan s; clickMode := clickMode s;
     surface := surface s; inflight := inflight s; stage := g |}.

(** A call into map.js from the page. *)
Definition on_surface {A : Type} (c : M MapJs.State A) : M State A :=
  fun s => let '(m, r) := c (surface s) in (set_surface m s, r).

(** [setStatus] assigns [type] to the class name of the status line and
    [message], as it is, to its [innerHTML]. *)
Definition setStatus (message type : string) : M State unit :=
  modify (set_statusDiv type message).

Definition showLoading : M State unit :=
  modify (set_findRouteBtn true) ;;;
  setStatus ("Зам тооцоолж байна... <span class=" ++ MapJs.dq ++ "loading" ++ MapJs.dq ++ "></span>")
    "loading".

Definition hideLoading : M State unit := modify (set_findRouteBtn false).

(** The own properties of [algoNames]. *)
Definition algoNames (algorithm : string) : option string :=
  if String.eqb algorithm "dijkstra" then Some "Dijkstra"
  else if String.eqb algorithm "bfs" then Some "BFS"
  else if String.eqb algorithm "dfs" then Some "DFS"
  else None.

Definition updateInfoPanel (data : Response) (algorithm : string) : M State unit :=
  let distanceText :=
    match distance_km data with
    | Some d => toFixed d 2 ++ " км"
    | None =>
        match distance data with
        | Some d => toFixed (div d (MapJs.lit 1000 0)) 2 ++ " км"
        | None => "Тодорхойгүй"
        end
    end in
  let nodesText :=
    match path data with
    | Some p => toString (of_nat (length p))
    | None =>
        match paths data with
        | Some (p0 :: _) => toString (of_nat (length p0))
        | _ => "0"
        end
    end in
  let timeText := computeTime data ++ "с" in
  let algoText := default algorithm (algoNames algorithm) in
  modify (set_spans distanceText nodesText timeText algoText) ;;;
  modify (set_infoPanelDiv true).

Definition clearAll : M State unit :=
  on_surface MapJs.clearMap ;;;
  modify (set_infoPanelDiv false) ;;;
  setStatus "Газрын зураг цэвэрлэгдсэн" "info".

(** [findRoute] up to its [await]: the inputs are read and checked, the
    button is disabled and the request leaves. *)
Definition findRoute_begin : M State unit :=
  let* a := gets startLatInput in
  let* b := gets startLonInput in
  let* c := gets endLatInput in
  let* d := gets endLonInput in
  let* algorithm := gets algorithmSelect in
  let lat1 := parseFloat a in
  let lon1 := parseFloat b in
  let lat2 := parseFloat c in
  let lon2 := parseFloat d in
  if isNaN lat1 || isNaN lon1 || isNaN lat2 || isNaN lon2
  then setStatus "❌ Координат зөв оруулна уу!" "error"
  else
    showLoading ;;;
    modify (fun s => set_inflight (inflight s ++
      [{| algorithm := algorithm; lat1 := lat1; lon1 := lon1;
          lat2 := lat2; lon2 := lon2 |}]) s).

(** The [try] block after the [await], for a fulfilled promise. A
    [return] in it is the end of a branch. *)
Definition findRoute_try (rq : Request) (data : option Response) : M State unit :=
  let start := (lat1 rq, lon1 rq) in
  let finish := (lat2 rq, lon2 rq) in
  match data with
  | None => setStatus "❌ API-аас хариу ирсэнгүй" "error"
  | Some data =>
      if String.eqb (algorithm rq) "dfs" then
        match paths data with
        | None | Some [] => setStatus "⚠️ Зам олдсонгүй" "error"
        | Some (p0 :: _) =>
            match all_paths_data data with
            | Some (d0 :: d1 :: ds) =>
                let all := d0 :: d1 :: ds in
                on_surface (MapJs.drawMultiplePaths all start finish) ;;;
                setStatus ("✅ DFS: " ++ toString (of_nat (length all)) ++
                           " өөр зам харуулж байна") "success"
            | _ =>
                on_surface (MapJs.drawRoute p0 start finish) ;;;
                setStatus "✅ DFS: 1 зам олдлоо" "success"
            end ;;;
            updateInfoPanel data (algorithm rq) ;;;
            hideLoading
        end
      else if String.eqb (algorithm rq) "bfs" || String.eqb (algorithm rq) "dijkstra" then
        match path data with
        | None | Some [] => setStatus "⚠️ Зам олдсонгүй" "error"
        | Some pathToRender =>
            let algoName := if String.eqb (algorithm rq) "bfs" then "BFS" else "Dijkstra" in
            setStatus ("✅ " ++ algoName ++ ": Зам амжилттай олдлоо!") "success" ;;;
            on_surface (MapJs.drawRoute pathToRender start finish) ;;;
            updateInfoPanel data (algorithm rq)
        end
      else ret tt
  end.

(** [findRoute] from the moment its promise settles: the [try] block, the
    [catch] clause and the [finally] clause. *)
Definition findRoute_resume (rq : Request) (outcome : Settled) : M State unit :=
  fun s =>
    let '(s1, c) :=
      match outcome with
      | Fulfilled data => findRoute_try rq data s
      | Rejected message => (s, Throw message)
      end in
    let '(s2, _) :=
      match c with
      | Normal _ => (s1, Normal tt)
      | Throw message => setStatus ("❌ Алдаа: " ++ message) "error" s1
      end in
    hideLoading s2.

(** The callback given to [onMapClick]. *)
Definition click_callback (lat lon : number) : M State unit :=
  let* mode := gets clickMode in
  if String.eqb mode "start" then
    modify (set_start (toString lat) (toString lon)) ;;;
    setStatus ("✅ Эхлэх цэг: " ++ toString lat ++ ", " ++ toString lon ++
               " - Одоо төгсгөлийн цэгийг сонгоно уу") "success" ;;;
    on_surface (MapJs.showTemporaryMarker lat lon "🎯 Эхлэх цэг") ;;;
    modify (set_clickMode "end")
  else
    modify (set_end (toString lat) (toString lon)) ;;;
    setStatus ("✅ Төгсгөлийн цэг: " ++ toString lat ++ ", " ++ toString lon ++
               " - " ++ MapJs.dq ++ "Зам тооцоолох" ++ MapJs.dq ++ " товчийг дарна уу") "success" ;;;
    on_surface (MapJs.showTemporaryMarker lat lon "🏁 Төгсгөлийн цэг") ;;;
    modify (set_clickMode "start").

(** [init] from the moment [checkHealth] has answered, up to its next
    [await] or its end. *)
Definition init_health (isHealthy : bool) : M State unit :=
  if negb isHealthy then
    setStatus "⚠️ Backend серверт холбогдож чадсангүй. http://127.0.0.1:8000 эхэлсэн эсэхийг шалгана уу"
      "error" ;;;
    modify (set_findRouteBtn true) ;;;
    modify (set_stage Ready)
  else modify (set_stage AwaitingStats).

(** [init] from the moment [getGraphStats] has answered: [stats] is [None]
    for [null], and holds the bounding box
    [[min_lat, max_lat, min_lon, max_lon]] when there is one. *)
Definition init_stats (stats : option (option (number * number * number * number)))
    : M State unit :=
  match stats with
  | Some (Some (min_lat, max_lat, min_lon, max_lon)) =>
      let center_lat := div (add min_lat max_lat) (MapJs.lit 2 0) in
      let center_lon := div (add min_lon max_lon) (MapJs.lit 2 0) in
      modify (set_start (toFixed center_lat 4) (toFixed center_lon 4)) ;;;
      modify (set_end (toFixed (add center_lat (MapJs.lit 1 (-2))) 4)
                      (toFixed (add center_lon (MapJs.lit 1 (-2))) 4))
  | _ => ret tt
  end ;;;
  setStatus "🗺️ Бэлэн байна. Эхлэх цэгийг газрын зураг дээр дарж сонгоно уу" "info" ;;;
  modify (set_stage Ready).

(** *** The page as an event loop *)

Inductive Field : Type := StartLat | StartLon | EndLat | EndLon.

Inductive Event : Type :=
| MapClicked (latlng : number * number)
| FindRouteClicked
| ClearRouteClicked
| KeyPressed (key : string)
| InputEdited (field : Field) (text : string)
| AlgorithmSelected (value : string)
| RouteSettled (i : nat) (outcome : Settled)
| TimerElapsed (i : nat)
| HealthChecked (isHealthy : bool)
| StatsLoaded (stats : option (option (number * number * number * number))).

(** The listener run for an event; an error it does not catch ends it and
    leaves the state as it is then. A disabled button sends no click. *)
Definition handler (e : Event) : M State unit :=
  match e with
  | MapClicked latlng => MapJs.onMapClick click_callback latlng
  | FindRouteClicked =>
      let* disabled := gets findRouteBtn in
      if disabled then ret tt else findRoute_begin
  | ClearRouteClicked => clearAll
  | KeyPressed key => if String.eqb key "Enter" then findRoute_begin else ret tt
  | InputEdited StartLat text => modify (fun s => set_start text (startLonInput s) s)
  | InputEdited StartLon text => modify (fun s => set_start (startLatInput s) text s)
  | InputEdited EndLat text => modify (fun s => set_end text (endLonInput s) s)
  | InputEdited EndLon text => modify (fun s => set_end (endLatInput s) text s)
  | AlgorithmSelected value => modify (set_algorithmSelect value)
  | RouteSettled i outcome =>
      let* rs := gets inflight in
      match rs !! i with
      | Some rq =>
          modify (set_inflight (take i rs ++ drop (S i) rs)) ;;;
          findRoute_resume rq outcome
      | None => ret tt
      end
  | TimerElapsed i => on_surface (MapJs.timer_fires i)
  | HealthChecked isHealthy =>
      let* g := gets stage in
      match g with
      | AwaitingHealth => init_health isHealthy
      | _ => ret tt
      end
  | StatsLoaded stats =>
      let* g := gets stage in
      match g with
      | AwaitingStats => init_stats stats
      | _ => ret tt
      end
  end.

Definition step (s : State) (e : Event) : State := fst (handler e s).

Definition run (s : State) (es : list Event) : State := fold_left step es s.

(** The page once the scripts are loaded, for the document [html] the
    markup gives: click mode [start], the map with its tiles and nothing
    drawn, no request under way, and [init] waiting for [checkHealth]. *)
Definition loaded (html : State) : State :=
  {| startLatInput := startLatInput html; startLonInput := startLonInput html;
     endLatInput := endLatInput html; endLonInput := endLonInput html;
     algorithmSelect := algorithmSelect html; findRouteBtn := findRouteBtn html;
     statusDiv := statusDiv html; infoPanelDiv := infoPanelDiv html;
     distanceSpan := distanceSpan html; nodesSpan := nodesSpan html;
     timeSpan := timeSpan html; algoSpan := algoSpan html;
     clickMode := "start"; surface := MapJs.initial; inflight := [];
     stage := AwaitingHealth |}.

End AppJs.

(** * Vocabulary of the statements *)

Module Spec.
Import JS Leaflet MapJs.

(** How many separators a node identifier holds. *)
Fixpoint separators (s : string) : nat :=
  match s with
  | EmptyString => 0%nat
  | String c r => ((if (c =? "_")%char then 1 else 0) + separators r)%nat
  end.

(** *** Numeric strings

    The grammar of StringNumericLiteral: the strings [Number] is to take
    for a number. *)

(** Every character of [s] passes [f]. *)
Fixpoint all_chars (f : ascii -> bool) (s : string) : bool :=
  match s with
  | EmptyString => true
  | String c r => f c && all_chars f r
  end.

Definition binary_digit (c : ascii) : bool :=
  let n := nat_of_ascii c in (48 <=? n)%nat && (n <=? 49)%nat.
Definition octal_digit (c : ascii) : bool :=
  let n := nat_of_ascii c in (48 <=? n)%nat && (n <=? 55)%nat.
Definition hex_digit (c : ascii) : bool :=
  let n := nat_of_ascii c in
  ((48 <=? n)%nat && (n <=? 57)%nat) || ((97 <=? n)%nat && (n <=? 102)%nat) ||
  ((65 <=? n)%nat && (n <=? 70)%nat).

(** One digit at least, and digits only. *)
Definition digits_of_kind (f : ascii -> bool) (s : string) : Prop :=
  s <> "" /\ all_chars f s = true.

(** DecimalDigits *)
Definition decimal_digits (s : string) : Prop := digits_of_kind is_digit s.

Definition sign (s : string) : Prop := s = "" \/ s = "+" \/ s = "-".

(** ExponentPart, or nothing. *)
Definition exponent_opt (s : string) : Prop :=
  s = "" \/
  exists c g d, (c = "e"%char \/ c = "E"%char) /\ sign g /\ decimal_digits d /\
                s = String c (g ++ d).

(** StrUnsignedDecimalLiteral *)
Definition unsigned_decimal (s : string) : Prop :=
  s = "Infinity" \/
  (exists i f e, decimal_digits i /\ (f = "" \/ decimal_digits f) /\ exponent_opt e /\
                 s = i ++ "." ++ f ++ e) \/
  (exists f e, decimal_digits f /\ exponent_opt e /\ s = "." ++ f ++ e) \/
  (exists i e, decimal_digits i /\ exponent_opt e /\ s = i ++ e).

(** StrDecimalLiteral *)
Definition decimal_literal (s : string) : Prop :=
  exists g u, sign g /\ unsigned_decimal u /\ s = g ++ u.

(** NonDecimalIntegerLiteral *)
Definition non_decimal_literal (s : string) : Prop :=
  exists c d, s = String "0" (String c d) /\
    (((c = "x" \/ c = "X")%char /\ digits_of_kind hex_digit d) \/
     ((c = "o" \/ c = "O")%char /\ digits_of_kind octal_digit d) \/
     ((c = "b" \/ c = "B")%char /\ digits_of_kind binary_digit d)).

Definition bytes (l : list nat) : string :=
  string_of_list_ascii (List.map ascii_of_nat l).

(** StrWhiteSpaceChar in UTF-8: TAB, LF, VT, FF, CR, SP, U+00A0, U+1680,
    U+2000 to U+200A, U+2028, U+2029, U+202F, U+205F, U+3000, U+FEFF. *)
Definition white_space_chars : list string :=
  List.map bytes
    ([[9]; [10]; [11]; [12]; [13]; [32]; [194; 160]; [225; 154; 128];
      [226; 128; 128]; [226; 128; 129]; [226; 128; 130]; [226; 128; 131];
      [226; 128; 132]; [226; 128; 133]; [226; 128; 134]; [226; 128; 135];
      [226; 128; 136]; [226; 128; 137]; [226; 128; 138];
      [226; 128; 168]; [226; 128; 169]; [226; 128; 175]; [226; 129; 159];
      [227; 128; 128]; [239; 187; 191]]%nat).

(** StrWhiteSpace, or nothing. *)
Inductive white : string -> Prop :=
| white_nil : white ""
| white_cons (w r : string) : In w white_space_chars -> white r -> white (w ++ r).

(** The string is empty, or starts with a character [f] fails. *)
Definition stops (f : ascii -> bool) (r : string) : Prop :=
  match r with
  | String c _ => f c = false
  | EmptyString => True
  end.

(** A character of one byte other than white space. *)
Definition solid (c : ascii) : bool :=
  negb (is_space c) && (nat_of_ascii c <? 128)%nat.

(** StringNumericLiteral *)
Definition numeric (s : string) : Prop :=
  exists w1 body w2, white w1 /\ white w2 /\ s = w1 ++ body ++ w2 /\
    (body = "" \/ decimal_literal body \/ non_decimal_literal body).

(** The identifier [id] starts with the piece [a], a separator and the
    piece [b], and ends there or goes on with a second separator. *)
Definition pieces (id a b : string) : Prop :=
  separators a = 0%nat /\ separators b = 0%nat /\
  (id = a ++ "_" ++ b \/ exists rest, id = a ++ "_" ++ b ++ "_" ++ rest).

(** The message of the error [L.LatLng] throws for the pair. *)
Definition invalid_LatLng (lat lng : string) : string :=
  "Invalid LatLng object: (" ++ lat ++ ", " ++ lng ++ ")".

(** [hoare P c Q E]: from a state in [P], the computation [c] ends normally
    with a value and a state in [Q], or throws in a state in [E]. *)
Definition hoare {St A : Type} (P : St -> Prop) (c : M St A)
    (Q : A -> St -> Prop) (E : St -> Prop) : Prop :=
  forall s, P s ->
    match c s with
    | (s', Normal a) => Q a s'
    | (s', Throw _) => E s'
    end.

(** *** Overlays *)

Definition is_line (l : Layer) : Prop :=
  match l with Polyline _ _ _ => True | _ => False end.

Definition has_icon (i : Icon) (l : Layer) : Prop :=
  match l with Marker _ j _ => j = i | _ => False end.

(** The layer with stamp [id] on the map is [l]. *)
Definition on_map (s : State) (id : nat) (l : Layer) : Prop :=
  layers (map s) !! id = Some l.

(** The stamps the route variables refer to. *)
Definition handles (s : State) : list nat :=
  (fst <$> allRouteLayers s) ++ option_list (fst <$> routeLayer s).

(** The module variables know every route overlay on the map: each line is
    referred to by [allRouteLayers] or [routeLayer], each marker with the
    start icon by [startMarker], each marker with the end icon by
    [endMarker]; and no stamp on the map is newer than the last one given
    out. *)
Record tracked (s : State) : Prop := {
  tracked_lines : forall id l, on_map s id l -> is_line l -> id ∈ handles s;
  tracked_start : forall id l, on_map s id l -> has_icon startIcon l ->
                  fst <$> startMarker s = Some id;
  tracked_end : forall id l, on_map s id l -> has_icon endIcon l ->
                fst <$> endMarker s = Some id;
  tracked_fresh : forall id l, on_map s id l -> (id <= lastId (map s))%nat
}.

(** The layers the four variables refer to have stamps the map gave out. *)
Definition refs_known (s : State) : Prop :=
  Forall (fun r : Ref => (fst r <= lastId (map s))%nat)
    (allRouteLayers s ++ option_list (routeLayer s) ++
     option_list (startMarker s) ++ option_list (endMarker s)).

(** [tracked], in a state whose map has given out the stamp [n] already. *)
Definition tracked_from (n : nat) (s : State) : Prop :=
  tracked s /\ refs_known s /\ (n <= lastId (map s))%nat.

(** Every marker with the start or the end icon on the map got its stamp
    after [n]. *)
Definition markers_after (n : nat) (s : State) : Prop :=
  forall id l, on_map s id l -> has_icon startIcon l \/ has_icon endIcon l ->
    (n < id)%nat.

(** At most one layer on the map is a marker with the icon [i]. *)
Definition at_most_one (i : Icon) (s : State) : Prop :=
  forall id1 l1 id2 l2, on_map s id1 l1 -> on_map s id2 l2 ->
    has_icon i l1 -> has_icon i l2 -> id1 = id2.

Definition no_lines (s : State) : Prop :=
  forall id l, on_map s id l -> ~ is_line l.

Definition no_icon (i : Icon) (s : State) : Prop :=
  forall id l, on_map s id l -> ~ has_icon i l.

(** [map.removeLayer] on each of [rs] in turn. *)
Definition remove_refs (rs : list Ref) (m : Map) : Map :=
  fold_left (fun m r => removeLayer r m) rs m.

(** A coordinate pair [L.LatLng] accepts. *)
Definition valid (p : number * number) : Prop :=
  isNaN (fst p) = false /\ isNaN (snd p) = false.

(** A coordinate pair on the globe: a latitude from -90 to 90 and a
    longitude from -180 to 180. *)
Definition geographic (p : number * number) : Prop :=
  leb (of_decimal true 90 0) (fst p) = true /\ leb (fst p) (lit 90 0) = true /\
  leb (of_decimal true 180 0) (snd p) = true /\ leb (snd p) (lit 180 0) = true.

(** *** What a render leaves behind *)

Definition start_marker (c : number * number) : Layer :=
  Marker (fst c, snd c) startIcon (Some "🎯 Эхлэх цэг").

Definition end_marker (c : number * number) : Layer :=
  Marker (fst c, snd c) endIcon (Some "🏁 Төгсгөлийн цэг").

(** The line [drawRoute] draws through [ps]. *)
Definition route_line (ps : list LatLng) : Layer :=
  Polyline ps
    {| color := "#667eea"; weight := lit 5 0; opacity := lit 7 (-1);
       zIndexOffset := None |} None.

(** The line [drawMultiplePaths] draws for the entry at [index] of [total]. *)
Definition path_line (total index : nat) (pd : PathData) : Layer :=
  Polyline (coordinates pd) (path_style total index)
    (Some (popupContent (color (path_style total index)) index pd)).

Definition after_clear (s : State) : State :=
  {| map := remove_refs (allRouteLayers s ++ option_list (routeLayer s)) (map s);
     routeLayer := None; startMarker := startMarker s; endMarker := endMarker s;
     allRouteLayers := []; timers := timers s |}.

Definition after_markers (a b : number * number) (s : State) : State :=
  let m1 := remove_refs (option_list (startMarker s) ++ option_list (endMarker s)) (map s) in
  let '(m2, r1) := addTo (start_marker a) m1 in
  let '(m3, r2) := addTo (end_marker b) m2 in
  {| map := m3; routeLayer := routeLayer s; startMarker := Some r1;
     endMarker := Some r2; allRouteLayers := allRouteLayers s; timers := timers s |}.

(** The state a call of [fitBounds] on bounds with corners leaves, whether
    it returns or fails. *)
Definition after_fit (sw ne : LatLng) (s : State) : State :=
  set_map (fst (fitBounds (Some (sw, ne)) (map s))) s.

(** How that call ends. *)
Definition fit_outcome (sw ne : LatLng) : completion unit :=
  if finite_corners sw ne then Normal tt
  else Throw "Attempted to load an infinite number of tiles".

(** The state [drawRoute] leaves once it has called [fitBounds] on the
    bounds of a line with points. *)
Definition after_route (ps : list LatLng) (a b : number * number) (sw ne : LatLng)
    (s : State) : State :=
  let s1 := after_clear s in
  let '(m2, r) := addTo (route_line ps) (map s1) in
  after_fit sw ne (after_markers a b (set_routeLayer (Some r) (set_map m2 s1))).

Fixpoint after_lines (total : nat) (pds : list PathData) (index : nat) (s : State) : State :=
  match pds with
  | [] => s
  | pd :: rest =>
      let '(m, r) := addTo (path_line total index pd) (map s) in
      after_lines total rest (S index)
        (set_allRouteLayers (allRouteLayers s ++ [r]) (set_map m s))
  end.

(** The state [drawMultiplePaths] leaves once it is past its markers: with
    [fitBounds] called when there is a coordinate. *)
Definition after_paths (pds : list PathData) (a b : number * number) (s : State) : State :=
  let s3 := after_markers a b (after_lines (length pds) pds 0 (after_clear s)) in
  match latLngBounds (flat_map coordinates pds) with
  | Some (sw, ne) => after_fit sw ne s3
  | None => s3
  end.

(** How a [drawMultiplePaths] that is past its markers ends. *)
Definition paths_outcome (pds : list PathData) : completion unit :=
  match latLngBounds (flat_map coordinates pds) with
  | Some (sw, ne) => fit_outcome sw ne
  | None => Normal tt
  end.

(** The layer [l] with stamp [id] is on the map, and it is the only line
    there. *)
Definition only_line (s : State) (id : nat) (l : Layer) : Prop :=
  on_map s id l /\ forall id' l', on_map s id' l' -> is_line l' -> id' = id.

(** The layer [l] with stamp [id] is on the map, and it is the only marker
    with the icon [i] there. *)
Definition only_marker (i : Icon) (s : State) (id : nat) (l : Layer) : Prop :=
  on_map s id l /\ forall id' l', on_map s id' l' -> has_icon i l' -> id' = id.

(** The calls that remove the layers [rs] in turn. *)
Definition removals (rs : list Ref) : list Call :=
  (fun r => RemoveLayer (fst r)) <$> rs.

(** From [s] to [s'] the start and end markers were replaced. In [s'] the
    one marker with the start icon stands at [a] and the one with the end
    icon at [b]; both have stamps given out since [s], and the two
    variables refer to them. The calls made since [s] removed the markers
    the variables referred to in [s] and, right after that, added the two
    new ones, which no call before had added. *)
Definition markers_replaced (a b : number * number) (s s' : State) : Prop :=
  exists (n : nat) (before after : list Call),
    (lastId (map s) <= n)%nat /\
    only_marker startIcon s' (S n) (start_marker a) /\
    only_marker endIcon s' (S (S n)) (end_marker b) /\
    startMarker s' = Some (S n, start_marker a) /\
    endMarker s' = Some (S (S n), end_marker b) /\
    calls (map s') =
      (calls (map s) ++ before ++
       removals (option_list (startMarker s) ++ option_list (endMarker s)) ++
       [AddLayer (S n); AddLayer (S (S n))] ++ after)%list /\
    (AddLayer (S n) ∉ before) /\ (AddLayer (S (S n)) ∉ before).

(** From [s] to [s'] the start and end markers were cleared: neither icon
    is on the map in [s'], both variables are [null], and the calls made
    since [s] removed the lines and then the markers the variables of [s]
    referred to. *)
Definition markers_cleared (s s' : State) : Prop :=
  no_icon startIcon s' /\ no_icon endIcon s' /\
  startMarker s' = None /\ endMarker s' = None /\
  calls (map s') =
    (calls (map s) ++ removals (allRouteLayers s ++ option_list (routeLayer s)) ++
     removals (option_list (startMarker s) ++ option_list (endMarker s)))%list.

(** No line and no start or end marker that is on the map in [s] is on the
    map in [s']. *)
Definition disposed (s s' : State) : Prop :=
  forall id l, on_map s id l ->
    is_line l \/ has_icon startIcon l \/ has_icon endIcon l ->
    layers (map s') !! id = None.

(** The colour of a line. *)
Definition line_color (l : Layer) : option string :=
  match l with
  | Polyline _ options _ => Some (color options)
  | _ => None
  end.

(** *** Order of numbers *)

(** Where a number that is not NaN stands in the order of [SFcompare]:
    its class, then its exponent, then its digits. *)
Definition key (x : number) : Z * Z * Z :=
  match x with
  | S754_nan => (0, 0, 0)
  | S754_zero _ => (0, 0, 0)
  | S754_infinity true => (-2, 0, 0)
  | S754_infinity false => (2, 0, 0)
  | S754_finite false m e => (1, e, Zpos m)
  | S754_finite true m e => (-1, - e, Zneg m)
  end.

Definition key_le (a b : Z * Z * Z) : Prop :=
  let '(a1, a2, a3) := a in
  let '(b1, b2, b3) := b in
  a1 < b1 \/ (a1 = b1 /\ (a2 < b2 \/ (a2 = b2 /\ a3 <= b3))).

(** The corners of [b] are not NaN. *)
Definition proper (b : LatLngBounds) : Prop :=
  match b with
  | None => True
  | Some (sw, ne) => valid sw /\ valid ne
  end.

(** A call of one of the three operations map.js exports for overlays. *)
Inductive Operation : Type :=
| DrawRoute (path : list string) (startCoord endCoord : number * number)
| DrawMultiplePaths (pathsData : list PathData) (startCoord endCoord : number * number)
| ClearMap.

Definition perform (op : Operation) : M State unit :=
  match op with
  | DrawRoute path a b => drawRoute path a b
  | DrawMultiplePaths pathsData a b => drawMultiplePaths pathsData a b
  | ClearMap => clearMap
  end.

(** The state after the calls [ops], whether they throw or not. *)
Definition perform_all (ops : list Operation) (s : State) : State :=
  fold_left (fun s op => fst (perform op s)) ops s.

End Spec.


Module AppSpec.
Import JS Leaflet AppJs.

(** The coordinates a suspended [findRoute] holds passed its [isNaN] test. *)
Definition valid_request (rq : Request) : Prop :=
  Spec.valid (lat1 rq, lon1 rq) /\ Spec.valid (lat2 rq, lon2 rq).

(** What every reachable state of the page satisfies. *)
Definition app_ok (s : State) : Prop :=
  Spec.tracked_from 0 (surface s) /\ Forall valid_request (inflight s).

(** A clicked coordinate as [onMapClick] hands it on. *)
Definition rounded (x : number) : number := parseFloat (toFixed x 4).

(** A click whose rounded point Leaflet takes for the temporary marker. *)
Definition accepted (latlng : number * number) : Prop :=
  Spec.valid (rounded (fst latlng), rounded (snd latlng)).

(** The text a click writes into a pair of inputs. *)
Definition shown (latlng : number * number) : string * string :=
  (toString (rounded (fst latlng)), toString (rounded (snd latlng))).

(** A reply without a route, for the algorithm asked. *)
Definition empty_response (rq : Request) (data : Response) : Prop :=
  (algorithm rq = "dfs" /\ (paths data = None \/ paths data = Some [])) \/
  ((algorithm rq = "bfs" \/ algorithm rq = "dijkstra") /\
   (path data = None \/ path data = Some [])).

(** A reply with a route to draw, for the algorithm asked. *)
Definition has_route (rq : Request) (data : Response) : Prop :=
  (algorithm rq = "dfs" /\ exists p0 rest, paths data = Some (p0 :: rest)) \/
  ((algorithm rq = "bfs" \/ algorithm rq = "dijkstra") /\
   exists p0 rest, path data = Some (p0 :: rest)).

(** At most one request is under way, and then the button is disabled. *)
Definition single_flight (s : State) : Prop :=
  inflight s = [] \/ (length (inflight s) = 1%nat /\ findRouteBtn s = true).

(** The computation [c] leaves the observation [f] of the page alone,
    however it ends. *)
Definition keeps {A B : Type} (f : State -> B) (c : M State A) : Prop :=
  forall s, f (fst (c s)) = f s.

(** The computation [c] takes states in [P] to states in [P], however it
    ends. *)
Definition preserves {A : Type} (P : State -> Prop) (c : M State A) : Prop :=
  forall s, P s -> P (fst (c s)).

Definition surface_tracked (s : State) : Prop := Spec.tracked_from 0 (surface s).

(** A document whose form holds the given texts, with an enabled button
    and with the status line, the info panel and its spans empty. *)
Definition form (a b c d algorithm : string) : State :=
  {| startLatInput := a; startLonInput := b; endLatInput := c; endLonInput := d;
     algorithmSelect := algorithm; findRouteBtn := false; statusDiv := ("", "");
     infoPanelDiv := false; distanceSpan := ""; nodesSpan := ""; timeSpan := "";
     algoSpan := ""; clickMode := "start"; surface := MapJs.initial; inflight := [];
     stage := AwaitingHealth |}.

Definition is_key (e : Event) : bool :=
  match e with KeyPressed _ => true | _ => false end.

End AppSpec.

(** * frontend/js/api.js *)

Module ApiJs.
Import JS Leaflet AppJs.

Definition API_BASE : string := "http://127.0.0.1:8000".

(** [x - y] *)
Definition sub (x y : number) : number := SFsub prec emax x y.

(** A [URL] object: the text it was made from, and the calls of
    [searchParams.set] made on it since, oldest first. *)
Record URL : Type := {
  href : string;
  searchParams : list (string * string)
}.

(** What [fetch] resolves with, as far as the file reads it: [ok],
    [status], and how [text()] and [json()] settle. *)
Record HttpResponse (Body : Type) : Type := {
  ok : bool;
  status : number;
  text : completion string;
  json : completion Body
}.
Arguments ok {Body} _.
Arguments status {Body} _.
Arguments text {Body} _.
Arguments json {Body} _.

(** How the promise of [fetch] settles: rejected with the message of a
    network error, or fulfilled with a response. *)
Inductive Fetched (Body : Type) : Type :=
| Failed (message : string)
| Responded (response : HttpResponse Body).
Arguments Failed {Body} message.
Arguments Responded {Body} response.

(** What [response.json()] gives for a route: an object, or a value that
    is none ([null], a boolean, a number, a string), on which the
    assignment of a property throws a [TypeError] with the message given
    here; module code is strict. *)
Inductive RouteBody : Type :=
| NotAnObject (message : string)
| AnObject (data : Response).

Definition set_computeTime (t : string) (data : Response) : Response :=
  {| path := path data; paths := paths data; all_paths_data := all_paths_data data;
     distance_km := distance_km data; distance := distance data; computeTime := t |}.

(** The URL [getRoute] builds. *)
Definition getRoute_url (algorithm : string) (lat1 lon1 lat2 lon2 : number) : URL :=
  {| href := API_BASE ++ "/" ++ algorithm;
     searchParams :=
       [("lat1", toString lat1); ("lon1", toString lon1);
        ("lat2", toString lat2); ("lon2", toString lon2)] ++
       (if String.eqb algorithm "dfs"
        then [("max_depth", toString (MapJs.lit 50 0))] else []) |}.

(** [getRoute] from the moment its [fetch] settles, with the two readings
    of [performance.now()]: how its own promise settles. *)
Definition getRoute (startTime endTime : number) (fetched : Fetched RouteBody) : Settled :=
  match fetched with
  | Failed message => Rejected message
  | Responded response =>
      if negb (ok response) then
        match text response with
        | Normal errorText =>
            Rejected ("API алдаа (" ++ toString (status response) ++ "): " ++ errorText)
        | Throw message => Rejected message
        end
      else
        match json response with
        | Throw message => Rejected message
        | Normal (NotAnObject message) => Rejected message
        | Normal (AnObject data) =>
            Fulfilled (Some (set_computeTime
              (toFixed (div (sub endTime startTime) (MapJs.lit 1000 0)) 3) data))
        end
  end.

(** [getGraphStats], [getGraphBbox] and [getNearestNode] from the moment
    their [fetch] settles: the parsed body, or [null] (here [None]) after
    any failure. *)
Definition json_or_null {Body : Type} (fetched : Fetched Body) : option Body :=
  match fetched with
  | Failed _ => None
  | Responded response =>
      if negb (ok response) then None
      else match json response with
           | Normal body => Some body
           | Throw _ => None
           end
  end.

Definition getGraphStats {Body : Type} : Fetched Body -> option Body := json_or_null.
Definition getGraphBbox {Body : Type} : Fetched Body -> option Body := json_or_null.
Definition getNearestNode {Body : Type} : Fetched Body -> option Body := json_or_null.

(** The URL [getNearestNode] builds. *)
Definition getNearestNode_url (lat lon : number) : URL :=
  {| href := API_BASE ++ "/nearest_node";
     searchParams := [("lat", toString lat); ("lon", toString lon);
                      ("max_distance_km", toString (MapJs.lit 10 0))] |}.

(** [checkHealth] from the moment its [fetch] settles. *)
Definition checkHealth {Body : Type} (fetched : Fetched Body) : bool :=
  match fetched with
  | Failed _ => false
  | Responded response => ok response
  end.

(** What [init] reads of the body of [/graph/stats]: [None] for a falsy
    value, else whether it has a [bbox] and its four numbers. *)
Definition StatsBody : Type := option (number * number * number * number).

(** What [getGraphStats] hands to [init]. *)
Definition stats_of (fetched : Fetched (option StatsBody)) : option StatsBody :=
  match getGraphStats fetched with
  | Some (Some stats) => Some stats
  | _ => None
  end.

End ApiJs.

(** * Vocabulary of the further statements *)

Module Further.
Import JS Leaflet MapJs Spec.

(** The text starts with a decimal digit. *)
Definition leading_digit (s : string) : bool :=
  match s with String c _ => is_digit c | EmptyString => false end.

(** The text of a number that is not NaN, as [toString] and [toFixed]
    print it: digits first, with or without a minus sign before them, or an
    infinity. *)
Definition numeral (s : string) : Prop :=
  leading_digit s = true \/
  (exists r, s = String "-" r /\ leading_digit r = true) \/
  s = "Infinity" \/ s = "-Infinity".

(** The tile layer the file puts on the map. *)
Definition tile : Layer := TileLayer "https://{s}.tile.openstreetmap.org/{z}/{x}/{y}.png".

Definition is_temporary (l : Layer) : Prop :=
  match l with Marker _ DefaultIcon _ => True | _ => False end.

(** A module variable, or a timer that has not fired, refers to [r]. *)
Definition owns (s : State) (r : Ref) : Prop :=
  r ∈ allRouteLayers s \/ routeLayer s = Some r \/ startMarker s = Some r \/
  endMarker s = Some r \/ r ∈ timers s.

(** The map holds the tile layer and, besides it, exactly the layers the
    module variables and the pending timers refer to, each of the kind its
    variable is for. *)
Record accounted (s : State) : Prop := {
  accounted_tile : on_map s 1 tile;
  accounted_on : forall r, owns s r -> on_map s (fst r) (snd r);
  accounted_only : forall id l, on_map s id l -> (id = 1%nat /\ l = tile) \/ owns s (id, l);
  accounted_fresh : forall id l, on_map s id l -> (id <= lastId (map s))%nat;
  accounted_timers : NoDup (fst <$> timers s);
  accounted_lines : forall r, r ∈ allRouteLayers s \/ routeLayer s = Some r -> is_line (snd r);
  accounted_start : forall r, startMarker s = Some r -> has_icon startIcon (snd r);
  accounted_end : forall r, endMarker s = Some r -> has_icon endIcon (snd r);
  accounted_temporary : forall r, r ∈ timers s -> is_temporary (snd r)
}.

(** What each variable of [s'] refers to, the same variable of [s]
    refers to. *)
Definition within (s' s : State) : Prop :=
  (forall r, r ∈ allRouteLayers s' -> r ∈ allRouteLayers s) /\
  (forall r, routeLayer s' = Some r -> routeLayer s = Some r) /\
  (forall r, startMarker s' = Some r -> startMarker s = Some r) /\
  (forall r, endMarker s' = Some r -> endMarker s = Some r) /\
  (forall r, r ∈ timers s' -> r ∈ timers s).

(** The state [clearMap] leaves. *)
Definition after_clearMap (s : State) : State :=
  {| map := remove_refs (allRouteLayers s ++ option_list (routeLayer s) ++
                         option_list (startMarker s) ++ option_list (endMarker s)) (map s);
     routeLayer := None; startMarker := None; endMarker := None;
     allRouteLayers := []; timers := timers s |}.

(** The marker [showTemporaryMarker] makes. *)
Definition temporary_marker (lat lon : number) (text : string) : Layer :=
  Marker (lat, lon) DefaultIcon (Some text).

(** The state a [showTemporaryMarker] that returns leaves. *)
Definition after_show (lat lon : number) (text : string) (s : State) : State :=
  let '(m, r) := addTo (temporary_marker lat lon text) (map s) in
  set_timers (timers s ++ [r]) (set_map m s).

(** The state the timer at [i] leaves when it fires. *)
Definition after_timer (i : nat) (s : State) : State :=
  match timers s !! i with
  | Some r => set_map (removeLayer r (map s)) (set_timers (take i (timers s) ++ drop (S i) (timers s)) s)
  | None => s
  end.

(** The state [drawRoute] is in when [fitBounds] refuses the bounds of an
    empty line. *)
Definition after_empty_route (a b : number * number) (s : State) : State :=
  let s1 := after_clear s in
  let '(m2, r) := addTo (route_line []) (map s1) in
  after_markers a b (set_routeLayer (Some r) (set_map m2 s1)).

(** Leaflet takes the pair a node identifier decodes to. *)
Definition decodes (node_id : string) : Prop :=
  exists q, toLatLng (decode node_id) = Normal q.

End Further.

Module AppFurther.
Import JS Leaflet AppJs AppSpec.

(** The map of the page holds what the variables of map.js account for. *)
Definition surface_accounted (s : State) : Prop := Further.accounted (surface s).

(** The four inputs hold texts [findRoute] accepts. *)
Definition inputs_parse (s : State) : Prop :=
  isNaN (parseFloat (startLatInput s)) = false /\
  isNaN (parseFloat (startLonInput s)) = false /\
  isNaN (parseFloat (endLatInput s)) = false /\
  isNaN (parseFloat (endLonInput s)) = false.

(** The request [findRoute] makes of the form as it stands. *)
Definition request_of (s : State) : Request :=
  {| algorithm := algorithmSelect s;
     lat1 := parseFloat (startLatInput s); lon1 := parseFloat (startLonInput s);
     lat2 := parseFloat (endLatInput s); lon2 := parseFloat (endLonInput s) |}.

(** The page once [findRoute] has sent the request [request_of s]: the
    button disabled, the status line on "computing", one more request under
    way. *)
Definition issued (s : State) : State :=
  set_inflight (inflight s ++ [request_of s])
    (set_statusDiv "loading"
       ("Зам тооцоолж байна... <span class=" ++ MapJs.dq ++ "loading" ++ MapJs.dq ++ "></span>")
       (set_findRouteBtn true s)).

(** The page once [findRoute] has refused the inputs. *)
Definition refused (s : State) : State :=
  set_statusDiv "error" "❌ Координат зөв оруулна уу!" s.

(** The text is empty or holds white space only. *)
Definition blank (t : string) : Prop := skip_spaces t = "".

(** The summary panel: whether it is shown, and its four texts. *)
Definition summary (s : State) : bool * string * string * string * string :=
  (infoPanelDiv s, distanceSpan s, nodesSpan s, timeSpan s, algoSpan s).

(** The four inputs and the click mode. *)
Definition selection (s : State) : string * string * string * string * string :=
  (startLatInput s, startLonInput s, endLatInput s, endLonInput s, clickMode s).

End AppFurther.
(** * Properties *)

(** ** Numbers and their texts *)

Module Numbers.
Import JS Further.

Lemma shr_1_nonneg (mrs : shr_record) : 0 <= shr_m mrs -> 0 <= shr_m (shr_1 mrs).
Proof.
  destruct mrs as [m r s]. simpl. intros H.
  destruct m as [|p|p]; [simpl; lia | destruct p; simpl; lia | lia].
Qed.

Lemma iter_pos_shr_1_nonneg (p : positive) (mrs : shr_record) :
  0 <= shr_m mrs -> 0 <= shr_m (SpecFloat.iter_pos shr_1 p mrs).
Proof.
  revert mrs. induction p as [p IH|p IH|]; intros mrs H; simpl.
  - apply IH, IH, shr_1_nonneg, H.
  - apply IH, IH, H.
  - apply shr_1_nonneg, H.
Qed.

Lemma shr_fexp_nonneg (m e : Z) (l : location) :
  0 <= m -> 0 <= shr_m (fst (shr_fexp prec emax m e l)).
Proof.
  intros H. unfold shr_fexp, shr.
  assert (H0 : 0 <= shr_m (shr_record_of_loc m l)).
  { destruct l as [|[]]; simpl; exact H. }
  destruct (fexp prec emax (Zdigits2 m + e) - e) as [|p|p]; simpl;
    [exact H0 | apply iter_pos_shr_1_nonneg, H0 | exact H0].
Qed.

Lemma round_nearest_even_nonneg (m : Z) (l : location) :
  0 <= m -> 0 <= round_nearest_even m l.
Proof.
  intros H. destruct l as [|[]]; simpl; try lia.
  destruct (Z.even m); lia.
Qed.

Lemma binary_round_aux_isNaN (s : bool) (m e : Z) (l : location) :
  0 <= m -> isNaN (binary_round_aux prec emax s m e l) = false.
Proof.
  intros H. unfold binary_round_aux.
  pose proof (shr_fexp_nonneg m e l H) as H1.
  destruct (shr_fexp prec emax m e l) as [mrs' e']. simpl in H1.
  pose proof (shr_fexp_nonneg _ e' loc_Exact
                (round_nearest_even_nonneg _ (loc_of_shr_record mrs') H1)) as H2.
  destruct (shr_fexp prec emax _ e' loc_Exact) as [mrs'' e'']. simpl in H2.
  destruct (shr_m mrs'') as [|p|p]; [reflexivity| |lia].
  destruct (e'' <=? emax - prec); reflexivity.
Qed.

Lemma binary_round_isNaN (s : bool) (m : positive) (e : Z) :
  isNaN (binary_round prec emax s m e) = false.
Proof.
  unfold binary_round.
  destruct (shl_align m e _) as [mz ez]. apply binary_round_aux_isNaN. lia.
Qed.

Lemma div_finite_isNaN (sx sy : bool) (mx my : positive) (ex ey : Z) :
  isNaN (div (S754_finite sx mx ex) (S754_finite sy my ey)) = false.
Proof.
  unfold div, SFdiv, SFdiv_core_binary.
  set (m' := match _ - _ - _ with Z0 => Zpos mx | Zpos _ => _ | Zneg _ => 0 end).
  assert (Hm : 0 <= m').
  { unfold m'. destruct (_ - _ - _); [lia | apply Z.shiftl_nonneg; lia | lia]. }
  pose proof (Z.div_eucl_eq m' (Zpos my) ltac:(lia)) as Heq.
  pose proof (Z.mod_pos_bound m' (Zpos my) ltac:(lia)) as Hr.
  pose proof (Z.div_pos m' (Zpos my) Hm ltac:(lia)) as Hq.
  unfold Z.modulo, Z.div in *.
  destruct (Z.div_eucl m' (Zpos my)) as [q r].
  apply binary_round_aux_isNaN. exact Hq.
Qed.

Lemma of_decimal_isNaN (neg : bool) (m : N) (k : Z) : isNaN (of_decimal neg m k) = false.
Proof.
  unfold of_decimal. destruct m as [|p]; [reflexivity|].
  destruct (0 <=? k) eqn:E.
  - apply Z.leb_le in E.
    assert (H : 0 < Zpos p * 10 ^ k) by (apply Z.mul_pos_pos; [lia | apply Z.pow_pos_nonneg; lia]).
    destruct (Zpos p * 10 ^ k); try lia. apply binary_round_isNaN.
  - apply Z.leb_gt in E.
    assert (H : 0 < 10 ^ (- k)) by (apply Z.pow_pos_nonneg; lia).
    destruct (10 ^ (- k)); try lia. apply div_finite_isNaN.
Qed.


Lemma leading_digit_app (s t : string) :
  leading_digit s = true -> leading_digit (s ++ t) = true.
Proof. destruct s; [discriminate | intros H; exact H]. Qed.

Lemma leading_digit_substring (s : string) (n : nat) :
  leading_digit s = true -> leading_digit (substring 0 (S n) s) = true.
Proof. destruct s; [discriminate | intros H; exact H]. Qed.

Lemma string_of_uint_leading (d : Decimal.uint) :
  d <> Decimal.Nil -> leading_digit (NilEmpty.string_of_uint d) = true.
Proof. destruct d; [contradiction | reflexivity ..]. Qed.

Lemma digits_of_leading (n : Z) : leading_digit (digits_of n) = true.
Proof.
  unfold digits_of. apply string_of_uint_leading.
  destruct (Z.to_N n) as [|p]; [discriminate | apply DecimalPos.Unsigned.to_uint_nonnil].
Qed.

Lemma length_zeros (n : nat) : String.length (zeros n) = n.
Proof. induction n as [|n IH]; simpl; [reflexivity | rewrite IH; reflexivity]. Qed.

Lemma string_length_app (s t : string) :
  String.length (s ++ t) = (String.length s + String.length t)%nat.
Proof. induction s as [|c s IH]; simpl; [reflexivity | rewrite IH; reflexivity]. Qed.

Lemma zeros_app_leading (n : nat) (m : string) :
  leading_digit m = true -> leading_digit (zeros n ++ m) = true.
Proof. destruct n; [intros H; exact H | reflexivity]. Qed.

Lemma fixed_digits_leading (n : Z) (f : nat) : leading_digit (fixed_digits n f) = true.
Proof.
  unfold fixed_digits. pose proof (digits_of_leading n) as Hm.
  destruct f as [|f]; [exact Hm|].
  set (m := digits_of n) in *.
  set (m' := if (String.length m <=? S f)%nat then _ else m).
  assert (H : leading_digit m' = true /\ (S f < String.length m')%nat).
  { unfold m'. destruct (String.length m <=? S f)%nat eqn:E.
    - apply Nat.leb_le in E. split; [apply zeros_app_leading, Hm|].
      rewrite string_length_app, length_zeros. lia.
    - apply Nat.leb_gt in E. split; [exact Hm | exact E]. }
  destruct H as [H1 H2].
  destruct (String.length m' - S f)%nat as [|j] eqn:E; [lia|].
  apply leading_digit_app, leading_digit_substring, H1.
Qed.

Lemma toString_digits_leading (s n k : Z) :
  leading_digit (toString_digits s n k) = true.
Proof.
  unfold toString_digits. pose proof (digits_of_leading s) as Hd.
  destruct ((k <=? n) && (n <=? 21)); [apply leading_digit_app, Hd|].
  destruct ((0 <? n) && (n <=? 21)) eqn:E.
  - apply andb_true_iff in E as [E _]. apply Z.ltb_lt in E.
    destruct (Z.to_nat n) as [|j] eqn:En; [lia|].
    apply leading_digit_app, leading_digit_substring, Hd.
  - destruct ((-6 <? n) && (n <=? 0)); [reflexivity|].
    destruct (k =? 1); [apply leading_digit_app, Hd|].
    apply leading_digit_app, leading_digit_substring, Hd.
Qed.

Lemma signed_numeral (neg : bool) (s : string) :
  leading_digit s = true -> numeral ((if neg then "-" else "") ++ s).
Proof.
  intros H. destruct neg; [right; left; exists s; split; [reflexivity | exact H]|].
  left. exact H.
Qed.

Lemma toString_numeral (x : number) : isNaN x = false -> numeral (toString x).
Proof.
  destruct x as [s|s| |s m e]; intros H; try discriminate.
  - left. reflexivity.
  - destruct s; [right; right; right | right; right; left]; reflexivity.
  - unfold toString. destruct (fraction m e) as [p d].
    destruct (shortest 17 (S754_finite false m e) p d (magnitude p d) 1) as [[s0 n] k].
    apply signed_numeral, toString_digits_leading.
Qed.

Lemma toFixed_numeral (x : number) (f : nat) : isNaN x = false -> numeral (toFixed x f).
Proof.
  destruct x as [s|s| |s m e]; intros H; try discriminate.
  - left. apply fixed_digits_leading.
  - apply (toString_numeral (S754_infinity s)). reflexivity.
  - unfold toFixed. destruct (fraction m e) as [p d] eqn:E.
    destruct (10 ^ 21 * d <=? p); [apply toString_numeral; reflexivity|].
    apply signed_numeral, fixed_digits_leading.
Qed.

Lemma is_digit_cases (c : ascii) :
  is_digit c = true ->
  In c ["0"; "1"; "2"; "3"; "4"; "5"; "6"; "7"; "8"; "9"]%char.
Proof.
  destruct c as [[] [] [] [] [] [] [] []]; intros H; try discriminate H; simpl; tauto.
Qed.

Lemma take_unsigned_decimal_digit (neg : bool) (c : ascii) (r : string) :
  is_digit c = true ->
  exists v r', take_unsigned_decimal neg (String c r) = Some (v, r') /\ isNaN v = false.
Proof.
  intros H. unfold take_unsigned_decimal.
  change (take_digits 0 (String c r)) with
    (if is_digit c
     then let '(v, n, r') := take_digits (10 * 0 + digit_val c)%N r in (v, S n, r')
     else (0%N, O, String c r)).
  rewrite H. destruct (take_digits _ r) as [[iv ilen] r0].
  assert (Hs : forall (mv : N) (flen : nat) (r1 : string),
            exists v r', (let '(ex, r2) := take_exponent r1 in
                          Some (of_decimal neg mv (ex - Z.of_nat flen), r2)) = Some (v, r')
                         /\ isNaN v = false).
  { intros mv flen r1. destruct (take_exponent r1) as [ex r2].
    eexists; eexists; split; [reflexivity | apply of_decimal_isNaN]. }
  destruct r0 as [|c0 r0]; [apply Hs|].
  destruct (Ascii.eqb_spec c0 ".") as [->|Hne].
  - destruct (take_digits iv r0) as [[fv flen] r1]. apply Hs.
  - destruct c0 as [[] [] [] [] [] [] [] []]; try apply Hs. contradiction.
Qed.

Lemma take_decimal_digit (c : ascii) (r : string) :
  is_digit c = true ->
  exists v r', take_decimal (String c r) = Some (v, r') /\ isNaN v = false.
Proof.
  intros H. pose proof (take_unsigned_decimal_digit false c r H) as Hu.
  apply is_digit_cases in H. simpl in H.
  repeat (destruct H as [<-|H]; [exact Hu|]). contradiction.
Qed.

Lemma take_decimal_minus_digit (c : ascii) (r : string) :
  is_digit c = true ->
  exists v r', take_decimal (String "-" (String c r)) = Some (v, r') /\ isNaN v = false.
Proof.
  intros H. pose proof (take_unsigned_decimal_digit true c r H) as Hu.
  apply is_digit_cases in H. simpl in H.
  repeat (destruct H as [<-|H]; [exact Hu|]). contradiction.
Qed.

(** White space does not start with a character of one byte that is not
    white space itself. *)
Lemma skip_spaces_ascii (c : ascii) (r : string) :
  is_space c = false -> (nat_of_ascii c < 128)%nat -> skip_spaces (String c r) = String c r.
Proof.
  intros Hs Hc. destruct c as [b0 b1 b2 b3 b4 b5 b6 b7].
  destruct b7.
  - exfalso. apply Nat.ltb_lt in Hc.
    destruct b0, b1, b2, b3, b4, b5, b6; vm_compute in Hc; discriminate Hc.
  - destruct r as [|c1 [|c2 r2]];
      destruct b0, b1, b2, b3, b4, b5, b6; try discriminate Hs; reflexivity.
Qed.

Lemma skip_spaces_digit (c : ascii) (r : string) :
  is_digit c = true -> skip_spaces (String c r) = String c r.
Proof.
  intros H. apply is_digit_cases in H. simpl in H.
  repeat (destruct H as [<-|H]; [apply skip_spaces_ascii; [reflexivity | apply Nat.ltb_lt; reflexivity]|]).
  contradiction.
Qed.

Lemma parseFloat_numeral (s : string) : numeral s -> isNaN (parseFloat s) = false.
Proof.
  intros [H|[(r & -> & H)|[-> | ->]]]; try reflexivity.
  - destruct s as [|c r]; [discriminate|]. simpl in H.
    unfold parseFloat. rewrite (skip_spaces_digit c r H).
    destruct (take_decimal_digit c r H) as (v & r' & -> & Hv). exact Hv.
  - destruct r as [|c r]; [discriminate|]. simpl in H.
    unfold parseFloat.
    rewrite (skip_spaces_ascii "-" (String c r)) by (try reflexivity; apply Nat.ltb_lt; reflexivity).
    destruct (take_decimal_minus_digit c r H) as (v & r' & -> & Hv). exact Hv.
Qed.

Lemma parseFloat_toFixed_isNaN (x : number) (f : nat) :
  isNaN (parseFloat (toFixed x f)) = isNaN x.
Proof.
  destruct (isNaN x) eqn:E.
  - destruct x; try discriminate. reflexivity.
  - apply parseFloat_numeral, toFixed_numeral, E.
Qed.

Lemma parseFloat_toString_isNaN (x : number) :
  isNaN (parseFloat (toString x)) = isNaN x.
Proof.
  destruct (isNaN x) eqn:E.
  - destruct x; try discriminate. reflexivity.
  - apply parseFloat_numeral, toString_numeral, E.
Qed.

End Numbers.

(** ** Numeric strings *)

Module Literals.
Import JS Spec Numbers.

#[local] Arguments String.append !_ _ / : simpl nomatch.

Lemma append_empty (s : string) : s ++ "" = s.
Proof. induction s as [|c s IH]; simpl; [reflexivity | rewrite IH; reflexivity]. Qed.

Lemma append_append (s t u : string) : (s ++ t) ++ u = s ++ t ++ u.
Proof. induction s as [|c s IH]; simpl; [reflexivity | rewrite IH; reflexivity]. Qed.

(** *** White space *)

Lemma skip_spaces_eq (c : ascii) (r : string) :
  skip_spaces (String c r) =
  if is_space c then skip_spaces r
  else match r with
       | String c1 r1 =>
           if is_space2 c c1 then skip_spaces r1
           else match r1 with
                | String c2 r2 => if is_space3 c c1 c2 then skip_spaces r2 else String c r
                | EmptyString => String c r
                end
       | EmptyString => String c r
       end.
Proof. reflexivity. Qed.

Ltac pick :=
  solve [ repeat first [ left; reflexivity | right ] ].

Lemma skip_white_char (w r : string) :
  In w white_space_chars -> skip_spaces (w ++ r) = skip_spaces r.
Proof.
  intros H. vm_compute in H.
  repeat (destruct H as [<-|H]; [reflexivity|]). contradiction.
Qed.

Lemma white_skip (w t : string) : white w -> skip_spaces (w ++ t) = skip_spaces t.
Proof.
  induction 1 as [|w r Hw _ IH]; [reflexivity|].
  rewrite append_append, skip_white_char by exact Hw. exact IH.
Qed.

Lemma white_blank (w : string) : white w -> skip_spaces w = "".
Proof. intros H. rewrite <- (append_empty w). rewrite white_skip by exact H. reflexivity. Qed.

Lemma white_stops (w : string) : white w -> stops solid w.
Proof.
  intros [|w0 r H _]; [exact I|]. vm_compute in H.
  repeat (destruct H as [<-|H]; [reflexivity|]). contradiction.
Qed.

Lemma is_space_white (c : ascii) : is_space c = true -> In (String c "") white_space_chars.
Proof.
  destruct c as [[] [] [] [] [] [] [] []]; intros H; try discriminate H;
    vm_compute; pick.
Qed.

Lemma is_space2_white (c c1 : ascii) :
  is_space2 c c1 = true -> In (String c (String c1 "")) white_space_chars.
Proof.
  unfold is_space2. intros H. apply andb_true_iff in H as [H1 H2].
  apply Ascii.eqb_eq in H1, H2. subst. vm_compute. pick.
Qed.

Lemma is_space3_white (c c1 c2 : ascii) :
  is_space3 c c1 c2 = true -> In (String c (String c1 (String c2 ""))) white_space_chars.
Proof.
  unfold is_space3. intros H.
  repeat match type of H with
  | (_ || _)%bool = true => apply orb_true_iff in H as [H|H]
  end;
  repeat match goal with
  | H : (_ && _)%bool = true |- _ => apply andb_true_iff in H as [? ?]
  | H : (_ =? _)%char = true |- _ => apply Ascii.eqb_eq in H; subst
  end;
  try (vm_compute; pick).
  all: destruct c2 as [[] [] [] [] [] [] [] []];
    repeat match goal with
    | H : (_ || _)%bool = true |- _ => vm_compute in H
    | H : (_ =? _)%nat = true |- _ => vm_compute in H
    end; try discriminate; vm_compute; pick.
Qed.

Lemma skip_spaces_split (s : string) : exists w, white w /\ s = w ++ skip_spaces s.
Proof.
  assert (G : forall n s, (String.length s <= n)%nat ->
                exists w, white w /\ s = w ++ skip_spaces s).
  { clear s. induction n as [|n IH]; intros s Hn.
    - destruct s; [|simpl in Hn; lia]. exists "". split; [constructor | reflexivity].
    - destruct s as [|c r]; [exists ""; split; [constructor | reflexivity]|].
      simpl in Hn. rewrite skip_spaces_eq.
      destruct (is_space c) eqn:E1.
      { destruct (IH r) as (w & Hw & Hr); [lia|].
        exists (String c "" ++ w). split.
        - apply white_cons; [apply is_space_white, E1 | exact Hw].
        - simpl. f_equal. exact Hr. }
      destruct r as [|c1 r1]; [exists ""; split; [constructor | reflexivity]|].
      simpl in Hn.
      destruct (is_space2 c c1) eqn:E2.
      { destruct (IH r1) as (w & Hw & Hr); [lia|].
        exists (String c (String c1 "") ++ w). split.
        - apply white_cons; [apply is_space2_white, E2 | exact Hw].
        - simpl. do 2 f_equal. exact Hr. }
      destruct r1 as [|c2 r2]; [exists ""; split; [constructor | reflexivity]|].
      simpl in Hn.
      destruct (is_space3 c c1 c2) eqn:E3.
      { destruct (IH r2) as (w & Hw & Hr); [lia|].
        exists (String c (String c1 (String c2 "")) ++ w). split.
        - apply white_cons; [apply is_space3_white, E3 | exact Hw].
        - simpl. do 3 f_equal. exact Hr. }
      exists "". split; [constructor | reflexivity]. }
  apply (G (String.length s)). lia.
Qed.

Lemma blank_white (s : string) : skip_spaces s = "" -> white s.
Proof.
  intros H. destruct (skip_spaces_split s) as (w & Hw & E).
  rewrite H, append_empty in E. subst. exact Hw.
Qed.

(** *** Digits *)

Lemma solid_classes (c : ascii) :
  solid c = false ->
  is_digit c = false /\ hex_digit c = false /\ octal_digit c = false /\
  binary_digit c = false /\ (c =? ".")%char = false /\
  ((c =? "e")%char || (c =? "E")%char) = false.
Proof.
  destruct c as [[] [] [] [] [] [] [] []]; intros H; vm_compute in H; try discriminate H;
    vm_compute; repeat split; reflexivity.
Qed.

Lemma stops_weaken (f g : ascii -> bool) (r : string) :
  (forall c, f c = false -> g c = false) -> stops f r -> stops g r.
Proof. intros H. destruct r as [|c r]; simpl; auto. Qed.

Lemma solid_stops (r : string) :
  stops solid r ->
  stops is_digit r /\ stops hex_digit r /\ stops octal_digit r /\ stops binary_digit r /\
  stops (fun c => (c =? ".")%char) r /\
  stops (fun c => (c =? "e")%char || (c =? "E")%char) r.
Proof.
  intros H. repeat split; revert H; apply stops_weaken; intros c Hc;
    apply solid_classes in Hc; tauto.
Qed.

Lemma take_digits_all (d r : string) (acc : N) :
  all_chars is_digit d = true -> stops is_digit r ->
  exists v, take_digits acc (d ++ r) = (v, String.length d, r).
Proof.
  revert acc. induction d as [|c d IH]; intros acc Hd Hr; simpl.
  - destruct r as [|c r]; [eexists; reflexivity|]. simpl in *. rewrite Hr.
    eexists; reflexivity.
  - simpl in Hd. apply andb_true_iff in Hd as [Hc Hd]. rewrite Hc.
    destruct (IH (10 * acc + digit_val c)%N Hd Hr) as [v ->]. eexists; reflexivity.
Qed.

Lemma take_digits_split (s : string) (acc v : N) (n : nat) (r : string) :
  take_digits acc s = (v, n, r) ->
  exists d, s = d ++ r /\ all_chars is_digit d = true /\ String.length d = n.
Proof.
  revert acc v n r. induction s as [|c s IH]; intros acc v n r H; simpl in H.
  - injection H as <- <- <-. exists "". auto.
  - destruct (is_digit c) eqn:E.
    + destruct (take_digits _ s) as [[v' n'] r'] eqn:E'. injection H as <- <- <-.
      destruct (IH _ _ _ _ E') as (d & -> & Hd & Hn). exists (String c d).
      simpl. rewrite E, Hd, Hn. auto.
    + injection H as <- <- <-. exists "". auto.
Qed.

Lemma digits_first (f : ascii -> bool) (d : string) :
  digits_of_kind f d ->
  exists c d', d = String c d' /\ f c = true /\ all_chars f d' = true.
Proof.
  intros [Hne Hd]. destruct d as [|c d']; [contradiction|].
  simpl in Hd. apply andb_true_iff in Hd as [Hc Hd]. eauto.
Qed.

Lemma digits_length (f : ascii -> bool) (d : string) :
  digits_of_kind f d -> exists n, String.length d = S n.
Proof. intros [Hne _]. destruct d; [contradiction | simpl; eauto]. Qed.

Lemma digits_from_length (f : ascii -> bool) (d : string) (n : nat) :
  all_chars f d = true -> String.length d = S n -> digits_of_kind f d.
Proof. intros Hd Hn. split; [intros ->; discriminate | exact Hd]. Qed.

(** *** The exponent *)

Lemma take_exponent_eq (c : ascii) (r : string) :
  take_exponent (String c r) =
  if (c =? "e")%char || (c =? "E")%char then
    let '(neg, r1) :=
      match r with
      | String "-" r1 => (true, r1)
      | String "+" r1 => (false, r1)
      | _ => (false, r)
      end in
    let '(v, n, r2) := take_digits 0 r1 in
    match n with
    | O => (0, String c r)
    | S _ => (if neg then - Z.of_N v else Z.of_N v, r2)
    end
  else (0, String c r).
Proof. reflexivity. Qed.

Lemma take_exponent_skip (r : string) :
  stops (fun c => (c =? "e")%char || (c =? "E")%char) r -> take_exponent r = (0, r).
Proof.
  destruct r as [|c r]; [reflexivity|]. intros H. simpl in H.
  rewrite take_exponent_eq, H. reflexivity.
Qed.

(** A sign, or none, at the start of a string. *)
Lemma sign_match (r : string) :
  exists g b r1, sign g /\ r = g ++ r1 /\
    match r with
    | String "-" r1 => (true, r1)
    | String "+" r1 => (false, r1)
    | _ => (false, r)
    end = (b, r1).
Proof.
  destruct r as [|c r1].
  - exists "", false, "". unfold sign. auto.
  - destruct c as [[] [] [] [] [] [] [] []];
      first [ exists "-", true, r1; unfold sign; solve [auto]
            | exists "+", false, r1; unfold sign; solve [auto]
            | eexists "", false, _; unfold sign; solve [auto] ].
Qed.

Lemma take_exponent_all (e r : string) :
  exponent_opt e -> stops solid r -> exists x, take_exponent (e ++ r) = (x, r).
Proof.
  intros [->|(c & g & d & Hc & Hg & Hd & ->)] Hr.
  - exists 0. apply take_exponent_skip. apply solid_stops, Hr.
  - simpl String.append. rewrite append_append. rewrite take_exponent_eq.
    assert (Ec : (c =? "e")%char || (c =? "E")%char = true)
      by (destruct Hc as [-> | ->]; reflexivity).
    rewrite Ec.
    destruct (digits_length _ d Hd) as [n Hn].
    destruct (take_digits_all d r 0%N (proj2 Hd) (proj1 (solid_stops r Hr))) as [v Hv].
    rewrite Hn in Hv.
    destruct Hg as [->|[->| ->]]; simpl String.append; eexists.
    + destruct (digits_first _ d Hd) as (c0 & d' & -> & Hc0 & _).
      simpl String.append in *. apply is_digit_cases in Hc0. simpl in Hc0.
      repeat (destruct Hc0 as [<-|Hc0]; [cbv beta iota; rewrite Hv; reflexivity|]).
      contradiction.
    + cbv beta iota. rewrite Hv. reflexivity.
    + cbv beta iota. rewrite Hv. reflexivity.
Qed.

Lemma take_exponent_split (s : string) (x : Z) (r : string) :
  take_exponent s = (x, r) -> exists e, s = e ++ r /\ exponent_opt e.
Proof.
  destruct s as [|c r0]; intros H.
  - injection H as <- <-. exists "". split; [reflexivity | left; reflexivity].
  - rewrite take_exponent_eq in H.
    destruct ((c =? "e")%char || (c =? "E")%char) eqn:Ec.
    2:{ injection H as <- <-. exists "". split; [reflexivity | left; reflexivity]. }
    destruct (sign_match r0) as (g & b & r1 & Hg & E & Hm). rewrite Hm in H.
    destruct (take_digits 0 r1) as [[v n] r2] eqn:Ed.
    destruct n as [|n].
    + injection H as <- <-. exists "". split; [reflexivity | left; reflexivity].
    + injection H as <- <-.
      destruct (take_digits_split _ _ _ _ _ Ed) as (d & -> & Hd & Hn).
      exists (String c (g ++ d)). split.
      * simpl. rewrite append_append, E. reflexivity.
      * right. exists c, g, d. repeat split; auto.
        -- apply orb_true_iff in Ec as [Ec|Ec]; apply Ascii.eqb_eq in Ec; auto.
        -- intros ->. discriminate.
Qed.

Lemma exponent_stops (e r : string) :
  exponent_opt e -> stops solid r ->
  stops is_digit (e ++ r) /\ stops (fun c => (c =? ".")%char) (e ++ r).
Proof.
  intros [->|(c & g & d & Hc & _ & _ & ->)] Hr.
  - simpl. split; apply solid_stops, Hr.
  - destruct Hc as [-> | ->]; split; reflexivity.
Qed.

(** *** Decimal literals *)

Lemma take_unsigned_point (neg : bool) (s : string) (iv : N) (ilen : nat) (r0 : string) :
  take_digits 0 s = (iv, ilen, String "." r0) ->
  take_unsigned_decimal neg s =
  let '(fv, flen, r1) := take_digits iv r0 in
  match ilen, flen with
  | O, O => None
  | _, _ =>
      let '(ex, r2) := take_exponent r1 in
      Some (of_decimal neg fv (ex - Z.of_nat flen), r2)
  end.
Proof.
  intros H. unfold take_unsigned_decimal. rewrite H.
  destruct (take_digits iv r0) as [[fv flen] r1]. destruct ilen, flen; reflexivity.
Qed.

Lemma take_unsigned_no_point (neg : bool) (s : string) (iv : N) (ilen : nat) (r : string) :
  take_digits 0 s = (iv, ilen, r) -> stops (fun c => (c =? ".")%char) r ->
  take_unsigned_decimal neg s =
  match ilen with
  | O => None
  | S _ => let '(ex, r2) := take_exponent r in Some (of_decimal neg iv (ex - Z.of_nat 0), r2)
  end.
Proof.
  intros H Hr. unfold take_unsigned_decimal. rewrite H.
  destruct r as [|c r0]; [destruct ilen; reflexivity|]. simpl in Hr.
  destruct c as [[] [] [] [] [] [] [] []]; try discriminate Hr; destruct ilen; reflexivity.
Qed.

(** The three forms of StrUnsignedDecimalLiteral other than [Infinity]. *)
Lemma take_unsigned_all (neg : bool) (u r : string) :
  (exists i f e, decimal_digits i /\ (f = "" \/ decimal_digits f) /\ exponent_opt e /\
                 u = i ++ "." ++ f ++ e) \/
  (exists f e, decimal_digits f /\ exponent_opt e /\ u = "." ++ f ++ e) \/
  (exists i e, decimal_digits i /\ exponent_opt e /\ u = i ++ e) ->
  stops solid r ->
  exists v, take_unsigned_decimal neg (u ++ r) = Some (v, r) /\ isNaN v = false.
Proof.
  intros [(i & f & e & Hi & Hf & He & ->)|[(f & e & Hf & He & ->)|(i & e & Hi & He & ->)]] Hr.
  - assert (Hf' : all_chars is_digit f = true) by (destruct Hf as [->|[_ Hf]]; auto).
    rewrite !append_append. simpl String.append.
    destruct (take_digits_all i (String "." (f ++ e ++ r)) 0%N (proj2 Hi) eq_refl) as [iv Hv].
    rewrite (take_unsigned_point neg _ _ _ _ Hv).
    destruct (take_digits_all f (e ++ r) iv Hf' (proj1 (exponent_stops e r He Hr)))
      as [fv Hfv].
    rewrite Hfv. destruct (digits_length _ i Hi) as [n ->].
    destruct (take_exponent_all e r He Hr) as [x ->].
    eexists. split; [reflexivity | apply of_decimal_isNaN].
  - simpl String.append. rewrite !append_append.
    rewrite (take_unsigned_point neg (String "." (f ++ e ++ r)) 0%N 0%nat (f ++ e ++ r) eq_refl).
    destruct (take_digits_all f (e ++ r) 0%N (proj2 Hf) (proj1 (exponent_stops e r He Hr)))
      as [fv Hfv].
    rewrite Hfv. destruct (digits_length _ f Hf) as [n ->].
    destruct (take_exponent_all e r He Hr) as [x ->].
    eexists. split; [reflexivity | apply of_decimal_isNaN].
  - rewrite !append_append.
    destruct (take_digits_all i (e ++ r) 0%N (proj2 Hi) (proj1 (exponent_stops e r He Hr)))
      as [iv Hv].
    rewrite (take_unsigned_no_point neg _ _ _ _ Hv (proj2 (exponent_stops e r He Hr))).
    destruct (digits_length _ i Hi) as [n ->].
    destruct (take_exponent_all e r He Hr) as [x ->].
    eexists. split; [reflexivity | apply of_decimal_isNaN].
Qed.

Lemma dot_cases (r : string) :
  (exists r', r = String "." r') \/ stops (fun c => (c =? ".")%char) r.
Proof.
  destruct r as [|c r]; [right; exact I|].
  destruct (Ascii.eqb_spec c ".") as [->|Hne]; [left; eauto|].
  right. simpl. apply Ascii.eqb_neq. exact Hne.
Qed.

Lemma take_unsigned_split (neg : bool) (s : string) (v : number) (r : string) :
  take_unsigned_decimal neg s = Some (v, r) ->
  isNaN v = false /\
  exists u, s = u ++ r /\ u <> "" /\
    ((exists i f e, decimal_digits i /\ (f = "" \/ decimal_digits f) /\ exponent_opt e /\
                    u = i ++ "." ++ f ++ e) \/
     (exists f e, decimal_digits f /\ exponent_opt e /\ u = "." ++ f ++ e) \/
     (exists i e, decimal_digits i /\ exponent_opt e /\ u = i ++ e)).
Proof.
  intros H. destruct (take_digits 0 s) as [[iv ilen] r0] eqn:Ei.
  destruct (take_digits_split _ _ _ _ _ Ei) as (i & -> & Hi & Hlen).
  destruct (dot_cases r0) as [[r' ->]|Hdot].
  - rewrite (take_unsigned_point neg _ _ _ _ Ei) in H.
    destruct (take_digits iv r') as [[fv flen] r1] eqn:Ef.
    destruct (take_digits_split _ _ _ _ _ Ef) as (f & -> & Hf & Hflen).
    assert (Hf' : f = "" \/ decimal_digits f).
    { destruct f; [left; reflexivity | right; split; [discriminate | exact Hf]]. }
    destruct ilen as [|n].
    + destruct flen as [|m]; [discriminate|].
      destruct (take_exponent r1) as [ex r2] eqn:Ee. injection H as <- <-.
      destruct (take_exponent_split _ _ _ Ee) as (e & -> & He).
      split; [apply of_decimal_isNaN|].
      destruct i; [|discriminate]. exists ("." ++ f ++ e). split; [|split].
      * simpl. rewrite !append_append. reflexivity.
      * discriminate.
      * right. left. exists f, e. repeat split; auto.
        intros ->. discriminate.
    + assert (Hx : exists ex r2, take_exponent r1 = (ex, r2) /\
                     Some (of_decimal neg fv (ex - Z.of_nat flen), r2) = Some (v, r)).
      { destruct (take_exponent r1) as [ex r2]. destruct flen; eauto. }
      destruct Hx as (ex & r2 & Ee & Hx). injection Hx as <- <-.
      destruct (take_exponent_split _ _ _ Ee) as (e & -> & He).
      split; [apply of_decimal_isNaN|].
      exists (i ++ "." ++ f ++ e). split; [|split].
      * simpl. rewrite !append_append. simpl. rewrite !append_append. reflexivity.
      * destruct i; discriminate.
      * left. exists i, f, e. repeat split; auto. intros ->. discriminate.
  - rewrite (take_unsigned_no_point neg _ _ _ _ Ei Hdot) in H.
    destruct ilen as [|n]; [discriminate|].
    destruct (take_exponent r0) as [ex r2] eqn:Ee. injection H as <- <-.
    destruct (take_exponent_split _ _ _ Ee) as (e & -> & He).
    split; [apply of_decimal_isNaN|].
    exists (i ++ e). split; [|split].
    + rewrite append_append. reflexivity.
    + destruct i; discriminate.
    + right. right. exists i, e. repeat split; auto. intros ->. discriminate.
Qed.

(** The literal [Infinity] at the start of a string. *)
Lemma infinity_cases {A : Type} (t : string) (f : string -> A) (d : A) :
  (exists r', t = "Infinity" ++ r' /\
     match t with
     | String "I" (String "n" (String "f" (String "i" (String "n"
         (String "i" (String "t" (String "y" r'))))))) => f r'
     | _ => d
     end = f r') \/
  match t with
  | String "I" (String "n" (String "f" (String "i" (String "n"
      (String "i" (String "t" (String "y" r'))))))) => f r'
  | _ => d
  end = d.
Proof.
  destruct t as [|c1 t]; [right; reflexivity|].
  destruct c1 as [[] [] [] [] [] [] [] []]; try (right; reflexivity).
  destruct t as [|c2 t]; [right; reflexivity|].
  destruct c2 as [[] [] [] [] [] [] [] []]; try (right; reflexivity).
  destruct t as [|c3 t]; [right; reflexivity|].
  destruct c3 as [[] [] [] [] [] [] [] []]; try (right; reflexivity).
  destruct t as [|c4 t]; [right; reflexivity|].
  destruct c4 as [[] [] [] [] [] [] [] []]; try (right; reflexivity).
  destruct t as [|c5 t]; [right; reflexivity|].
  destruct c5 as [[] [] [] [] [] [] [] []]; try (right; reflexivity).
  destruct t as [|c6 t]; [right; reflexivity|].
  destruct c6 as [[] [] [] [] [] [] [] []]; try (right; reflexivity).
  destruct t as [|c7 t]; [right; reflexivity|].
  destruct c7 as [[] [] [] [] [] [] [] []]; try (right; reflexivity).
  destruct t as [|c8 t]; [right; reflexivity|].
  destruct c8 as [[] [] [] [] [] [] [] []]; try (right; reflexivity).
  left. exists t. split; reflexivity.
Qed.

Lemma take_decimal_eq (s : string) :
  take_decimal s =
  let '(neg, r) :=
    match s with
    | String "-" r => (true, r)
    | String "+" r => (false, r)
    | _ => (false, s)
    end in
  match r with
  | String "I" (String "n" (String "f" (String "i" (String "n"
      (String "i" (String "t" (String "y" r'))))))) => Some (S754_infinity neg, r')
  | _ => take_unsigned_decimal neg r
  end.
Proof. reflexivity. Qed.

Lemma take_decimal_split (s : string) (v : number) (r : string) :
  take_decimal s = Some (v, r) ->
  isNaN v = false /\ exists b, s = b ++ r /\ decimal_literal b.
Proof.
  intros H. rewrite take_decimal_eq in H.
  destruct (sign_match s) as (g & neg & t & Hg & -> & Hm). rewrite Hm in H.
  cbv beta iota in H.
  destruct (infinity_cases (A := option (number * string)) t
              (fun r' => Some (S754_infinity neg, r'))
              (take_unsigned_decimal neg t)) as [(r' & -> & Em)|Em];
    cbv beta in Em; rewrite Em in H.
  - injection H as <- <-. split; [reflexivity|].
    exists (g ++ "Infinity"). split; [rewrite append_append; reflexivity|].
    exists g, "Infinity". repeat split; auto. left. reflexivity.
  - apply take_unsigned_split in H as (Hv & u & -> & _ & Hu). split; [exact Hv|].
    exists (g ++ u). split; [rewrite append_append; reflexivity|].
    exists g, u. repeat split; auto. right. exact Hu.
Qed.

Lemma unsigned_starts (u r : string) :
  (exists i f e, decimal_digits i /\ (f = "" \/ decimal_digits f) /\ exponent_opt e /\
                 u = i ++ "." ++ f ++ e) \/
  (exists f e, decimal_digits f /\ exponent_opt e /\ u = "." ++ f ++ e) \/
  (exists i e, decimal_digits i /\ exponent_opt e /\ u = i ++ e) ->
  exists c t, u ++ r = String c t /\ (is_digit c = true \/ c = "."%char).
Proof.
  intros [(i & f & e & Hi & _ & _ & ->)|[(f & e & _ & _ & ->)|(i & e & Hi & _ & ->)]].
  - destruct (digits_first _ i Hi) as (c & i' & -> & Hc & _). simpl. eauto.
  - simpl. eauto.
  - destruct (digits_first _ i Hi) as (c & i' & -> & Hc & _). simpl. eauto.
Qed.

Lemma take_decimal_unsigned (c : ascii) (t : string) :
  is_digit c = true \/ c = "."%char ->
  take_decimal (String c t) = take_unsigned_decimal false (String c t) /\
  take_decimal (String "+" (String c t)) = take_unsigned_decimal false (String c t) /\
  take_decimal (String "-" (String c t)) = take_unsigned_decimal true (String c t).
Proof.
  intros [H| ->]; [|repeat split; reflexivity].
  apply is_digit_cases in H. simpl in H.
  repeat (destruct H as [<-|H]; [repeat split; reflexivity|]). contradiction.
Qed.

Lemma take_decimal_all (b r : string) :
  decimal_literal b -> stops solid r ->
  exists v, take_decimal (b ++ r) = Some (v, r) /\ isNaN v = false.
Proof.
  intros (g & u & Hg & Hu & ->) Hr. rewrite append_append.
  destruct Hu as [->|Hu].
  - destruct Hg as [->|[->| ->]]; eexists; split; reflexivity.
  - destruct (unsigned_starts u r Hu) as (c & t & E & Hc).
    destruct (take_decimal_unsigned c t Hc) as (E1 & E2 & E3).
    destruct Hg as [->|[->| ->]]; simpl String.append; rewrite E.
    + rewrite E1, <- E. apply take_unsigned_all; assumption.
    + rewrite E2, <- E. apply take_unsigned_all; assumption.
    + rewrite E3, <- E. apply take_unsigned_all; assumption.
Qed.

(** *** Literals of another radix *)

Lemma radix_digit_kinds (c : ascii) :
  hex_digit c = match radix_digit 16 c with Some _ => true | None => false end /\
  octal_digit c = match radix_digit 8 c with Some _ => true | None => false end /\
  binary_digit c = match radix_digit 2 c with Some _ => true | None => false end.
Proof. destruct c as [[] [] [] [] [] [] [] []]; vm_compute; repeat split; reflexivity. Qed.

Lemma take_radix_all (radix : N) (f : ascii -> bool) (d r : string) (acc : N) :
  (forall c, f c = match radix_digit radix c with Some _ => true | None => false end) ->
  all_chars f d = true -> stops f r ->
  exists v, take_radix_digits radix acc (d ++ r) = (v, String.length d, r).
Proof.
  intros Hf. revert acc. induction d as [|c d IH]; intros acc Hd Hr; simpl.
  - destruct r as [|c r]; [eexists; reflexivity|]. simpl in *. rewrite Hf in Hr.
    destruct (radix_digit radix c); [discriminate|]. eexists; reflexivity.
  - simpl in Hd. apply andb_true_iff in Hd as [Hc Hd]. rewrite Hf in Hc.
    destruct (radix_digit radix c) as [x|]; [|discriminate].
    destruct (IH (radix * acc + x)%N Hd Hr) as [v ->]. eexists; reflexivity.
Qed.

Lemma take_radix_split (radix : N) (f : ascii -> bool) (s : string) (acc v : N) (n : nat)
    (r : string) :
  (forall c, f c = match radix_digit radix c with Some _ => true | None => false end) ->
  take_radix_digits radix acc s = (v, n, r) ->
  exists d, s = d ++ r /\ all_chars f d = true /\ String.length d = n.
Proof.
  intros Hf. revert acc v n r. induction s as [|c s IH]; intros acc v n r H; simpl in H.
  - injection H as <- <- <-. exists "". auto.
  - destruct (radix_digit radix c) as [x|] eqn:E.
    + destruct (take_radix_digits radix _ s) as [[v' n'] r'] eqn:E'.
      injection H as <- <- <-.
      destruct (IH _ _ _ _ E') as (d & -> & Hd & Hn). exists (String c d).
      simpl. rewrite Hf, E, Hd, Hn. auto.
    + injection H as <- <- <-. exists "". auto.
Qed.

Lemma take_non_decimal_eq (c : ascii) (r : string) :
  take_non_decimal (String "0" (String c r)) =
  let radix :=
    if (c =? "x")%char || (c =? "X")%char then Some 16%N
    else if (c =? "o")%char || (c =? "O")%char then Some 8%N
    else if (c =? "b")%char || (c =? "B")%char then Some 2%N
    else None in
  match radix with
  | Some b =>
      let '(v, n, r') := take_radix_digits b 0 r in
      match n with
      | O => None
      | S _ => Some (of_decimal false v 0, r')
      end
  | None => None
  end.
Proof. reflexivity. Qed.

Lemma take_non_decimal_all (b r : string) :
  non_decimal_literal b -> stops solid r ->
  exists v, take_non_decimal (b ++ r) = Some (v, r) /\ isNaN v = false.
Proof.
  intros (c & d & -> & H) Hr. simpl String.append. rewrite take_non_decimal_eq.
  destruct (solid_stops r Hr) as (_ & Hx & Ho & Hb & _).
  destruct H as [[Hc Hd]|[[Hc Hd]|[Hc Hd]]].
  - destruct (take_radix_all 16 hex_digit d r 0%N (fun a => proj1 (radix_digit_kinds a))
                (proj2 Hd) Hx) as [v Hv].
    destruct (digits_length _ d Hd) as [n Hn]. rewrite Hn in Hv.
    destruct Hc as [-> | ->]; cbv beta iota zeta; simpl orb; cbv iota; rewrite Hv;
      eexists; (split; [reflexivity | apply of_decimal_isNaN]).
  - destruct (take_radix_all 8 octal_digit d r 0%N
                (fun a => proj1 (proj2 (radix_digit_kinds a))) (proj2 Hd) Ho) as [v Hv].
    destruct (digits_length _ d Hd) as [n Hn]. rewrite Hn in Hv.
    destruct Hc as [-> | ->]; cbv beta iota zeta; simpl orb; cbv iota; rewrite Hv;
      eexists; (split; [reflexivity | apply of_decimal_isNaN]).
  - destruct (take_radix_all 2 binary_digit d r 0%N
                (fun a => proj2 (proj2 (radix_digit_kinds a))) (proj2 Hd) Hb) as [v Hv].
    destruct (digits_length _ d Hd) as [n Hn]. rewrite Hn in Hv.
    destruct Hc as [-> | ->]; cbv beta iota zeta; simpl orb; cbv iota; rewrite Hv;
      eexists; (split; [reflexivity | apply of_decimal_isNaN]).
Qed.

Lemma take_non_decimal_split (s : string) (v : number) (r : string) :
  take_non_decimal s = Some (v, r) ->
  isNaN v = false /\ exists b, s = b ++ r /\ non_decimal_literal b.
Proof.
  intros H.
  destruct s as [|c0 [|c s]]; try discriminate H.
  { destruct c0 as [[] [] [] [] [] [] [] []]; discriminate H. }
  destruct c0 as [[] [] [] [] [] [] [] []]; try discriminate H.
  rewrite take_non_decimal_eq in H. cbv zeta in H.
  assert (G : forall radix f,
            (forall a, f a = match radix_digit radix a with Some _ => true | None => false end) ->
            (let '(v0, n, r') := take_radix_digits radix 0 s in
             match n with
             | O => None
             | S _ => Some (of_decimal false v0 0, r')
             end) = Some (v, r) ->
            isNaN v = false /\ exists d, s = d ++ r /\ digits_of_kind f d).
  { intros radix f Hf G. destruct (take_radix_digits radix 0 s) as [[v0 n] r'] eqn:E.
    destruct n as [|n]; [discriminate|]. injection G as <- <-.
    destruct (take_radix_split _ f _ _ _ _ _ Hf E) as (d & -> & Hd & Hn).
    split; [apply of_decimal_isNaN|]. exists d. split; [reflexivity|].
    eapply digits_from_length; eassumption. }
  destruct ((c =? "x")%char || (c =? "X")%char) eqn:Ex.
  { destruct (G 16%N hex_digit (fun a => proj1 (radix_digit_kinds a)) H)
      as (Hv & d & -> & Hd).
    split; [exact Hv|]. exists (String "0" (String c d)). split; [reflexivity|].
    exists c, d. split; [reflexivity|]. left. split; [|exact Hd].
    apply orb_true_iff in Ex as [E|E]; apply Ascii.eqb_eq in E; auto. }
  destruct ((c =? "o")%char || (c =? "O")%char) eqn:Eo.
  { destruct (G 8%N octal_digit (fun a => proj1 (proj2 (radix_digit_kinds a))) H)
      as (Hv & d & -> & Hd).
    split; [exact Hv|]. exists (String "0" (String c d)). split; [reflexivity|].
    exists c, d. split; [reflexivity|]. right. left. split; [|exact Hd].
    apply orb_true_iff in Eo as [E|E]; apply Ascii.eqb_eq in E; auto. }
  destruct ((c =? "b")%char || (c =? "B")%char) eqn:Eb; [|discriminate].
  destruct (G 2%N binary_digit (fun a => proj2 (proj2 (radix_digit_kinds a))) H)
    as (Hv & d & -> & Hd).
  split; [exact Hv|]. exists (String "0" (String c d)). split; [reflexivity|].
  exists c, d. split; [reflexivity|]. right. right. split; [|exact Hd].
  apply orb_true_iff in Eb as [E|E]; apply Ascii.eqb_eq in E; auto.
Qed.

(** *** Numeric strings and [Number] *)

Lemma literal_starts_solid (body r : string) :
  decimal_literal body \/ non_decimal_literal body ->
  exists c t, body ++ r = String c t /\ solid c = true.
Proof.
  intros [(g & u & Hg & Hu & ->)|(c & d & -> & _)]; [|simpl; eauto].
  rewrite append_append.
  destruct Hg as [->|[->| ->]]; try (simpl; eauto; fail).
  destruct Hu as [->|Hu]; [simpl; eauto|].
  destruct (unsigned_starts u r Hu) as (c & t & E & Hc). simpl. rewrite E.
  exists c, t. split; [reflexivity|].
  destruct Hc as [Hc| ->]; [|reflexivity].
  apply is_digit_cases in Hc. simpl in Hc.
  repeat (destruct Hc as [<-|Hc]; [reflexivity|]). contradiction.
Qed.

Lemma skip_spaces_solid (c : ascii) (t : string) :
  solid c = true -> skip_spaces (String c t) = String c t.
Proof.
  unfold solid. intros H. apply andb_true_iff in H as [H1 H2].
  apply negb_true_iff in H1. apply Nat.ltb_lt in H2. apply skip_spaces_ascii; assumption.
Qed.

(** [Number] gives a number for the numeric strings, and NaN for every
    other string. *)
Lemma Number_numeric (s : string) : isNaN (Number s) = false <-> numeric s.
Proof.
  split.
  - intros H. unfold Number in H.
    destruct (skip_spaces_split s) as (w1 & Hw1 & E).
    destruct (skip_spaces s) as [|c t] eqn:Et.
    { exists w1, "", "". repeat split; auto using white_nil. }
    destruct (take_non_decimal (String c t)) as [[v r]|] eqn:E1.
    + destruct (skip_spaces r) eqn:Er.
      * apply take_non_decimal_split in E1 as (_ & b & Eb & Hb).
        exists w1, b, r. repeat split; auto.
        -- apply blank_white. exact Er.
        -- rewrite <- Eb. exact E.
      * destruct (take_decimal (String c t)) as [[v' r']|] eqn:E2; [|discriminate H].
        destruct (skip_spaces r') eqn:Er'; [|discriminate H].
        apply take_decimal_split in E2 as (_ & b & Eb & Hb).
        exists w1, b, r'. repeat split; auto.
        -- apply blank_white. exact Er'.
        -- rewrite <- Eb. exact E.
    + destruct (take_decimal (String c t)) as [[v' r']|] eqn:E2; [|discriminate H].
      destruct (skip_spaces r') eqn:Er'; [|discriminate H].
      apply take_decimal_split in E2 as (_ & b & Eb & Hb).
      exists w1, b, r'. repeat split; auto.
      * apply blank_white. exact Er'.
      * rewrite <- Eb. exact E.
  - intros (w1 & body & w2 & Hw1 & Hw2 & -> & Hbody). unfold Number.
    rewrite white_skip by exact Hw1.
    destruct Hbody as [->|Hbody].
    { simpl. rewrite white_blank by exact Hw2. reflexivity. }
    destruct (literal_starts_solid body w2 Hbody) as (c & t & E & Hc).
    rewrite E, (skip_spaces_solid c t Hc), <- E.
    assert (Hnd : forall v r, take_non_decimal (body ++ w2) = Some (v, r) ->
                    isNaN v = false).
    { intros v r Hv. apply take_non_decimal_split in Hv. tauto. }
    assert (Hgo : exists v, isNaN v = false /\
              (match take_non_decimal (body ++ w2) with
               | Some (v0, r) => match skip_spaces r with EmptyString => Some v0 | _ => None end
               | None => None
               end = Some v \/
               match take_decimal (body ++ w2) with
               | Some (v0, r) => match skip_spaces r with EmptyString => Some v0 | _ => None end
               | None => None
               end = Some v)).
    { destruct Hbody as [Hb|Hb].
      - destruct (take_decimal_all body w2 Hb (white_stops w2 Hw2)) as (v & -> & Hv).
        exists v. split; [exact Hv|]. right. rewrite white_blank by exact Hw2. reflexivity.
      - destruct (take_non_decimal_all body w2 Hb (white_stops w2 Hw2)) as (v & -> & Hv).
        exists v. split; [exact Hv|]. left. rewrite white_blank by exact Hw2. reflexivity. }
    destruct Hgo as (v & Hv & [Hgo|Hgo]).
    + rewrite E in *. rewrite Hgo. exact Hv.
    + rewrite E in *.
      destruct (take_non_decimal (String c t)) as [[v0 r]|] eqn:E1.
      * destruct (skip_spaces r); [exact (Hnd _ _ eq_refl)|]. rewrite Hgo. exact Hv.
      * rewrite Hgo. exact Hv.
Qed.

End Literals.

(** ** Node identifiers *)

Module NodeId.
Import JS Leaflet MapJs Spec.

#[local] Arguments String.append !_ _ / : simpl nomatch.

Lemma split_nonempty (sep : ascii) (s : string) : split sep s <> [].
Proof.
  induction s as [|c r IH]; simpl; [discriminate|].
  destruct (c =? sep)%char; [discriminate|].
  destruct (split sep r); [contradiction|discriminate].
Qed.

Lemma split_no_separator (s : string) :
  separators s = 0%nat -> split "_" s = [s].
Proof.
  induction s as [|c r IH]; simpl; [reflexivity|].
  destruct (c =? "_")%char; [discriminate|].
  intros H. rewrite IH by exact H. reflexivity.
Qed.

Lemma split_at_separator (a r : string) :
  separators a = 0%nat -> split "_" (a ++ "_" ++ r) = a :: split "_" r.
Proof.
  change ("_" ++ r) with (String "_" r).
  induction a as [|c a IH]; simpl; [reflexivity|].
  destruct (c =? "_")%char; [discriminate|].
  intros H. rewrite IH by exact H. reflexivity.
Qed.

(** The literal [47.9210] is the binary64 number [6744281179475673 * 2^-47],
    which lies within half a unit in the last place of [47921/1000]; and
    likewise [106.9270]. *)
Lemma literal_47_9210 :
  lit 479210 (-4) = S754_finite false 6744281179475673 (-47) /\
  2 * Z.abs (1000 * 6744281179475673 - 47921 * 2 ^ 47) <= 1000.
Proof. split; [vm_compute; reflexivity | vm_compute; discriminate]. Qed.

Lemma literal_106_9270 :
  lit 1069270 (-4) = S754_finite false 7524318708685079 (-46) /\
  2 * Z.abs (1000 * 7524318708685079 - 106927 * 2 ^ 46) <= 1000.
Proof. split; [vm_compute; reflexivity | vm_compute; discriminate]. Qed.

Lemma cut_at_separator (id : string) :
  (0 < separators id)%nat ->
  exists a r, id = a ++ "_" ++ r /\ separators a = 0%nat.
Proof.
  induction id as [|c id IH]; simpl; [lia|].
  destruct (Ascii.eqb_spec c "_") as [->|Hne].
  - intros _. exists "", id. split; reflexivity.
  - intros H. destruct (IH H) as (a & r & -> & Ha). exists (String c a), r.
    split; [reflexivity|]. simpl.
    destruct (Ascii.eqb_spec c "_"); [contradiction | exact Ha].
Qed.

Lemma pieces_exist (id : string) :
  (0 < separators id)%nat -> exists a b, pieces id a b.
Proof.
  intros H. destruct (cut_at_separator id H) as (a & r & -> & Ha).
  destruct (separators r) as [|n] eqn:E.
  - exists a, r. repeat split; auto.
  - destruct (cut_at_separator r ltac:(lia)) as (b & rest & -> & Hb).
    exists a, b. repeat split; eauto.
Qed.

Lemma decode_pieces (id a b : string) :
  pieces id a b -> decode id = (Num (Number a), Num (Number b)).
Proof.
  intros (Ha & Hb & [->|[rest ->]]); unfold decode.
  - rewrite split_at_separator by exact Ha.
    rewrite split_no_separator by exact Hb. reflexivity.
  - rewrite split_at_separator by exact Ha.
    rewrite split_at_separator by exact Hb. reflexivity.
Qed.

Lemma decode_no_separator (id : string) :
  separators id = 0%nat -> decode id = (Num (Number id), Undefined).
Proof. intros H. unfold decode. rewrite split_no_separator by exact H. reflexivity. Qed.

End NodeId.

Local Open Scope list_scope.

(** ** Reasoning about completions *)

Module Hoare.
Import Spec.

Section HoareRules.
Context {St : Type}.
Implicit Types (P E : St -> Prop).

Lemma hoare_ret {A} P E (Q : A -> St -> Prop) (a : A) :
  (forall s, P s -> Q a s) -> hoare P (ret a) Q E.
Proof. intros H s Hs. simpl. auto. Qed.

Lemma hoare_bind {A B} P E (Q : A -> St -> Prop) (R : B -> St -> Prop)
    (c : M St A) (k : A -> M St B) :
  hoare P c Q E -> (forall a, hoare (Q a) (k a) R E) -> hoare P (bind c k) R E.
Proof.
  intros Hc Hk s Hs. unfold bind. specialize (Hc s Hs).
  destruct (c s) as [s' [a|msg]]; [|exact Hc].
  apply (Hk a s' Hc).
Qed.

Lemma hoare_gets {A} P E (Q : A -> St -> Prop) (f : St -> A) :
  (forall s, P s -> Q (f s) s) -> hoare P (gets f) Q E.
Proof. intros H s Hs. simpl. auto. Qed.

Lemma hoare_modify P E (Q : unit -> St -> Prop) (f : St -> St) :
  (forall s, P s -> Q tt (f s)) -> hoare P (modify f) Q E.
Proof. intros H s Hs. simpl. auto. Qed.

Lemma hoare_conseq {A} P P' E E' (Q Q' : A -> St -> Prop) (c : M St A) :
  hoare P' c Q' E' ->
  (forall s, P s -> P' s) -> (forall a s, Q' a s -> Q a s) ->
  (forall s, E' s -> E s) -> hoare P c Q E.
Proof.
  intros Hc HP HQ HE s Hs. specialize (Hc s (HP s Hs)).
  destruct (c s) as [s' [a|msg]]; auto.
Qed.

Lemma hoare_pure {A} P E (Q : A -> St -> Prop) (c : M St A) (phi : Prop) :
  (phi -> hoare P c Q E) -> hoare (fun s => P s /\ phi) c Q E.
Proof. intros H s [Hs Hphi]. exact (H Hphi s Hs). Qed.

Lemma hoare_assoc {A B C} P E (Q : C -> St -> Prop)
    (c : M St A) (k1 : A -> M St B) (k2 : B -> M St C) :
  hoare P (bind (bind c k1) k2) Q E ->
  hoare P (bind c (fun a => bind (k1 a) k2)) Q E.
Proof.
  intros H s Hs. specialize (H s Hs). unfold bind in *.
  destruct (c s) as [s1 [a|msg]]; exact H.
Qed.

(** A loop keeps what each of its rounds keeps. *)
Lemma hoare_forEach {A} (I : St -> Prop) (f : A -> nat -> M St unit) (l : list A) :
  (forall x i, x ∈ l -> hoare I (f x i) (fun _ => I) I) ->
  forall i, hoare I (forEach f l i) (fun _ => I) I.
Proof.
  induction l as [|x l IH]; intros Hf i; simpl.
  - apply hoare_ret. auto.
  - eapply hoare_bind.
    + apply Hf. left.
    + intros u. apply IH. intros y j Hy. apply Hf. right. exact Hy.
Qed.
End HoareRules.

End Hoare.

(** ** The overlays map.js keeps *)

Module Overlays.
Import JS Leaflet MapJs Spec Hoare.

Lemma remove_refs_lookup (rs : list Ref) (m : Map) (id : nat) (l : Layer) :
  layers (remove_refs rs m) !! id = Some l <->
  (id ∉ (fst <$> rs)) /\ layers m !! id = Some l.
Proof.
  revert m. induction rs as [|r rs IH]; intros m.
  - simpl. split; [intros H; split; [apply not_elem_of_nil | exact H] | intros [_ H]; exact H].
  - change (remove_refs (r :: rs) m) with (remove_refs rs (removeLayer r m)).
    rewrite IH, fmap_cons, not_elem_of_cons. simpl.
    rewrite lookup_delete_Some. intuition congruence.
Qed.

Lemma remove_refs_lastId (rs : list Ref) (m : Map) :
  lastId (remove_refs rs m) = lastId m.
Proof. revert m. induction rs as [|r rs IH]; intros m; simpl; [|rewrite IH]; reflexivity. Qed.

Lemma remove_refs_fitted (rs : list Ref) (m : Map) :
  fitted (remove_refs rs m) = fitted m.
Proof. revert m. induction rs as [|r rs IH]; intros m; simpl; [|rewrite IH]; reflexivity. Qed.

Lemma remove_refs_calls (rs : list Ref) (m : Map) :
  calls (remove_refs rs m) = (calls m ++ ((fun r => RemoveLayer (fst r)) <$> rs))%list.
Proof.
  revert m. induction rs as [|r rs IH]; intros m; simpl.
  - rewrite app_nil_r. reflexivity.
  - rewrite IH. simpl. rewrite <- app_assoc. reflexivity.
Qed.

Lemma remove_refs_app (rs rs' : list Ref) (m : Map) :
  remove_refs (rs ++ rs') m = remove_refs rs' (remove_refs rs m).
Proof. unfold remove_refs. apply fold_left_app. Qed.

Lemma forEach_removeLayer (rs : list Ref) (i : nat) (s : State) :
  forEach (fun layer _ => map_removeLayer layer) rs i s =
  (set_map (remove_refs rs (map s)) s, Normal tt).
Proof.
  revert i s. induction rs as [|r rs IH]; intros i s.
  - destruct s; reflexivity.
  - simpl. unfold bind at 1. simpl. rewrite IH. destruct s; reflexivity.
Qed.

(** [clearAllRoutes] never throws: it takes every layer the two route
    variables refer to off the map and empties both. *)
Lemma clearAllRoutes_exec (s : State) :
  clearAllRoutes s =
  ({| map := remove_refs (allRouteLayers s ++ option_list (routeLayer s)) (map s);
      routeLayer := None; startMarker := startMarker s; endMarker := endMarker s;
      allRouteLayers := []; timers := timers s |}, Normal tt).
Proof.
  unfold clearAllRoutes, bind at 1. simpl.
  unfold bind at 1. rewrite forEach_removeLayer.
  rewrite remove_refs_app.
  destruct s as [m rl sm em al ts]; simpl.
  destruct rl as [r|]; reflexivity.
Qed.

Lemma fmap_fst_handles (s : State) :
  fst <$> (allRouteLayers s ++ option_list (routeLayer s)) = handles s.
Proof. unfold handles. rewrite fmap_app. destruct (routeLayer s); reflexivity. Qed.

(** Splits a fact [layers ... !! id = Some l] about a map built by
    insertions and removals into the cases it allows. *)
Ltac on_map_cases H :=
  unfold on_map in H; simpl in H;
  repeat first
    [ apply lookup_insert_Some in H as [[<- <-]|[? H]]
    | apply lookup_delete_Some in H as [? H]
    | apply remove_refs_lookup in H as [? H] ].

Ltac use_tracked :=
  repeat match goal with
  | Hx : forall (id : nat) (l : Layer), layers ?m !! id = Some l -> _,
    H : layers ?m !! ?i = Some ?l |- _ =>
      let T := type of (Hx i l H) in
      lazymatch goal with
      | _ : T |- _ => fail
      | _ => pose proof (Hx i l H)
      end
  end.

Ltac finish :=
  unfold handles in *; simpl in *; use_tracked;
  repeat match goal with
  | H : ?P -> _, Hp : ?P |- _ => specialize (H Hp)
  end;
  try solve [ assumption | lia | congruence | exfalso; congruence | exfalso; lia
            | exfalso; simplify_eq; congruence ].

(** Opens [tracked] for an explicit state: one goal for each clause, with
    the layer looked at split into its cases. *)
Ltac tracked_cases :=
  constructor; intros id l H; try intros Hp; on_map_cases H; simpl in *;
  try contradiction; try discriminate; try reflexivity.

Ltac open_state s Hs :=
  destruct Hs as [[Hl Hst Hen Hfr] [Hrf Hn]];
  destruct s as [m rl sm em al ts];
  unfold no_lines, no_icon, markers_after, refs_known, on_map in *; simpl in *.

(** Closes a goal [refs_known s] for an explicit state [s]. *)
Ltac refs_goal :=
  unfold refs_known in *; simpl in *;
  rewrite ?remove_refs_lastId in *;
  repeat match goal with
  | H : Forall _ (_ ++ _) |- _ => apply Forall_app in H as [? ?]
  | H : Forall _ (_ :: _) |- _ => apply Forall_cons in H as [? ?]
  | |- Forall _ (_ ++ _) => apply Forall_app; split
  | |- Forall _ (_ :: _) => apply Forall_cons; split
  | |- Forall _ [] => constructor
  end;
  simpl in *; try lia;
  try solve [ eapply Forall_impl; [eassumption | simpl; intros; lia] ].

(** Closes a goal [tracked_from n s] for an explicit state [s]. *)
Ltac tracked_goal :=
  split; [tracked_cases; finish | split; [refs_goal | simpl; lia]].

Lemma initial_tracked : tracked_from 0 initial.
Proof.
  split; [|split; [constructor | simpl; lia]].
  constructor; intros id l H; try intros Hp; on_map_cases H;
    try (rewrite lookup_empty in H; discriminate);
    try contradiction.
  simpl. lia.
Qed.

Lemma tracked_at_most_one (n : nat) (s : State) :
  tracked_from n s -> at_most_one startIcon s /\ at_most_one endIcon s.
Proof.
  intros [[_ Hst Hen _] _]. split; intros id1 l1 id2 l2 H1 H2 Hp1 Hp2.
  - pose proof (Hst _ _ H1 Hp1). pose proof (Hst _ _ H2 Hp2). congruence.
  - pose proof (Hen _ _ H1 Hp1). pose proof (Hen _ _ H2 Hp2). congruence.
Qed.

Lemma clearAllRoutes_tracked (n : nat) :
  hoare (tracked_from n) clearAllRoutes
    (fun _ s => tracked_from n s /\ no_lines s) (fun _ => False).
Proof.
  intros s [Hs [Hrf Hn]]. rewrite clearAllRoutes_exec.
  assert (Hno : no_lines
    {| map := remove_refs (allRouteLayers s ++ option_list (routeLayer s)) (map s);
       routeLayer := None; startMarker := startMarker s; endMarker := endMarker s;
       allRouteLayers := []; timers := timers s |}).
  { intros id l H Hl. on_map_cases H.
    rewrite fmap_fst_handles in *. eauto using tracked_lines. }
  split; [|exact Hno].
  split; [|split; [|simpl; rewrite remove_refs_lastId; exact Hn]].
  2:{ unfold refs_known in *. simpl. rewrite remove_refs_lastId.
      rewrite !Forall_app in Hrf. destruct Hrf as (_ & _ & Hrf).
      rewrite Forall_app. exact Hrf. }
  constructor; intros id l H.
  - intros Hl. exfalso. exact (Hno id l H Hl).
  - intros Hl. on_map_cases H. simpl. eapply tracked_start; eauto.
  - intros Hl. on_map_cases H. simpl. eapply tracked_end; eauto.
  - on_map_cases H. simpl. rewrite remove_refs_lastId. eapply tracked_fresh; eauto.
Qed.

(** [addMarkers] keeps the overlays tracked even when it throws, and when
    it returns the start and end markers on the map are the two new ones. *)
Lemma addMarkers_tracked (n : nat) (startCoord endCoord : number * number) :
  hoare (tracked_from n) (addMarkers startCoord endCoord)
    (fun _ s => tracked_from n s /\ markers_after n s) (tracked_from n).
Proof.
  intros s Hs. open_state s Hs.
  unfold addMarkers, bind, gets, modify, L_marker, lift, map_removeLayer, map_addTo,
    ret, toLatLng.
  simpl.
  destruct sm as [r1|], em as [r2|]; simpl;
  destruct (isNaN (fst startCoord) || isNaN (snd startCoord)); simpl;
  try destruct (isNaN (fst endCoord) || isNaN (snd endCoord)); simpl.
  all: try tracked_goal.
  all: split; [tracked_goal|].
  all: intros id l H Hp; on_map_cases H; simpl in *; try lia.
  all: destruct Hp as [Hp|Hp]; finish.
Qed.

(** Putting a new line on the map and into [routeLayer], when no other
    line is on the map. *)
Lemma install_route_tracked (n : nat) (line : Layer) :
  is_line line ->
  hoare (fun s => tracked_from n s /\ no_lines s)
    (let* r := map_addTo line in modify (set_routeLayer (Some r)))
    (fun _ => tracked_from n) (fun _ => False).
Proof.
  intros Hline s [Hs Hno]. open_state s Hs.
  destruct line as [u|ps o p|q i0 p]; try contradiction.
  unfold bind, map_addTo, modify. simpl.
  split; [|split; [refs_goal | simpl; lia]].
  tracked_cases; finish.
  apply elem_of_app. right. left.
Qed.

(** Putting a new line on the map and at the end of [allRouteLayers]. *)
Lemma push_route_tracked (n : nat) (line : Layer) :
  is_line line ->
  hoare (tracked_from n)
    (let* r := map_addTo line in
     modify (fun s => set_allRouteLayers (allRouteLayers s ++ [r]) s))
    (fun _ => tracked_from n) (fun _ => False).
Proof.
  intros Hline s Hs. open_state s Hs.
  destruct line as [u|ps o p|q i0 p]; try contradiction.
  unfold bind, map_addTo, modify. simpl.
  split; [|split; [refs_goal | simpl; lia]].
  tracked_cases; finish.
  - rewrite fmap_app, !elem_of_app. left. right. left.
  - rewrite fmap_app, !elem_of_app.
    match goal with Hin : _ ∈ _ ++ _ |- _ => apply elem_of_app in Hin as [?|?]; auto end.
Qed.

Lemma fitBounds_tracked (n : nat) (b : LatLngBounds) :
  hoare (fun s => tracked_from n s /\ markers_after n s) (map_fitBounds b)
    (fun _ s => tracked_from n s /\ markers_after n s) (tracked_from n).
Proof.
  intros s [Hs Hm]. open_state s Hs. unfold map_fitBounds, fitBounds.
  destruct b as [[sw ne]|]; simpl.
  - destruct (finite_corners sw ne); simpl.
    + split; [tracked_goal|]. intros id l H Hp. simpl in H. eauto.
    + tracked_goal.
  - tracked_goal.
Qed.

Lemma L_polyline_hoare (P : State -> Prop) (latlngs : list (value * value))
    (options : PathOptions) (popup : option string) :
  hoare P (L_polyline latlngs options popup) (fun line s => P s /\ is_line line) P.
Proof.
  intros s Hs. unfold L_polyline, bind, lift, ret.
  destruct (convertLatLngs latlngs); simpl; auto.
Qed.

Lemma L_latLngBounds_hoare (P : State -> Prop) (latlngs : list (value * value)) :
  hoare P (L_latLngBounds latlngs) (fun _ => P) P.
Proof.
  intros s Hs. unfold L_latLngBounds, bind, lift, ret.
  destruct (convertLatLngs latlngs); simpl; auto.
Qed.

Lemma clearMap_tracked (n : nat) :
  hoare (tracked_from n) clearMap
    (fun _ s => tracked_from n s /\ no_lines s /\ no_icon startIcon s /\
                no_icon endIcon s /\ startMarker s = None /\ endMarker s = None /\
                routeLayer s = None /\ allRouteLayers s = [])
    (fun _ => False).
Proof.
  intros s Hs. unfold clearMap, bind at 1.
  pose proof (clearAllRoutes_tracked n s Hs) as H1.
  rewrite clearAllRoutes_exec in *.
  destruct H1 as [Hs1 Hno]. clear Hs.
  destruct s as [m0 rl0 sm em al0 ts]. simpl in *.
  remember (remove_refs (al0 ++ option_list rl0) m0) as m eqn:Em. clear Em.
  destruct Hs1 as [[Hl Hst Hen Hfr] [Hrf Hn]].
  unfold no_lines, no_icon, markers_after, refs_known, on_map in *; simpl in *.
  unfold bind, gets, modify, map_removeLayer, ret. simpl.
  destruct sm as [r1|], em as [r2|]; simpl.
  all: split; [tracked_goal|].
  all: repeat split.
  all: intros id l H Hp; on_map_cases H; simpl in *; finish.
  all: try solve [eapply Hno; eauto].
Qed.

Lemma showTemporaryMarker_tracked (n : nat) (lat lon : number) (text : string) :
  hoare (tracked_from n) (showTemporaryMarker lat lon text)
    (fun _ => tracked_from n) (tracked_from n).
Proof.
  intros s Hs. open_state s Hs.
  unfold showTemporaryMarker, bind, L_marker, lift, map_addTo, modify, ret, toLatLng.
  simpl. destruct (isNaN lat || isNaN lon); simpl; tracked_goal.
Qed.

Lemma timer_fires_tracked (n : nat) (i : nat) :
  hoare (tracked_from n) (timer_fires i) (fun _ => tracked_from n) (tracked_from n).
Proof.
  intros s Hs. open_state s Hs.
  unfold timer_fires, bind, gets, modify, map_removeLayer, ret. simpl.
  destruct (ts !! i) as [r|]; simpl; tracked_goal.
Qed.

(** [drawRoute] keeps the overlays tracked however it ends, and when it
    returns the start and end markers on the map are new ones. *)
Lemma drawRoute_tracked (n : nat) (path : list string)
    (startCoord endCoord : number * number) :
  hoare (tracked_from n) (drawRoute path startCoord endCoord)
    (fun _ s => tracked_from n s /\ markers_after n s) (tracked_from n).
Proof.
  unfold drawRoute.
  eapply hoare_bind.
  { eapply hoare_conseq; [apply (clearAllRoutes_tracked n) | | | contradiction].
    - intros s H. exact H.
    - intros a s H. exact H. }
  intros _u.
  eapply hoare_bind.
  { eapply hoare_conseq;
      [apply (L_polyline_hoare (fun s => tracked_from n s /\ no_lines s)) | | | ].
    - intros s H. exact H.
    - intros a s H. exact H.
    - intros s [H _]. exact H. }
  intros line. apply hoare_pure. intros Hline.
  apply hoare_assoc.
  eapply hoare_bind.
  { eapply hoare_conseq; [apply (install_route_tracked n line Hline) | | | contradiction].
    - intros s H. exact H.
    - intros a s H. exact H. }
  intros _v.
  eapply hoare_bind; [apply addMarkers_tracked|].
  intros _w. apply fitBounds_tracked.
Qed.

Lemma drawMultiplePaths_tracked (n : nat) (pathsData : list PathData)
    (startCoord endCoord : number * number) :
  hoare (tracked_from n) (drawMultiplePaths pathsData startCoord endCoord)
    (fun _ s => tracked_from n s /\ markers_after n s) (tracked_from n).
Proof.
  unfold drawMultiplePaths.
  eapply hoare_bind.
  { eapply hoare_conseq; [apply (clearAllRoutes_tracked n) | | | contradiction].
    - intros s H. exact H.
    - intros a s [H _]. exact H. }
  intros _u.
  eapply hoare_bind.
  { apply hoare_forEach. intros pathData index _.
    eapply hoare_bind; [apply (L_polyline_hoare (tracked_from n))|].
    intros line. apply hoare_pure. intros Hline.
    eapply hoare_conseq; [apply (push_route_tracked n line Hline) | | | contradiction].
    - intros s H. exact H.
    - intros a s H. exact H. }
  intros _v.
  eapply hoare_bind; [apply addMarkers_tracked|].
  intros _w.
  destruct (0 <? length (flat_map coordinates pathsData))%nat.
  - eapply hoare_bind.
    + eapply hoare_conseq;
        [apply (L_latLngBounds_hoare (fun s => tracked_from n s /\ markers_after n s)) | | | ].
      * intros s H. exact H.
      * intros a s H. exact H.
      * intros s [H _]. exact H.
    + intros b. apply fitBounds_tracked.
  - apply hoare_ret. auto.
Qed.

(** Whatever the operation and however it ends, the overlays stay
    tracked. *)
Lemma perform_tracked (n : nat) (op : Operation) (s : State) :
  tracked_from n s -> tracked_from n (fst (perform op s)).
Proof.
  intros Hs. destruct op as [path a b|pathsData a b|]; simpl.
  - pose proof (drawRoute_tracked n path a b s Hs) as H.
    destruct (drawRoute path a b s) as [s' [u|msg]]; simpl; [apply H | exact H].
  - pose proof (drawMultiplePaths_tracked n pathsData a b s Hs) as H.
    destruct (drawMultiplePaths pathsData a b s) as [s' [u|msg]]; simpl; [apply H | exact H].
  - pose proof (clearMap_tracked n s Hs) as H.
    destruct (clearMap s) as [s' [u|msg]]; simpl; [apply H | contradiction].
Qed.

Lemma perform_all_tracked (ops : list Operation) (s : State) :
  tracked_from 0 s -> tracked_from 0 (perform_all ops s).
Proof.
  revert s. induction ops as [|op ops IH]; intros s Hs; simpl; [exact Hs|].
  apply IH. apply perform_tracked. exact Hs.
Qed.

End Overlays.

(** ** Bounds *)

Module Bounds.
Import JS Leaflet MapJs Spec.

Lemma leb_key (x y : number) :
  isNaN x = false -> isNaN y = false ->
  (leb x y = true <-> key_le (key x) (key y)).
Proof.
  intros Hx Hy. unfold leb, SFleb, key_le.
  destruct x as [sx|sx| |sx mx ex], y as [sy|sy| |sy my ey]; try discriminate;
    try destruct sx; try destruct sy; simpl; try (split; [intros _; lia | reflexivity]);
    try (split; [discriminate | lia]).
  - change (Pos.compare_cont Eq mx my) with (Pos.compare mx my).
    destruct (Z.compare_spec ex ey), (Pos.compare_spec mx my); simpl;
      split; try discriminate; try reflexivity; lia.
  - change (Pos.compare_cont Eq mx my) with (Pos.compare mx my).
    destruct (Z.compare_spec ex ey), (Pos.compare_spec mx my); simpl;
      split; try discriminate; try reflexivity; lia.
Qed.

Lemma ltb_key (x y : number) :
  isNaN x = false -> isNaN y = false ->
  (ltb x y = false <-> key_le (key y) (key x)).
Proof.
  intros Hx Hy. unfold ltb, SFltb, key_le.
  destruct x as [sx|sx| |sx mx ex], y as [sy|sy| |sy my ey]; try discriminate;
    try destruct sx; try destruct sy; simpl; try (split; [intros _; lia | reflexivity]);
    try (split; [discriminate | lia]).
  - change (Pos.compare_cont Eq mx my) with (Pos.compare mx my).
    destruct (Z.compare_spec ex ey), (Pos.compare_spec mx my); simpl;
      split; try discriminate; try reflexivity; lia.
  - change (Pos.compare_cont Eq mx my) with (Pos.compare mx my).
    destruct (Z.compare_spec ex ey), (Pos.compare_spec mx my); simpl;
      split; try discriminate; try reflexivity; lia.
Qed.

Lemma key_le_refl (a : Z * Z * Z) : key_le a a.
Proof. destruct a as [[a1 a2] a3]. simpl. lia. Qed.

Lemma key_le_trans (a b c : Z * Z * Z) : key_le a b -> key_le b c -> key_le a c.
Proof.
  destruct a as [[a1 a2] a3], b as [[b1 b2] b3], c as [[c1 c2] c3]. simpl. lia.
Qed.

Lemma key_le_total (a b : Z * Z * Z) : key_le a b \/ key_le b a.
Proof. destruct a as [[a1 a2] a3], b as [[b1 b2] b3]. simpl. lia. Qed.

Lemma leb_refl (x : number) : isNaN x = false -> leb x x = true.
Proof. intros H. apply leb_key; auto using key_le_refl. Qed.

Lemma leb_trans (x y z : number) :
  isNaN x = false -> isNaN y = false -> isNaN z = false ->
  leb x y = true -> leb y z = true -> leb x z = true.
Proof.
  intros Hx Hy Hz Hxy Hyz. apply leb_key; auto.
  apply leb_key in Hxy, Hyz; auto. eapply key_le_trans; eauto.
Qed.

Lemma min_isNaN (x y : number) :
  isNaN x = false -> isNaN y = false -> isNaN (min x y) = false.
Proof.
  intros Hx Hy. unfold min. rewrite Hx, Hy. simpl.
  destruct (ltb y x); [exact Hy|]. destruct (ltb x y); [exact Hx|].
  destruct x, y; try discriminate; reflexivity.
Qed.

Lemma max_isNaN (x y : number) :
  isNaN x = false -> isNaN y = false -> isNaN (max x y) = false.
Proof.
  intros Hx Hy. unfold max. rewrite Hx, Hy. simpl.
  destruct (ltb x y); [exact Hy|]. destruct (ltb y x); [exact Hx|].
  destruct x, y; try discriminate; reflexivity.
Qed.

Lemma ltb_leb (x y : number) :
  isNaN x = false -> isNaN y = false -> ltb y x = false -> leb x y = true.
Proof. intros Hx Hy H. apply leb_key; auto. apply ltb_key in H; auto. Qed.

Lemma ltb_true_leb (x y : number) :
  isNaN x = false -> isNaN y = false -> ltb x y = true -> leb x y = true.
Proof.
  intros Hx Hy H. apply leb_key; auto.
  destruct (key_le_total (key x) (key y)) as [K|K]; [exact K|].
  apply ltb_key in K; auto. congruence.
Qed.

Lemma min_le (x y : number) :
  isNaN x = false -> isNaN y = false ->
  leb (min x y) x = true /\ leb (min x y) y = true.
Proof.
  intros Hx Hy. unfold min. rewrite Hx, Hy. simpl.
  destruct (ltb y x) eqn:E1.
  - split; [apply ltb_true_leb; auto | apply leb_refl; auto].
  - pose proof (ltb_leb x y Hx Hy E1) as Hxy.
    destruct (ltb x y) eqn:E2; [split; [apply leb_refl; auto | exact Hxy]|].
    destruct x as [sx|sx| |sx mx ex], y as [sy|sy| |sy my ey]; try discriminate;
      try (split; [apply leb_refl; auto | exact Hxy]).
    split; reflexivity.
Qed.

Lemma max_ge (x y : number) :
  isNaN x = false -> isNaN y = false ->
  leb x (max x y) = true /\ leb y (max x y) = true.
Proof.
  intros Hx Hy. unfold max. rewrite Hx, Hy. simpl.
  destruct (ltb x y) eqn:E1.
  - split; [apply ltb_true_leb; auto | apply leb_refl; auto].
  - pose proof (ltb_leb y x Hy Hx E1) as Hyx.
    destruct (ltb y x) eqn:E2; [split; [apply leb_refl; auto | exact Hyx]|].
    destruct x as [sx|sx| |sx mx ex], y as [sy|sy| |sy my ey]; try discriminate;
      try (split; [apply leb_refl; auto | exact Hyx]).
    split; reflexivity.
Qed.

Lemma extend_proper (b : LatLngBounds) (p : LatLng) :
  proper b -> valid p -> proper (extend b p).
Proof.
  intros Hb [Hp1 Hp2]. destruct b as [[[s w] [n e]]|]; simpl.
  - destruct Hb as [[Hs Hw] [Hn He]]. simpl in *.
    repeat split; simpl; auto using min_isNaN, max_isNaN.
  - repeat split; assumption.
Qed.

Lemma extend_contains_new (b : LatLngBounds) (p : LatLng) :
  proper b -> valid p -> contains (extend b p) p = true.
Proof.
  intros Hb [Hp1 Hp2]. destruct p as [lat lng]. simpl in *.
  destruct b as [[[s w] [n e]]|]; simpl.
  - destruct Hb as [[Hs Hw] [Hn He]]. simpl in *.
    destruct (min_le lat s Hp1 Hs) as [-> _], (min_le lng w Hp2 Hw) as [-> _].
    destruct (max_ge lat n Hp1 Hn) as [-> _], (max_ge lng e Hp2 He) as [-> _].
    reflexivity.
  - rewrite !leb_refl by assumption. reflexivity.
Qed.

Lemma extend_contains_old (b : LatLngBounds) (p q : LatLng) :
  proper b -> valid p -> valid q ->
  contains b q = true -> contains (extend b p) q = true.
Proof.
  intros Hb [Hp1 Hp2] [Hq1 Hq2] Hc. destruct p as [lat lng], q as [qa qb]. simpl in *.
  destruct b as [[[s w] [n e]]|]; simpl in *; [|discriminate].
  destruct Hb as [[Hs Hw] [Hn He]]. simpl in *.
  apply andb_true_iff in Hc as [Hc H4]. apply andb_true_iff in Hc as [Hc H3].
  apply andb_true_iff in Hc as [H1 H2].
  destruct (min_le lat s Hp1 Hs) as [_ Ha], (min_le lng w Hp2 Hw) as [_ Hb'].
  destruct (max_ge lat n Hp1 Hn) as [_ Hc'], (max_ge lng e Hp2 He) as [_ Hd].
  rewrite (leb_trans _ s qa), (leb_trans qa n), (leb_trans _ w qb), (leb_trans qb e);
    auto using min_isNaN, max_isNaN.
Qed.

Lemma fold_extend_proper (ps : list LatLng) (b : LatLngBounds) :
  proper b -> Forall valid ps -> proper (fold_left extend ps b).
Proof.
  revert b. induction ps as [|p ps IH]; intros b Hb Hps; simpl; [exact Hb|].
  apply Forall_cons in Hps as [Hp Hps]. apply IH; auto using extend_proper.
Qed.

Lemma fold_extend_keeps (ps : list LatLng) (b : LatLngBounds) (q : LatLng) :
  proper b -> Forall valid ps -> valid q ->
  contains b q = true -> contains (fold_left extend ps b) q = true.
Proof.
  revert b. induction ps as [|p ps IH]; intros b Hb Hps Hq Hc; simpl; [exact Hc|].
  apply Forall_cons in Hps as [Hp Hps].
  apply IH; auto using extend_proper, extend_contains_old.
Qed.

(** The bounds of a list of points contain each of them. *)
Lemma latLngBounds_contains (ps : list LatLng) (q : LatLng) :
  Forall valid ps -> q ∈ ps -> contains (latLngBounds ps) q = true.
Proof.
  intros Hps Hin. unfold latLngBounds.
  assert (G : forall l b, proper b -> Forall valid l -> q ∈ l ->
              contains (fold_left extend l b) q = true).
  { induction l as [|p l IH]; intros b Hb Hl Hq; [inversion Hq|].
    apply Forall_cons in Hl as [Hp Hl]. simpl.
    apply elem_of_cons in Hq as [->|Hq].
    - apply fold_extend_keeps; auto using extend_proper, extend_contains_new.
    - apply IH; auto using extend_proper. }
  apply G; [exact I | exact Hps | exact Hin].
Qed.

Lemma geographic_finite (p : number * number) :
  geographic p -> isFinite (fst p) = true /\ isFinite (snd p) = true.
Proof.
  destruct p as [x y]. unfold geographic, lit, leb. simpl fst. simpl snd.
  let v := eval vm_compute in (of_decimal true 90 0) in
    change (of_decimal true 90 0) with v.
  let v := eval vm_compute in (of_decimal false 90 0) in
    change (of_decimal false 90 0) with v.
  let v := eval vm_compute in (of_decimal true 180 0) in
    change (of_decimal true 180 0) with v.
  let v := eval vm_compute in (of_decimal false 180 0) in
    change (of_decimal false 180 0) with v.
  intros (H1 & H2 & H3 & H4).
  split; [clear H3 H4; destruct x as [sx|[]| |sx mx ex] | clear H1 H2; destruct y as [sy|[]| |sy my ey]];
    try reflexivity; try discriminate.
Qed.

Lemma geographic_valid (p : number * number) : geographic p -> valid p.
Proof.
  intros H. apply geographic_finite in H as [H1 H2].
  split; [destruct (fst p) | destruct (snd p)]; try reflexivity; discriminate.
Qed.

Lemma min_isFinite (x y : number) :
  isFinite x = true -> isFinite y = true -> isFinite (min x y) = true.
Proof.
  intros Hx Hy. unfold min.
  assert (Nx : isNaN x = false) by (destruct x; try reflexivity; discriminate).
  assert (Ny : isNaN y = false) by (destruct y; try reflexivity; discriminate).
  rewrite Nx, Ny. simpl.
  destruct (ltb y x); [exact Hy|]. destruct (ltb x y); [exact Hx|].
  destruct x, y; try discriminate; reflexivity.
Qed.

Lemma max_isFinite (x y : number) :
  isFinite x = true -> isFinite y = true -> isFinite (max x y) = true.
Proof.
  intros Hx Hy. unfold max.
  assert (Nx : isNaN x = false) by (destruct x; try reflexivity; discriminate).
  assert (Ny : isNaN y = false) by (destruct y; try reflexivity; discriminate).
  rewrite Nx, Ny. simpl.
  destruct (ltb x y); [exact Hy|]. destruct (ltb y x); [exact Hx|].
  destruct x, y; try discriminate; reflexivity.
Qed.

(** The corners of the bounds of finite points are finite. *)
Lemma latLngBounds_finite (ps : list LatLng) (sw ne : LatLng) :
  Forall (fun p => isFinite (fst p) = true /\ isFinite (snd p) = true) ps ->
  latLngBounds ps = Some (sw, ne) -> finite_corners sw ne = true.
Proof.
  unfold latLngBounds.
  assert (G : forall l b,
            Forall (fun p => isFinite (fst p) = true /\ isFinite (snd p) = true) l ->
            match b with Some (sw0, ne0) => finite_corners sw0 ne0 = true | None => True end ->
            fold_left extend l b = Some (sw, ne) -> finite_corners sw ne = true).
  { induction l as [|p l IH]; intros b Hl Hb E; simpl in E.
    - rewrite E in Hb. exact Hb.
    - apply Forall_cons in Hl as [[Hp1 Hp2] Hl]. apply (IH _ Hl) in E; [exact E|].
      destruct b as [[sw0 ne0]|]; unfold extend, finite_corners in *; simpl.
      + apply andb_true_iff in Hb as [Hb H4]. apply andb_true_iff in Hb as [Hb H3].
        apply andb_true_iff in Hb as [H1 H2].
        rewrite min_isFinite, min_isFinite, max_isFinite, max_isFinite by assumption.
        reflexivity.
      + rewrite Hp1, Hp2. reflexivity. }
  intros Hl. apply G; [exact Hl | exact I].
Qed.

Lemma latLngBounds_geographic (ps : list LatLng) (sw ne : LatLng) :
  Forall geographic ps -> latLngBounds ps = Some (sw, ne) -> finite_corners sw ne = true.
Proof.
  intros H. apply latLngBounds_finite.
  eapply Forall_impl; [exact H | apply geographic_finite].
Qed.

(** The bounds of a list that is not empty have corners. *)
Lemma latLngBounds_nonempty (p : LatLng) (ps : list LatLng) :
  exists sw ne, latLngBounds (p :: ps) = Some (sw, ne).
Proof.
  unfold latLngBounds. simpl.
  assert (G : forall l b, exists sw ne, fold_left extend l (Some b) = Some (sw, ne)).
  { induction l as [|x l IH]; intros [sw ne]; simpl; [eauto|]. apply IH. }
  apply G.
Qed.

End Bounds.

(** ** Renders in closed form *)

Module Renders.
Import JS Leaflet MapJs Spec Further Hoare Overlays.

Lemma toLatLng_valid (p : number * number) :
  valid p -> toLatLng (Num (fst p), Num (snd p)) = Normal (fst p, snd p).
Proof. intros [H1 H2]. unfold toLatLng. simpl. rewrite H1, H2. reflexivity. Qed.

Lemma convertLatLngs_valid (ps : list (number * number)) :
  Forall valid ps -> convertLatLngs (as_values ps) = Normal ps.
Proof.
  induction ps as [|p ps IH]; intros H; [reflexivity|].
  apply Forall_cons in H as [Hp Hps]. cbn -[toLatLng].
  rewrite (toLatLng_valid p Hp). unfold as_values in IH. rewrite (IH Hps).
  destruct p; reflexivity.
Qed.

Lemma convertLatLngs_length (l : list (value * value)) (ps : list LatLng) :
  convertLatLngs l = Normal ps -> length ps = length l.
Proof.
  revert ps. induction l as [|p l IH]; intros ps H; simpl in H.
  - injection H as <-. reflexivity.
  - destruct (toLatLng p); [|discriminate].
    destruct (convertLatLngs l) as [qs|]; [|discriminate].
    injection H as <-. simpl. rewrite (IH qs eq_refl). reflexivity.
Qed.

Lemma addMarkers_exec (a b : number * number) (s : State) :
  valid a -> valid b -> addMarkers a b s = (after_markers a b s, Normal tt).
Proof.
  intros Ha Hb. destruct s as [m rl sm em al ts].
  unfold addMarkers, after_markers, bind, gets, modify, L_marker, lift, map_removeLayer,
    map_addTo, ret.
  cbn -[toLatLng]. rewrite (toLatLng_valid a Ha).
  destruct sm as [r1|], em as [r2|]; cbn -[toLatLng]; rewrite (toLatLng_valid b Hb);
    reflexivity.
Qed.

Lemma map_fitBounds_run (sw ne : LatLng) (s : State) :
  map_fitBounds (Some (sw, ne)) s = (after_fit sw ne s, fit_outcome sw ne).
Proof.
  unfold map_fitBounds, after_fit, fit_outcome, fitBounds.
  destruct (finite_corners sw ne); reflexivity.
Qed.

(** [drawRoute] on a path whose nodes all decode, and that has one at
    least: the state it leaves, and how it ends. *)
Lemma drawRoute_run (path : list string) (a b : number * number)
    (ps : list LatLng) (sw ne : LatLng) (s : State) :
  convertLatLngs (List.map decode path) = Normal ps ->
  latLngBounds ps = Some (sw, ne) ->
  valid a -> valid b ->
  drawRoute path a b s = (after_route ps a b sw ne s, fit_outcome sw ne).
Proof.
  intros Hps Hbounds Ha Hb. unfold drawRoute, bind at 1.
  rewrite clearAllRoutes_exec. fold (after_clear s).
  unfold L_polyline, bind at 1. unfold bind at 1. unfold lift at 1.
  rewrite Hps. unfold ret at 1.
  unfold bind at 1, map_addTo at 1. simpl.
  unfold bind at 1, modify at 1.
  unfold bind at 1. rewrite (addMarkers_exec a b _ Ha Hb).
  simpl getBounds. rewrite Hbounds. rewrite map_fitBounds_run. reflexivity.
Qed.

Lemma drawRoute_exec (path : list string) (a b : number * number)
    (ps : list LatLng) (sw ne : LatLng) (s : State) :
  convertLatLngs (List.map decode path) = Normal ps ->
  latLngBounds ps = Some (sw, ne) ->
  finite_corners sw ne = true ->
  valid a -> valid b ->
  drawRoute path a b s = (after_route ps a b sw ne s, Normal tt).
Proof.
  intros Hps Hbounds Hfin Ha Hb.
  rewrite (drawRoute_run path a b ps sw ne s Hps Hbounds Ha Hb).
  unfold fit_outcome. rewrite Hfin. reflexivity.
Qed.

Lemma forEach_lines_exec (total : nat) (pds : list PathData) (index : nat) (s : State) :
  Forall (fun pd => Forall valid (coordinates pd)) pds ->
  forEach (fun pathData index =>
    let style := path_style total index in
    let* layer := L_polyline (as_values (coordinates pathData)) style
      (Some (popupContent (color style) index pathData)) in
    let* r := map_addTo layer in
    modify (fun s => set_allRouteLayers (allRouteLayers s ++ [r]) s)) pds index s =
  (after_lines total pds index s, Normal tt).
Proof.
  revert index s. induction pds as [|pd pds IH]; intros index s H; [reflexivity|].
  apply Forall_cons in H as [Hpd Hpds]. simpl forEach. unfold bind at 1.
  unfold L_polyline, bind at 1. unfold bind at 1. unfold lift at 1.
  rewrite (convertLatLngs_valid _ Hpd). unfold ret at 1.
  unfold bind at 1, map_addTo at 1. simpl.
  unfold modify at 1. rewrite (IH _ _ Hpds). reflexivity.
Qed.

Lemma drawMultiplePaths_run (pds : list PathData) (a b : number * number) (s : State) :
  Forall (fun pd => Forall valid (coordinates pd)) pds ->
  valid a -> valid b ->
  drawMultiplePaths pds a b s = (after_paths pds a b s, paths_outcome pds).
Proof.
  intros Hpds Ha Hb. unfold paths_outcome, drawMultiplePaths, bind at 1.
  rewrite clearAllRoutes_exec. fold (after_clear s).
  unfold bind at 1. rewrite (forEach_lines_exec _ _ _ _ Hpds).
  unfold bind at 1. rewrite (addMarkers_exec a b _ Ha Hb).
  unfold after_paths.
  assert (Hall : Forall valid (flat_map coordinates pds)).
  { clear -Hpds. induction Hpds as [|pd pds Hpd _ IH]; simpl; [constructor|].
    apply Forall_app. split; assumption. }
  destruct (flat_map coordinates pds) as [|p ps] eqn:E.
  - reflexivity.
  - simpl Nat.ltb. cbv iota.
    unfold L_latLngBounds, bind at 1. unfold bind at 1. unfold lift at 1.
    rewrite (convertLatLngs_valid _ Hall). unfold ret at 1.
    destruct (Bounds.latLngBounds_nonempty p ps) as (sw & ne & Hb').
    unfold LatLng in *. rewrite Hb'.
    unfold map_fitBounds, after_fit, fit_outcome, fitBounds. simpl.
    destruct (finite_corners sw ne); reflexivity.
Qed.

Lemma flat_geographic (pds : list PathData) :
  Forall (fun pd => Forall geographic (coordinates pd)) pds ->
  Forall geographic (flat_map coordinates pds).
Proof.
  intros H. induction H as [|pd pds Hpd _ IH]; simpl; [constructor|].
  apply Forall_app. split; assumption.
Qed.

Lemma geographic_paths_valid (pds : list PathData) :
  Forall (fun pd => Forall geographic (coordinates pd)) pds ->
  Forall (fun pd => Forall valid (coordinates pd)) pds.
Proof.
  intros H. eapply Forall_impl; [exact H|]. intros pd Hpd.
  eapply Forall_impl; [exact Hpd | apply Bounds.geographic_valid].
Qed.

Lemma paths_outcome_geographic (pds : list PathData) :
  Forall (fun pd => Forall geographic (coordinates pd)) pds ->
  paths_outcome pds = Normal tt.
Proof.
  intros H. unfold paths_outcome.
  destruct (latLngBounds (flat_map coordinates pds)) as [[sw ne]|] eqn:E; [|reflexivity].
  unfold fit_outcome.
  rewrite (Bounds.latLngBounds_geographic _ sw ne (flat_geographic pds H) E). reflexivity.
Qed.

Lemma drawMultiplePaths_exec (pds : list PathData) (a b : number * number) (s : State) :
  Forall (fun pd => Forall geographic (coordinates pd)) pds ->
  valid a -> valid b ->
  drawMultiplePaths pds a b s = (after_paths pds a b s, Normal tt).
Proof.
  intros Hpds Ha Hb.
  rewrite (drawMultiplePaths_run pds a b s (geographic_paths_valid pds Hpds) Ha Hb).
  rewrite (paths_outcome_geographic pds Hpds). reflexivity.
Qed.

(** *** Renders that throw *)

Lemma convertLatLngs_first_refused (good : list (value * value)) (bad : value * value)
    (rest : list (value * value)) (msg : string) :
  Forall (fun p => exists q, toLatLng p = Normal q) good ->
  toLatLng bad = Throw msg ->
  convertLatLngs (good ++ bad :: rest) = Throw msg.
Proof.
  intros Hgood Hbad. induction Hgood as [|p good [q Hp] _ IH]; cbn -[toLatLng].
  - rewrite Hbad. reflexivity.
  - rewrite Hp, IH. reflexivity.
Qed.

Lemma convertLatLngs_accepted (l : list (value * value)) (ps : list LatLng) :
  convertLatLngs l = Normal ps -> Forall valid ps.
Proof.
  revert ps. induction l as [|[lat lng] l IH]; intros ps H; cbn -[toLatLng] in H.
  - injection H as <-. constructor.
  - destruct (toLatLng (lat, lng)) as [q|] eqn:Hq; [|discriminate].
    destruct (convertLatLngs l) as [qs|]; [|discriminate].
    injection H as <-. constructor; [|apply IH; reflexivity].
    unfold toLatLng in Hq.
    destruct (isNaN (ToNumber lat) || isNaN (ToNumber lng)) eqn:E; [discriminate|].
    injection Hq as <-. apply orb_false_iff in E. exact E.
Qed.

Lemma drawRoute_throws (path : list string) (a b : number * number) (s : State)
    (msg : string) :
  convertLatLngs (List.map decode path) = Throw msg ->
  drawRoute path a b s = (after_clear s, Throw msg).
Proof.
  intros H. unfold drawRoute, bind at 1.
  rewrite clearAllRoutes_exec. fold (after_clear s).
  unfold L_polyline, bind at 1. unfold bind at 1. unfold lift at 1.
  rewrite H. reflexivity.
Qed.

Lemma drawRoute_empty_line (path : list string) (a b : number * number) (s : State) :
  convertLatLngs (List.map decode path) = Normal [] ->
  valid a -> valid b ->
  drawRoute path a b s = (after_empty_route a b s, Throw "Bounds are not valid.").
Proof.
  intros Hps Ha Hb. unfold drawRoute, bind at 1.
  rewrite clearAllRoutes_exec. fold (after_clear s).
  unfold L_polyline, bind at 1. unfold bind at 1. unfold lift at 1.
  rewrite Hps. unfold ret at 1.
  unfold bind at 1, map_addTo at 1. simpl.
  unfold bind at 1, modify at 1.
  unfold bind at 1. rewrite (addMarkers_exec a b _ Ha Hb).
  reflexivity.
Qed.

Lemma forEach_app {St A : Type} (f : A -> nat -> M St unit) (l1 l2 : list A) (i : nat)
    (s : St) :
  forEach f (l1 ++ l2) i s =
  match forEach f l1 i s with
  | (s', Normal _) => forEach f l2 (i + length l1) s'
  | (s', Throw msg) => (s', Throw msg)
  end.
Proof.
  revert i s. induction l1 as [|x l1 IH]; intros i s; simpl.
  - rewrite Nat.add_0_r. reflexivity.
  - unfold bind. destruct (f x i s) as [s' [[]|msg]]; [|reflexivity].
    rewrite IH. replace (S i + length l1)%nat with (i + S (length l1))%nat by lia.
    reflexivity.
Qed.

Lemma forEach_lines_refused (total : nat) (good : list PathData) (bad : PathData)
    (rest : list PathData) (index : nat) (s : State) (msg : string) :
  Forall (fun pd => Forall valid (coordinates pd)) good ->
  convertLatLngs (as_values (coordinates bad)) = Throw msg ->
  forEach (fun pathData index =>
    let style := path_style total index in
    let* layer := L_polyline (as_values (coordinates pathData)) style
      (Some (popupContent (color style) index pathData)) in
    let* r := map_addTo layer in
    modify (fun s => set_allRouteLayers (allRouteLayers s ++ [r]) s))
    (good ++ bad :: rest) index s =
  (after_lines total good index s, Throw msg).
Proof.
  intros Hgood Hbad. rewrite forEach_app.
  rewrite (forEach_lines_exec total good index s Hgood).
  simpl forEach. unfold bind at 1.
  unfold L_polyline, bind at 1. unfold bind at 1. unfold lift at 1.
  rewrite Hbad. reflexivity.
Qed.

Lemma drawMultiplePaths_throws (good : list PathData) (bad : PathData)
    (rest : list PathData) (a b : number * number) (s : State) (msg : string) :
  Forall (fun pd => Forall valid (coordinates pd)) good ->
  convertLatLngs (as_values (coordinates bad)) = Throw msg ->
  drawMultiplePaths (good ++ bad :: rest) a b s =
  (after_lines (length (good ++ bad :: rest)) good 0 (after_clear s), Throw msg).
Proof.
  intros Hgood Hbad. unfold drawMultiplePaths, bind at 1.
  rewrite clearAllRoutes_exec. fold (after_clear s).
  unfold bind at 1. rewrite (forEach_lines_refused _ _ _ _ _ _ msg Hgood Hbad).
  reflexivity.
Qed.

Lemma clearMap_exec (s : State) : clearMap s = (after_clearMap s, Normal tt).
Proof.
  unfold clearMap, bind at 1. rewrite clearAllRoutes_exec.
  destruct s as [m rl sm em al ts]. unfold after_clearMap. simpl.
  rewrite !remove_refs_app.
  destruct sm as [r1|], em as [r2|]; reflexivity.
Qed.

(** *** What a render that returns was given *)

Lemma addMarkers_returns (a b : number * number) (s s' : State) (u : unit) :
  addMarkers a b s = (s', Normal u) -> valid a /\ valid b.
Proof.
  destruct s as [m rl sm em al ts].
  unfold addMarkers, bind, gets, modify, L_marker, lift, map_removeLayer, map_addTo,
    ret, toLatLng, valid.
  simpl.
  destruct (isNaN (fst a)), (isNaN (snd a)), (isNaN (fst b)), (isNaN (snd b));
    destruct sm as [r1|], em as [r2|]; simpl; intros H; try discriminate H; auto.
Qed.

Lemma latLngBounds_none (ps : list LatLng) : latLngBounds ps = None -> ps = [].
Proof.
  destruct ps as [|p ps]; [reflexivity|]. intros H.
  destruct (Bounds.latLngBounds_nonempty p ps) as (sw & ne & E). congruence.
Qed.

Lemma drawRoute_returns (path : list string) (a b : number * number) (s s' : State)
    (u : unit) :
  drawRoute path a b s = (s', Normal u) ->
  exists ps sw ne,
    convertLatLngs (List.map decode path) = Normal ps /\
    latLngBounds ps = Some (sw, ne) /\ finite_corners sw ne = true /\
    valid a /\ valid b /\ s' = after_route ps a b sw ne s.
Proof.
  intros H.
  destruct (convertLatLngs (List.map decode path)) as [ps|msg] eqn:Hps.
  2:{ rewrite (drawRoute_throws path a b s msg Hps) in H. discriminate H. }
  assert (Hab : valid a /\ valid b).
  { revert H. unfold drawRoute, bind at 1.
    rewrite clearAllRoutes_exec. fold (after_clear s).
    unfold L_polyline, bind at 1. unfold bind at 1. unfold lift at 1.
    rewrite Hps. unfold ret at 1.
    unfold bind at 1, map_addTo at 1. simpl.
    unfold bind at 1, modify at 1.
    unfold bind at 1.
    match goal with
    | |- context [addMarkers a b ?s0] =>
        destruct (addMarkers a b s0) as [s2 [[]|m2]] eqn:Em
    end; [|discriminate].
    intros _. exact (addMarkers_returns a b _ _ _ Em). }
  destruct Hab as [Ha Hb].
  destruct (latLngBounds ps) as [[sw ne]|] eqn:Hbounds.
  - rewrite (drawRoute_run path a b ps sw ne s Hps Hbounds Ha Hb) in H.
    unfold fit_outcome in H. destruct (finite_corners sw ne) eqn:Hfin; [|discriminate H].
    injection H as <-. exists ps, sw, ne. auto 10.
  - apply latLngBounds_none in Hbounds. subst ps.
    rewrite (drawRoute_empty_line path a b s Hps Ha Hb) in H. discriminate H.
Qed.

Lemma as_values_accepted (ps : list (number * number)) (qs : list LatLng) :
  convertLatLngs (as_values ps) = Normal qs -> Forall valid ps.
Proof.
  revert qs. induction ps as [|p ps IH]; intros qs H; [constructor|].
  cbn -[toLatLng] in H.
  destruct (toLatLng (Num (fst p), Num (snd p))) as [q|] eqn:Hq; [|discriminate].
  destruct (convertLatLngs (List.map (fun p => (Num (fst p), Num (snd p))) ps)) as [qs'|] eqn:E;
    [|discriminate].
  constructor; [|apply (IH qs'); exact E].
  unfold toLatLng in Hq. simpl in Hq.
  destruct (isNaN (fst p) || isNaN (snd p)) eqn:En; [discriminate|].
  apply orb_false_iff in En. exact En.
Qed.

Lemma forEach_lines_returns (total : nat) (pds : list PathData) (index : nat)
    (s s' : State) (u : unit) :
  forEach (fun pathData index =>
    let style := path_style total index in
    let* layer := L_polyline (as_values (coordinates pathData)) style
      (Some (popupContent (color style) index pathData)) in
    let* r := map_addTo layer in
    modify (fun s => set_allRouteLayers (allRouteLayers s ++ [r]) s)) pds index s =
  (s', Normal u) ->
  Forall (fun pd => Forall valid (coordinates pd)) pds.
Proof.
  revert index s. induction pds as [|pd pds IH]; intros index s H; [constructor|].
  simpl forEach in H. unfold bind at 1 in H.
  unfold L_polyline, bind at 1 in H. unfold bind at 1 in H. unfold lift at 1 in H.
  destruct (convertLatLngs (as_values (coordinates pd))) as [qs|] eqn:E; [|discriminate H].
  unfold ret at 1 in H. unfold bind at 1, map_addTo at 1 in H. simpl in H.
  unfold modify at 1 in H.
  constructor; [exact (as_values_accepted _ _ E) | exact (IH _ _ H)].
Qed.

Lemma drawMultiplePaths_returns (pds : list PathData) (a b : number * number)
    (s s' : State) (u : unit) :
  drawMultiplePaths pds a b s = (s', Normal u) ->
  Forall (fun pd => Forall valid (coordinates pd)) pds /\ valid a /\ valid b /\
  s' = after_paths pds a b s /\ paths_outcome pds = Normal tt.
Proof.
  intros H.
  assert (H0 : Forall (fun pd => Forall valid (coordinates pd)) pds /\ valid a /\ valid b).
  { revert H. unfold drawMultiplePaths, bind at 1.
    rewrite clearAllRoutes_exec. fold (after_clear s).
    unfold bind at 1.
    match goal with
    | |- context [forEach ?f pds 0%nat ?s0] =>
        destruct (forEach f pds 0%nat s0) as [s1 [[]|m1]] eqn:Ef
    end; [|discriminate].
    unfold bind at 1.
    destruct (addMarkers a b s1) as [s2 [[]|m2]] eqn:Em; [|discriminate].
    intros _. split; [exact (forEach_lines_returns _ _ _ _ _ _ Ef)|].
    exact (addMarkers_returns a b _ _ _ Em). }
  destruct H0 as (Hpds & Ha & Hb).
  rewrite (drawMultiplePaths_run pds a b s Hpds Ha Hb) in H.
  injection H as <- E. destruct u.
  split; [exact Hpds|]. split; [exact Ha|]. split; [exact Hb|].
  split; [reflexivity | exact E].
Qed.

(** *** The calls of a render *)

Lemma after_markers_calls (a b : number * number) (s : State) :
  let n := lastId (map s) in
  calls (map (after_markers a b s)) =
  calls (map s) ++ removals (option_list (startMarker s) ++ option_list (endMarker s)) ++
  [AddLayer (S n); AddLayer (S (S n))].
Proof.
  destruct s as [m rl sm em al ts]. unfold after_markers, removals. simpl.
  rewrite !remove_refs_calls, !remove_refs_lastId. simpl.
  rewrite <- !app_assoc. reflexivity.
Qed.

Lemma after_lines_calls (t : nat) (pds : list PathData) (i : nat) (s : State) :
  calls (map (after_lines t pds i s)) =
  calls (map s) ++ (AddLayer <$> seq (S (lastId (map s))) (length pds)).
Proof.
  revert i s. induction pds as [|pd pds IH]; intros i s; simpl.
  - rewrite app_nil_r. reflexivity.
  - rewrite IH. simpl. rewrite <- app_assoc. reflexivity.
Qed.

Lemma after_fit_calls (sw ne : LatLng) (s : State) :
  calls (map (after_fit sw ne s)) = calls (map s) ++ [FitBounds sw ne].
Proof. unfold after_fit, fitBounds. destruct (finite_corners sw ne); reflexivity. Qed.

Ltac refs_hyps :=
  simpl in *;
  repeat match goal with
  | H : Forall _ (_ ++ _) |- _ => apply Forall_app in H as [? ?]
  | H : Forall _ (_ :: _) |- _ => apply Forall_cons in H as [? ?]
  end; simpl in *.

Ltac lookup_goal :=
  simpl;
  repeat first
    [ rewrite lookup_insert_eq
    | rewrite lookup_insert_ne by lia
    | rewrite lookup_delete_ne by lia ];
  try reflexivity.

Lemma not_in_refs (id n : nat) (rs : list Ref) :
  Forall (fun r : Ref => (fst r <= n)%nat) rs -> (n < id)%nat -> id ∉ (fst <$> rs).
Proof.
  intros H Hlt Hin. apply list_elem_of_fmap in Hin as (r & -> & Hr).
  rewrite Forall_forall in H. specialize (H r Hr). lia.
Qed.

Lemma in_handles (id : nat) (al : list Ref) (rl : option Ref) :
  id ∈ (fst <$> al) ++ option_list (fst <$> rl) -> id ∈ (fst <$> (al ++ option_list rl)).
Proof. rewrite fmap_app. destruct rl; auto. Qed.

Lemma after_route_overlays (n0 : nat) (ps : list LatLng) (a b : number * number)
    (sw ne : LatLng) (s : State) :
  tracked_from n0 s ->
  let s' := after_route ps a b sw ne s in
  let n := lastId (map s) in
  only_line s' (S n) (route_line ps) /\
  only_marker startIcon s' (S (S n)) (start_marker a) /\
  only_marker endIcon s' (S (S (S n))) (end_marker b) /\
  (finite_corners sw ne = true -> fitted (map s') = Some (sw, ne)) /\
  disposed s s'.
Proof.
  intros Hs. open_state s Hs. refs_hyps.
  unfold after_route, after_clear, after_markers, after_fit, only_line, only_marker,
    disposed, on_map, fitBounds.
  destruct (finite_corners sw ne);
  destruct sm as [r1|], em as [r2|]; simpl; rewrite !remove_refs_lastId; simpl;
    refs_hyps.
  all: repeat split.
  all: try discriminate.
  all: try solve [ lookup_goal; apply remove_refs_lookup; split;
                   [apply not_in_refs with (lastId m); [refs_goal | lia] | ] ].
  all: try solve [ lookup_goal ].
  all: try solve [ intros id' l' Hon Hp; on_map_cases Hon; finish;
                   exfalso; eauto using in_handles ].
  all: intros id l Hon Hp; apply eq_None_not_Some; intros [l0 E]; on_map_cases E.
  all: try solve [ use_tracked; lia ].
  all: assert (l0 = l) by congruence; subst l0.
  all: destruct Hp as [Hp|[Hp|Hp]]; finish; exfalso; eauto using in_handles.
Qed.

Lemma after_route_calls (ps : list LatLng) (a b : number * number) (sw ne : LatLng)
    (s : State) :
  let n := lastId (map s) in
  calls (map (after_route ps a b sw ne s)) =
  calls (map s) ++ removals (allRouteLayers s ++ option_list (routeLayer s)) ++
  [AddLayer (S n)] ++
  removals (option_list (startMarker s) ++ option_list (endMarker s)) ++
  [AddLayer (S (S n)); AddLayer (S (S (S n))); FitBounds sw ne].
Proof.
  destruct s as [m rl sm em al ts].
  unfold after_route, after_clear, after_markers, after_fit, removals, fitBounds.
  destruct (finite_corners sw ne); simpl;
    rewrite !remove_refs_calls, !remove_refs_lastId; simpl;
    rewrite <- !app_assoc; reflexivity.
Qed.

(** *** The lines of [drawMultiplePaths] *)

Lemma after_lines_frame (t : nat) (pds : list PathData) (i : nat) (s : State) :
  let s' := after_lines t pds i s in
  routeLayer s' = routeLayer s /\ startMarker s' = startMarker s /\
  endMarker s' = endMarker s /\ timers s' = timers s /\
  fitted (map s') = fitted (map s) /\
  lastId (map s') = (lastId (map s) + length pds)%nat.
Proof.
  revert i s. induction pds as [|pd pds IH]; intros i s; simpl.
  - repeat split; lia.
  - match goal with
    | |- context [after_lines t pds ?j ?s0] =>
        destruct (IH j s0) as (H1 & H2 & H3 & H4 & H5 & H6)
    end.
    rewrite H1, H2, H3, H4, H5, H6. simpl. repeat split; lia.
Qed.

Lemma after_lines_old (t : nat) (pds : list PathData) (i : nat) (s : State)
    (id : nat) (l : Layer) :
  on_map s id l -> (id <= lastId (map s))%nat -> on_map (after_lines t pds i s) id l.
Proof.
  revert i s. induction pds as [|pd pds IH]; intros i s Hon Hle; simpl; [exact Hon|].
  apply IH; unfold on_map in *; simpl; [|lia].
  rewrite lookup_insert_ne by lia. exact Hon.
Qed.

Lemma after_lines_new (t : nat) (pds : list PathData) (i : nat) (s : State)
    (j : nat) (pd : PathData) :
  pds !! j = Some pd ->
  on_map (after_lines t pds i s) (lastId (map s) + S j) (path_line t (i + j) pd).
Proof.
  revert i s j. induction pds as [|pd0 pds IH]; intros i s j Hj; [discriminate|].
  simpl. destruct j as [|j]; simpl in Hj.
  - injection Hj as ->. apply after_lines_old; unfold on_map; simpl; [|lia].
    replace (lastId (map s) + 1)%nat with (S (lastId (map s))) by lia.
    replace (i + 0)%nat with i by lia. apply lookup_insert_eq.
  - match goal with
    | |- context [after_lines t pds ?k ?s0] => specialize (IH k s0 j Hj)
    end.
    simpl in IH.
    replace (lastId (map s) + S (S j))%nat with (S (lastId (map s) + S j)) by lia.
    replace (i + S j)%nat with (S (i + j)) by lia. exact IH.
Qed.

Lemma after_lines_only (t : nat) (pds : list PathData) (i : nat) (s : State)
    (id : nat) (l : Layer) :
  on_map (after_lines t pds i s) id l ->
  (exists j pd, pds !! j = Some pd /\ id = (lastId (map s) + S j)%nat /\
                l = path_line t (i + j) pd) \/
  on_map s id l.
Proof.
  revert i s. induction pds as [|pd0 pds IH]; intros i s Hon; simpl in Hon; [right; exact Hon|].
  apply IH in Hon as [(j & pd & Hj & -> & ->)|Hon].
  - left. exists (S j), pd. simpl. repeat split; [exact Hj | lia | f_equal; lia].
  - unfold on_map in Hon. simpl in Hon.
    apply lookup_insert_Some in Hon as [[<- <-]|[_ Hon]].
    + left. exists 0%nat, pd0. simpl. repeat split; [lia | f_equal; lia].
    + right. exact Hon.
Qed.

Lemma after_markers_only (a b : number * number) (s : State) (id : nat) (l : Layer) :
  on_map (after_markers a b s) id l ->
  (id = S (lastId (map s)) /\ l = start_marker a) \/
  (id = S (S (lastId (map s))) /\ l = end_marker b) \/
  ((id ∉ (fst <$> (option_list (startMarker s) ++ option_list (endMarker s)))) /\
   on_map s id l).
Proof.
  unfold after_markers, on_map. simpl. rewrite !remove_refs_lastId. intros H.
  on_map_cases H; auto.
Qed.

Lemma after_markers_new (a b : number * number) (s : State) :
  let n := lastId (map s) in
  on_map (after_markers a b s) (S n) (start_marker a) /\
  on_map (after_markers a b s) (S (S n)) (end_marker b).
Proof.
  unfold after_markers, on_map. simpl. rewrite !remove_refs_lastId. split; lookup_goal.
Qed.

Lemma after_markers_old (a b : number * number) (s : State) (id : nat) (l : Layer) :
  on_map s id l -> (id <= lastId (map s))%nat ->
  id ∉ (fst <$> (option_list (startMarker s) ++ option_list (endMarker s))) ->
  on_map (after_markers a b s) id l.
Proof.
  unfold after_markers, on_map. simpl. rewrite !remove_refs_lastId. intros H Hle Hnot.
  lookup_goal. apply remove_refs_lookup. auto.
Qed.

Lemma on_map_after_fit (sw ne : LatLng) (s : State) (id : nat) (l : Layer) :
  on_map (after_fit sw ne s) id l <-> on_map s id l.
Proof. unfold after_fit, fitBounds. destruct (finite_corners sw ne); reflexivity. Qed.

Lemma after_clear_tracked (n0 : nat) (s : State) :
  tracked_from n0 s -> tracked_from n0 (after_clear s) /\ no_lines (after_clear s).
Proof.
  intros Hs. pose proof (clearAllRoutes_tracked n0 s Hs) as H.
  rewrite clearAllRoutes_exec in H. exact H.
Qed.

Lemma after_clear_only (s : State) (id : nat) (l : Layer) :
  on_map (after_clear s) id l -> (id ∉ handles s) /\ on_map s id l.
Proof.
  unfold after_clear, on_map. simpl. intros H.
  apply remove_refs_lookup in H. rewrite fmap_fst_handles in H. exact H.
Qed.

Lemma icons_differ : startIcon <> endIcon.
Proof. unfold startIcon, endIcon. intros H. vm_compute in H. discriminate. Qed.

Lemma on_map_after_paths (pds : list PathData) (a b : number * number) (s : State)
    (id : nat) (l : Layer) :
  on_map (after_paths pds a b s) id l <->
  on_map (after_markers a b (after_lines (length pds) pds 0 (after_clear s))) id l.
Proof.
  unfold after_paths. destruct (latLngBounds (flat_map coordinates pds)) as [[sw ne]|];
    [apply on_map_after_fit | reflexivity].
Qed.

Lemma after_paths_overlays (n0 : nat) (pds : list PathData) (a b : number * number)
    (s : State) :
  tracked_from n0 s ->
  let s' := after_paths pds a b s in
  let n := lastId (map s) in
  let k := length pds in
  (forall j pd, pds !! j = Some pd -> on_map s' (n + S j) (path_line k j pd)) /\
  (forall id l, on_map s' id l -> is_line l ->
     exists j pd, pds !! j = Some pd /\ id = (n + S j)%nat /\ l = path_line k j pd) /\
  only_marker startIcon s' (S (n + k)) (start_marker a) /\
  only_marker endIcon s' (S (S (n + k))) (end_marker b) /\
  (forall sw ne, latLngBounds (flat_map coordinates pds) = Some (sw, ne) ->
     finite_corners sw ne = true -> fitted (map s') = Some (sw, ne)) /\
  disposed s s'.
Proof.
  intros Hs s' n k.
  destruct (after_clear_tracked n0 s Hs) as [Hs1 Hno1].
  set (s1 := after_clear s) in *.
  set (s2 := after_lines k pds 0 s1).
  destruct (after_lines_frame k pds 0 s1) as (Hrl2 & Hsm2 & Hem2 & _ & Hfit2 & Hid2).
  fold s2 in Hrl2, Hsm2, Hem2, Hfit2, Hid2.
  assert (Hn1 : lastId (map s1) = n).
  { unfold s1, after_clear. simpl. apply remove_refs_lastId. }
  assert (Hsm1 : startMarker s1 = startMarker s) by reflexivity.
  assert (Hem1 : endMarker s1 = endMarker s) by reflexivity.
  rewrite Hn1 in Hid2. fold k in Hid2.
  assert (Hold : forall id, (n < id)%nat ->
            id ∉ (fst <$> (option_list (startMarker s2) ++ option_list (endMarker s2)))).
  { intros id Hid. rewrite Hsm2, Hem2, Hsm1, Hem1.
    destruct Hs as (_ & Hrf & _). unfold refs_known in Hrf.
    rewrite !Forall_app in Hrf. destruct Hrf as (_ & _ & H3 & H4).
    apply not_in_refs with n; [apply Forall_app; split; assumption | exact Hid]. }
  assert (Hmarked : forall id l, on_map s2 id l ->
            has_icon startIcon l \/ has_icon endIcon l ->
            id ∈ (fst <$> (option_list (startMarker s2) ++ option_list (endMarker s2)))).
  { intros id l Hon Hp. apply after_lines_only in Hon as [(j & pd & _ & _ & ->)|Hon].
    - destruct Hp as [Hp|Hp]; contradiction.
    - rewrite Hsm2, Hem2. destruct Hs1 as ([_ Hst Hen _] & _).
      rewrite fmap_app, elem_of_app.
      destruct Hp as [Hp|Hp]; [left; specialize (Hst _ _ Hon Hp) | right; specialize (Hen _ _ Hon Hp)].
      + destruct (startMarker s1) as [r|]; [|discriminate]. injection Hst as <-. left.
      + destruct (endMarker s1) as [r|]; [|discriminate]. injection Hen as <-. left. }
  assert (Hcases : forall id l, on_map s' id l ->
            (id = S (n + k) /\ l = start_marker a) \/
            (id = S (S (n + k)) /\ l = end_marker b) \/
            (exists j pd, pds !! j = Some pd /\ id = (n + S j)%nat /\
                          l = path_line k j pd) \/
            ((~ is_line l /\ ~ has_icon startIcon l /\ ~ has_icon endIcon l) /\
             (id ∉ handles s) /\ on_map s id l)).
  { intros id l Hon. apply on_map_after_paths in Hon. fold k s1 s2 in Hon.
    apply after_markers_only in Hon as [[-> ->]|[[-> ->]|[Hnot Hon]]].
    - left. rewrite Hid2. auto.
    - right. left. rewrite Hid2. auto.
    - right. right.
      assert (Hkind : ~ has_icon startIcon l /\ ~ has_icon endIcon l).
      { split; intros Hp; apply Hnot; eapply Hmarked; eauto. }
      apply after_lines_only in Hon as [(j & pd & Hj & -> & ->)|Hon].
      + left. exists j, pd. rewrite Hn1. auto.
      + right. pose proof (Hno1 _ _ Hon) as Hnl.
        apply after_clear_only in Hon. tauto. }
  split; [|split; [|split; [|split; [|split]]]].
  - intros j pd Hj. apply on_map_after_paths. fold k s1 s2.
    pose proof (lookup_lt_Some _ _ _ Hj) as Hlt. fold k in Hlt.
    apply after_markers_old.
    + rewrite <- Hn1. replace j with (0 + j)%nat at 2 by lia.
      apply after_lines_new. exact Hj.
    + rewrite Hid2. lia.
    + apply Hold. lia.
  - intros id l Hon Hline.
    apply Hcases in Hon as [[-> ->]|[[-> ->]|[H|[[H _] _]]]];
      [contradiction | contradiction | exact H | contradiction].
  - split.
    + apply on_map_after_paths. fold k s1 s2. rewrite <- Hid2.
      apply after_markers_new.
    + intros id l Hon Hp.
      apply Hcases in Hon as [[-> ->]|[[-> ->]|[(j & pd & _ & _ & ->)|[[_ [H _]] _]]]];
        [reflexivity | | contradiction | contradiction].
      simpl in Hp. symmetry in Hp. destruct (icons_differ Hp).
  - split.
    + apply on_map_after_paths. fold k s1 s2. rewrite <- Hid2.
      apply after_markers_new.
    + intros id l Hon Hp.
      apply Hcases in Hon as [[-> ->]|[[-> ->]|[(j & pd & _ & _ & ->)|[[_ [_ H]] _]]]];
        [ | reflexivity | contradiction | contradiction].
      simpl in Hp. destruct (icons_differ Hp).
  - intros sw ne Hb Hfin. unfold s', after_paths. rewrite Hb.
    unfold after_fit, fitBounds. rewrite Hfin. reflexivity.
  - intros id l Hon Hp. apply eq_None_not_Some. intros [l0 Hon'].
    pose proof (tracked_fresh _ (proj1 Hs) _ _ Hon) as Hle. fold n in Hle.
    apply Hcases in Hon' as [[-> _]|[[-> _]|[(j & pd & _ & -> & _)|[Hk [_ Hon']]]]];
      try lia.
    assert (l0 = l) by (unfold on_map in *; congruence). subst l0. tauto.
Qed.

End Renders.

(** ** The page *)

Module Page.
Import JS Leaflet AppJs AppSpec Hoare.

Lemma on_surface_run {A : Type} (c : M MapJs.State A) (s : State) :
  on_surface c s = (set_surface (fst (c (surface s))) s, snd (c (surface s))).
Proof. unfold on_surface. destruct (c (surface s)); reflexivity. Qed.

Lemma keeps_bind {A B C : Type} (f : State -> C) (c : M State A) (k : A -> M State B) :
  keeps f c -> (forall a, keeps f (k a)) -> keeps f (bind c k).
Proof.
  intros Hc Hk s. unfold bind. specialize (Hc s).
  destruct (c s) as [s1 [a|msg]]; simpl in *; [|exact Hc].
  rewrite (Hk a s1). exact Hc.
Qed.

Lemma keeps_ret {A C : Type} (f : State -> C) (a : A) : keeps f (ret a).
Proof. intros s. reflexivity. Qed.

Lemma keeps_gets {A C : Type} (f : State -> C) (g : State -> A) : keeps f (gets g).
Proof. intros s. reflexivity. Qed.

Lemma keeps_on_surface {A C : Type} (f : State -> C) (c : M MapJs.State A) :
  (forall m s, f (set_surface m s) = f s) -> keeps f (on_surface c).
Proof. intros H s. rewrite on_surface_run. simpl. apply H. Qed.

Lemma keeps_modify {C : Type} (f : State -> C) (g : State -> State) :
  (forall s, f (g s) = f s) -> keeps f (modify g).
Proof. intros H s. simpl. apply H. Qed.

Ltac keeps_tac :=
  repeat first
    [ apply keeps_ret
    | apply keeps_gets
    | apply keeps_on_surface; intros; reflexivity
    | apply keeps_modify; intros; reflexivity
    | apply keeps_bind; [|intros ?]
    | match goal with
      | |- keeps _ (if ?b then _ else _) => destruct b
      | |- keeps _ (match ?x with _ => _ end) => destruct x
      end ].

Lemma setStatus_keeps {C : Type} (f : State -> C) (message type : string) :
  (forall a b s, f (set_statusDiv a b s) = f s) -> keeps f (setStatus message type).
Proof. intros H s. simpl. apply H. Qed.

Lemma click_callback_inflight (lat lon : number) :
  keeps (fun s => (inflight s, findRouteBtn s)) (click_callback lat lon).
Proof. unfold click_callback, setStatus. keeps_tac. Qed.

Lemma clearAll_inflight : keeps (fun s => (inflight s, findRouteBtn s)) clearAll.
Proof. unfold clearAll, setStatus. keeps_tac. Qed.

Lemma clearAll_selection :
  keeps (fun s => (clickMode s, startLatInput s, startLonInput s,
                   endLatInput s, endLonInput s)) clearAll.
Proof. unfold clearAll, setStatus. keeps_tac. Qed.

Lemma updateInfoPanel_keeps (data : Response) (algorithm : string) :
  keeps (fun s => (surface s, inflight s, statusDiv s, findRouteBtn s, clickMode s))
    (updateInfoPanel data algorithm).
Proof. unfold updateInfoPanel. keeps_tac. Qed.

Lemma findRoute_try_inflight (rq : Request) (data : option Response) :
  keeps inflight (findRoute_try rq data).
Proof. unfold findRoute_try, updateInfoPanel, setStatus, hideLoading. keeps_tac. Qed.

Lemma preserves_bind {A B : Type} (P : State -> Prop) (c : M State A) (k : A -> M State B) :
  preserves P c -> (forall a, preserves P (k a)) -> preserves P (bind c k).
Proof.
  intros Hc Hk s Hs. unfold bind. specialize (Hc s Hs).
  destruct (c s) as [s1 [a|msg]]; simpl in *; [|exact Hc].
  apply (Hk a s1 Hc).
Qed.

Lemma preserves_ret {A : Type} (P : State -> Prop) (a : A) : preserves P (ret a).
Proof. intros s Hs. exact Hs. Qed.

Lemma preserves_gets {A : Type} (P : State -> Prop) (g : State -> A) : preserves P (gets g).
Proof. intros s Hs. exact Hs. Qed.

Lemma preserves_modify (P : State -> Prop) (g : State -> State) :
  (forall s, P s -> P (g s)) -> preserves P (modify g).
Proof. intros H s Hs. simpl. auto. Qed.

Lemma preserves_on_surface {A : Type} (Q : MapJs.State -> Prop) (c : M MapJs.State A) :
  Spec.hoare Q c (fun _ => Q) Q -> preserves (fun s => Q (surface s)) (on_surface c).
Proof.
  intros H s Hs. rewrite on_surface_run. simpl. specialize (H _ Hs).
  destruct (c (surface s)) as [m [a|msg]]; exact H.
Qed.

Lemma tracked_weaken {A : Type} (c : M MapJs.State A) (Q : A -> MapJs.State -> Prop)
    (E : MapJs.State -> Prop) :
  Spec.hoare (Spec.tracked_from 0) c Q E ->
  (forall a s, Q a s -> Spec.tracked_from 0 s) ->
  (forall s, E s -> Spec.tracked_from 0 s) ->
  Spec.hoare (Spec.tracked_from 0) c (fun _ => Spec.tracked_from 0) (Spec.tracked_from 0).
Proof. intros H HQ HE. eapply hoare_conseq; [exact H | auto | exact HQ | exact HE]. Qed.

Ltac surface_tac :=
  repeat first
    [ apply preserves_ret
    | apply preserves_gets
    | apply preserves_modify; intros ? Hm; exact Hm
    | apply preserves_bind; [|intros ?]
    | match goal with
      | |- preserves _ (if ?b then _ else _) => destruct b
      | |- preserves _ (match ?x with _ => _ end) => destruct x
      end ].

Lemma drawRoute_surface (path : list string) (a b : number * number) :
  preserves surface_tracked (on_surface (MapJs.drawRoute path a b)).
Proof.
  apply (preserves_on_surface (Spec.tracked_from 0)).
  eapply tracked_weaken; [apply Overlays.drawRoute_tracked | | auto].
  intros u s [H _]. exact H.
Qed.

Lemma drawMultiplePaths_surface (pds : list MapJs.PathData) (a b : number * number) :
  preserves surface_tracked (on_surface (MapJs.drawMultiplePaths pds a b)).
Proof.
  apply (preserves_on_surface (Spec.tracked_from 0)).
  eapply tracked_weaken; [apply Overlays.drawMultiplePaths_tracked | | auto].
  intros u s [H _]. exact H.
Qed.

Lemma clearMap_surface : preserves surface_tracked (on_surface MapJs.clearMap).
Proof.
  apply (preserves_on_surface (Spec.tracked_from 0)).
  eapply tracked_weaken; [apply Overlays.clearMap_tracked | | contradiction].
  intros u s [H _]. exact H.
Qed.

Lemma showTemporaryMarker_surface (lat lon : number) (text : string) :
  preserves surface_tracked (on_surface (MapJs.showTemporaryMarker lat lon text)).
Proof.
  apply (preserves_on_surface (Spec.tracked_from 0)).
  apply Overlays.showTemporaryMarker_tracked.
Qed.

Lemma timer_fires_surface (i : nat) :
  preserves surface_tracked (on_surface (MapJs.timer_fires i)).
Proof.
  apply (preserves_on_surface (Spec.tracked_from 0)).
  apply Overlays.timer_fires_tracked.
Qed.

Lemma findRoute_try_surface (rq : Request) (data : option Response) :
  preserves surface_tracked (findRoute_try rq data).
Proof.
  unfold findRoute_try, updateInfoPanel, setStatus, hideLoading.
  surface_tac; first [apply drawRoute_surface | apply drawMultiplePaths_surface].
Qed.

Lemma findRoute_resume_surface (rq : Request) (outcome : Settled) :
  preserves surface_tracked (findRoute_resume rq outcome).
Proof.
  intros s Hs. unfold findRoute_resume.
  destruct outcome as [data|message].
  - pose proof (findRoute_try_surface rq data s Hs) as H.
    destruct (findRoute_try rq data s) as [s1 [u|msg]]; simpl in *; exact H.
  - simpl. exact Hs.
Qed.

Lemma findRoute_resume_inflight (rq : Request) (outcome : Settled) :
  keeps inflight (findRoute_resume rq outcome).
Proof.
  intros s. unfold findRoute_resume.
  destruct outcome as [data|message].
  - pose proof (findRoute_try_inflight rq data s) as H.
    destruct (findRoute_try rq data s) as [s1 [u|msg]]; simpl in *; exact H.
  - reflexivity.
Qed.

Lemma click_callback_surface (lat lon : number) :
  preserves surface_tracked (click_callback lat lon).
Proof.
  unfold click_callback, setStatus. surface_tac; apply showTemporaryMarker_surface.
Qed.

Lemma clearAll_surface : preserves surface_tracked clearAll.
Proof. unfold clearAll, setStatus. surface_tac. apply clearMap_surface. Qed.

Lemma findRoute_begin_ok : preserves app_ok findRoute_begin.
Proof.
  intros s [Hs Hrq]. unfold findRoute_begin, bind, gets, showLoading, setStatus, modify.
  simpl.
  destruct (isNaN (parseFloat (startLatInput s))) eqn:E1; simpl; [split; assumption|].
  destruct (isNaN (parseFloat (startLonInput s))) eqn:E2; simpl; [split; assumption|].
  destruct (isNaN (parseFloat (endLatInput s))) eqn:E3; simpl; [split; assumption|].
  destruct (isNaN (parseFloat (endLonInput s))) eqn:E4; simpl; [split; assumption|].
  split; [exact Hs|]. apply Forall_app. split; [exact Hrq|].
  constructor; [|constructor]. repeat split; assumption.
Qed.

(** Every listener takes a sound page to a sound page. *)
Lemma handler_ok (e : Event) : preserves app_ok (handler e).
Proof.
  intros s [Hs Hrq].
  destruct e as [latlng| | |key|field text|value|i outcome|i|isHealthy|stats]; simpl.
  - split.
    + apply (click_callback_surface _ _ s Hs).
    + pose proof (click_callback_inflight (parseFloat (toFixed latlng.1 4))
                    (parseFloat (toFixed latlng.2 4)) s) as H.
      simpl in H. unfold MapJs.onMapClick. injection H as H _. rewrite H. exact Hrq.
  - unfold bind, gets. simpl. destruct (findRouteBtn s); [split; assumption|].
    apply findRoute_begin_ok. split; assumption.
  - split.
    + apply (clearAll_surface s Hs).
    + pose proof (clearAll_inflight s) as H. simpl in H. injection H as H _.
      rewrite H. exact Hrq.
  - destruct (String.eqb key "Enter"); [|split; assumption].
    apply findRoute_begin_ok. split; assumption.
  - destruct field; split; assumption.
  - split; assumption.
  - unfold bind, gets. simpl. destruct (inflight s !! i) as [rq|] eqn:E; [|split; assumption].
    simpl. split.
    + apply findRoute_resume_surface. exact Hs.
    + rewrite findRoute_resume_inflight. simpl.
      apply Forall_app. split; [apply Forall_take | apply Forall_drop]; exact Hrq.
  - split.
    + apply (timer_fires_surface i s Hs).
    + rewrite on_surface_run. simpl. exact Hrq.
  - unfold bind, gets, init_health. simpl.
    destruct (stage s); [destruct isHealthy| |]; simpl; split; assumption.
  - unfold bind, gets, init_stats. simpl.
    destruct (stage s); [|destruct stats as [[[[[x1 x2] x3] x4]|]|]|]; simpl;
      split; assumption.
Qed.

Lemma loaded_ok (html : State) : app_ok (loaded html).
Proof. split; [apply Overlays.initial_tracked | constructor]. Qed.

Lemma run_ok (s : State) (es : list Event) : app_ok s -> app_ok (run s es).
Proof.
  revert s. induction es as [|e es IH]; intros s Hs; simpl; [exact Hs|].
  apply IH. apply handler_ok. exact Hs.
Qed.

End Page.

(** ** Node identifiers on their way to the map *)

Module Identifiers.
Import JS Leaflet MapJs Spec Further Renders NodeId.

Lemma decodes_all (good : list string) :
  Forall decodes good ->
  Forall (fun p => exists q, toLatLng p = Normal q) (List.map decode good).
Proof.
  intros H. apply Forall_forall. intros p Hp.
  apply list_elem_of_In, in_map_iff in Hp as (x & <- & Hx).
  rewrite Forall_forall in H. apply H, list_elem_of_In, Hx.
Qed.

(** C1, as the code has it. ["47.9210_106.9270"] decodes to the numbers
    47.9210 and 106.9270, and Leaflet takes the pair. [decode] itself never
    fails: it cuts the identifier at every separator, converts the first
    two pieces with [Number] and drops the others; the failure is that of
    [L.LatLng], which throws when a coordinate is NaN. So an identifier
    without separator is refused, its second coordinate being
    [undefined]; an identifier with a separator is refused when [Number]
    gives NaN for its first or for its second piece, and taken as the pair
    of their numbers otherwise, whatever comes after a second separator;
    and [Number] gives NaN exactly for the pieces that are not numeric
    strings. Every identifier is of one of the two kinds. With the first
    refused identifier of its path [drawRoute] fails: it throws the error
    of [L.LatLng] once the lines of before are cleared, and draws
    nothing. *)
Theorem decode_keeps_first_two :
  toLatLng (decode "47.9210_106.9270") = Normal (lit 479210 (-4), lit 1069270 (-4)) /\
  (forall id, separators id = 0%nat ->
     toLatLng (decode id) = Throw (invalid_LatLng (toString (Number id)) "undefined")) /\
  (forall id a b, pieces id a b ->
     toLatLng (decode id) =
     if isNaN (Number a) || isNaN (Number b)
     then Throw (invalid_LatLng (toString (Number a)) (toString (Number b)))
     else Normal (Number a, Number b)) /\
  (forall piece, isNaN (Number piece) = false <-> numeric piece) /\
  (forall id, (0 < separators id)%nat -> exists a b, pieces id a b) /\
  (forall good bad rest message startCoord endCoord s,
     Forall decodes good -> toLatLng (decode bad) = Throw message ->
     drawRoute (good ++ bad :: rest) startCoord endCoord s =
     (after_clear s, Throw message)).
Proof.
  split; [vm_compute; reflexivity|].
  split; [|split; [|split; [|split]]].
  - intros id H. rewrite (decode_no_separator id H). unfold toLatLng. simpl ToNumber.
    rewrite orb_true_r. reflexivity.
  - intros id a b H. rewrite (decode_pieces id a b H). reflexivity.
  - apply Literals.Number_numeric.
  - apply pieces_exist.
  - intros good bad rest message a b s Hgood Hbad.
    apply drawRoute_throws. rewrite map_app. simpl.
    apply convertLatLngs_first_refused; [apply decodes_all, Hgood | exact Hbad].
Qed.

Lemma decode_keeps_first_two_witness :
  (separators "12.5" = 0%nat /\
   toLatLng (decode "12.5") = Throw "Invalid LatLng object: (12.5, undefined)") /\
  (pieces "47.93_abc" "47.93" "abc" /\
   toLatLng (decode "47.93_abc") = Throw "Invalid LatLng object: (47.93, NaN)") /\
  (pieces "1_2_3" "1" "2" /\ toLatLng (decode "1_2_3") = Normal (lit 1 0, lit 2 0)) /\
  ~ numeric "abc" /\
  (Forall decodes ["47.92_106.92"] /\
   drawRoute ["47.92_106.92"; "47.93_abc"; "47.94_106.94"] (lit 1 0, lit 2 0) (lit 3 0, lit 4 0)
     initial =
   (after_clear initial, Throw "Invalid LatLng object: (47.93, NaN)")).
Proof.
  destruct decode_keeps_first_two as (_ & H0 & H1 & H2 & _ & H4).
  assert (P1 : pieces "47.93_abc" "47.93" "abc").
  { split; [reflexivity|]. split; [reflexivity|]. left. reflexivity. }
  assert (P2 : pieces "1_2_3" "1" "2").
  { split; [reflexivity|]. split; [reflexivity|]. right. exists "3". reflexivity. }
  assert (Hbad : toLatLng (decode "47.93_abc") = Throw "Invalid LatLng object: (47.93, NaN)").
  { rewrite (H1 _ _ _ P1). vm_compute. reflexivity. }
  assert (Hgood : Forall decodes ["47.92_106.92"]).
  { constructor; [|constructor]. eexists. vm_compute. reflexivity. }
  split; [split; [reflexivity|]|].
  { rewrite (H0 "12.5" eq_refl). vm_compute. reflexivity. }
  split; [split; [exact P1 | exact Hbad]|].
  split; [split; [exact P2|]|].
  { rewrite (H1 _ _ _ P2). vm_compute. reflexivity. }
  split.
  { intros H. apply H2 in H. vm_compute in H. discriminate H. }
  split; [exact Hgood|].
  exact (H4 ["47.92_106.92"] "47.93_abc" ["47.94_106.94"] _ (lit 1 0, lit 2 0)
           (lit 3 0, lit 4 0) initial Hgood Hbad).
Defined.

(** C1 as stated fails: ["1_2_3"] holds two separators, and yet it decodes
    to the pair (1, 2), which Leaflet takes as a coordinate. *)
Lemma decode_two_separators_is_a_pair :
  separators "1_2_3" = 2%nat /\
  decode "1_2_3" = (Num (lit 1 0), Num (lit 2 0)) /\
  toLatLng (decode "1_2_3") = Normal (lit 1 0, lit 2 0).
Proof. vm_compute. repeat split; reflexivity. Qed.

(** Nor is every piece that is taken a decimal number: an empty piece
    counts as 0, a hexadecimal literal as its value, and white space
    around a number is dropped, also the no-break space. *)
Lemma decode_takes_other_pieces :
  toLatLng (decode "_") = Normal (lit 0 0, lit 0 0) /\
  toLatLng (decode "0x10_") = Normal (lit 16 0, lit 0 0) /\
  toLatLng (decode (bytes [194; 160]%nat ++ "47.5_106.5 ")) = Normal (lit 475 (-1), lit 1065 (-1)) /\
  toLatLng (decode "1e3_Infinity") = Normal (lit 1000 0, S754_infinity false).
Proof. vm_compute. repeat split; reflexivity. Qed.

End Identifiers.

(** ** Markers and clearing *)

Module Markers.
Import JS Leaflet MapJs Spec Further Hoare Overlays Renders.

Lemma after_markers_refs (a b : number * number) (s : State) :
  let n := lastId (map s) in
  startMarker (after_markers a b s) = Some (S n, start_marker a) /\
  endMarker (after_markers a b s) = Some (S (S n), end_marker b).
Proof.
  destruct s as [m rl sm em al ts]. unfold after_markers. simpl.
  rewrite !remove_refs_lastId. split; reflexivity.
Qed.

Lemma not_in_removals (c : nat) (rs : list Ref) : AddLayer c ∉ removals rs.
Proof.
  unfold removals. intros H. apply list_elem_of_fmap in H as (r & Hr & _). discriminate.
Qed.

Lemma not_in_added (c n k : nat) :
  (n + k < c)%nat -> AddLayer c ∉ (AddLayer <$> seq (S n) k).
Proof.
  intros Hc H. apply list_elem_of_fmap in H as (i & Hi & Hin).
  injection Hi as ->. apply list_elem_of_In, in_seq in Hin. lia.
Qed.

(** A [drawRoute] that returns has replaced the markers. *)
Lemma drawRoute_replaces (path : list string) (a b : number * number) (s s' : State)
    (u : unit) :
  tracked_from 0 s -> drawRoute path a b s = (s', Normal u) -> markers_replaced a b s s'.
Proof.
  intros Hs H.
  destruct (drawRoute_returns path a b s s' u H) as (ps & sw & ne & _ & _ & _ & _ & _ & ->).
  destruct (after_route_overlays 0 ps a b sw ne s Hs) as (_ & H2 & H3 & _ & _).
  exists (S (lastId (map s))),
    (removals (allRouteLayers s ++ option_list (routeLayer s)) ++
     [AddLayer (S (lastId (map s)))]),
    [FitBounds sw ne].
  split; [lia|]. split; [exact H2|]. split; [exact H3|].
  split; [|split; [|split; [|split]]].
  - unfold after_route, after_fit. simpl.
    destruct s as [m rl sm em al ts]. unfold after_markers. simpl.
    rewrite !remove_refs_lastId. reflexivity.
  - unfold after_route, after_fit. simpl.
    destruct s as [m rl sm em al ts]. unfold after_markers. simpl.
    rewrite !remove_refs_lastId. reflexivity.
  - rewrite after_route_calls. rewrite <- !app_assoc. reflexivity.
  - rewrite not_elem_of_app. split; [apply not_in_removals|].
    intros Hin. apply list_elem_of_singleton in Hin. injection Hin. lia.
  - rewrite not_elem_of_app. split; [apply not_in_removals|].
    intros Hin. apply list_elem_of_singleton in Hin. injection Hin. lia.
Qed.

(** A [drawMultiplePaths] that returns has replaced the markers. *)
Lemma drawMultiplePaths_replaces (pds : list PathData) (a b : number * number)
    (s s' : State) (u : unit) :
  tracked_from 0 s -> drawMultiplePaths pds a b s = (s', Normal u) ->
  markers_replaced a b s s'.
Proof.
  intros Hs H.
  destruct (drawMultiplePaths_returns pds a b s s' u H) as (_ & _ & _ & -> & _).
  destruct (after_paths_overlays 0 pds a b s Hs) as (_ & _ & H3 & H4 & _ & _).
  set (n := lastId (map s)) in *. set (k := length pds) in *.
  set (s2 := after_lines k pds 0 (after_clear s)).
  destruct (after_lines_frame k pds 0 (after_clear s)) as (_ & F2 & F3 & _ & _ & F6).
  fold s2 in F2, F3, F6.
  assert (Hn2 : lastId (map s2) = (n + k)%nat).
  { rewrite F6. unfold after_clear. simpl. rewrite remove_refs_lastId. reflexivity. }
  destruct (after_markers_refs a b s2) as [R1 R2]. rewrite Hn2 in R1, R2.
  assert (Hc : calls (map (after_markers a b s2)) =
            calls (map s) ++
            (removals (allRouteLayers s ++ option_list (routeLayer s)) ++
             (AddLayer <$> seq (S n) k)) ++
            removals (option_list (startMarker s) ++ option_list (endMarker s)) ++
            [AddLayer (S (n + k)); AddLayer (S (S (n + k)))]).
  { rewrite after_markers_calls, Hn2, F2, F3. unfold s2.
    rewrite after_lines_calls. unfold after_clear. simpl.
    rewrite remove_refs_calls, remove_refs_lastId. fold n.
    unfold removals. rewrite <- !app_assoc. reflexivity. }
  exists (n + k)%nat,
    (removals (allRouteLayers s ++ option_list (routeLayer s)) ++ (AddLayer <$> seq (S n) k)),
    (match latLngBounds (flat_map coordinates pds) with
     | Some (sw, ne) => [FitBounds sw ne]
     | None => []
     end).
  split; [lia|]. split; [exact H3|]. split; [exact H4|].
  unfold after_paths. fold k s2.
  split; [|split; [|split; [|split]]].
  - destruct (latLngBounds (flat_map coordinates pds)) as [[sw ne]|]; exact R1.
  - destruct (latLngBounds (flat_map coordinates pds)) as [[sw ne]|]; exact R2.
  - destruct (latLngBounds (flat_map coordinates pds)) as [[sw ne]|].
    + rewrite after_fit_calls, Hc. rewrite <- !app_assoc. reflexivity.
    + rewrite Hc. rewrite <- !app_assoc. reflexivity.
  - rewrite not_elem_of_app. split; [apply not_in_removals | apply not_in_added; lia].
  - rewrite not_elem_of_app. split; [apply not_in_removals | apply not_in_added; lia].
Qed.

(** [clearMap] returns, and has cleared the markers. *)
Lemma clearMap_clears (s : State) :
  tracked_from 0 s -> snd (clearMap s) = Normal tt /\ markers_cleared s (fst (clearMap s)).
Proof.
  intros Hs. pose proof (clearMap_tracked 0 s Hs) as H.
  rewrite clearMap_exec in *. simpl.
  destruct H as (_ & _ & H1 & H2 & H3 & H4 & _).
  split; [reflexivity|]. split; [exact H1|]. split; [exact H2|].
  split; [exact H3|]. split; [exact H4|].
  unfold after_clearMap. simpl. rewrite remove_refs_calls. unfold removals.
  rewrite !fmap_app, <- !app_assoc. reflexivity.
Qed.

(** C9. After any sequence of [drawRoute], [drawMultiplePaths] and
    [clearMap] calls, with whatever arguments and whether they throw or
    return, at most one marker with the start icon and at most one with
    the end icon are on the map. A render that returns has replaced the
    markers: the one start marker and the one end marker on the map are
    new ones at the coordinates it was given, the two variables refer to
    them, and among its Leaflet calls the removal of the markers of before
    comes right before the addition of the new ones. [clearMap] always
    returns, and leaves neither marker on the map and both variables
    [null]. *)
Theorem one_start_and_one_end_marker (ops : list Operation) :
  let s := perform_all ops initial in
  (at_most_one startIcon s /\ at_most_one endIcon s) /\
  (forall op,
     match op, perform op s with
     | DrawRoute _ a b, (s', Normal _) => markers_replaced a b s s'
     | DrawMultiplePaths _ a b, (s', Normal _) => markers_replaced a b s s'
     | ClearMap, (s', c) => c = Normal tt /\ markers_cleared s s'
     | _, (_, Throw _) => True
     end).
Proof.
  intros s.
  assert (Hs : tracked_from 0 s) by (apply perform_all_tracked, initial_tracked).
  split; [exact (tracked_at_most_one 0 s Hs)|].
  intros [path a b|pds a b|]; simpl.
  - destruct (drawRoute path a b s) as [s' [u|msg]] eqn:E; [|exact I].
    exact (drawRoute_replaces path a b s s' u Hs E).
  - destruct (drawMultiplePaths pds a b s) as [s' [u|msg]] eqn:E; [|exact I].
    exact (drawMultiplePaths_replaces pds a b s s' u Hs E).
  - destruct (clearMap_clears s Hs) as [H1 H2].
    destruct (clearMap s) as [s' c]. simpl in *. split; assumption.
Qed.

Lemma one_start_and_one_end_marker_witness :
  let a := (lit 4792 (-2), lit 10692 (-2)) in
  let b := (lit 4793 (-2), lit 10693 (-2)) in
  let s := perform_all [DrawRoute ["47.92_106.92"; "47.93_106.93"] a b] initial in
  exists s', perform (DrawRoute ["47.93_106.93"; "47.92_106.92"] b a) s = (s', Normal tt) /\
             markers_replaced b a s s'.
Proof.
  intros a b s.
  destruct (one_start_and_one_end_marker [DrawRoute ["47.92_106.92"; "47.93_106.93"] a b])
    as [_ H].
  specialize (H (DrawRoute ["47.93_106.93"; "47.92_106.92"] b a)).
  fold s in H. cbv beta iota in H.
  destruct (perform (DrawRoute ["47.93_106.93"; "47.92_106.92"] b a) s)
    as [s' [[]|msg]] eqn:E.
  - exists s'. split; [reflexivity | exact H].
  - exfalso. vm_compute in E. discriminate E.
Defined.

End Markers.

(** ** Replies without a route, and the summary *)

Module Summary.
Import JS Leaflet AppJs AppSpec Hoare Page.

Lemma eqb_dfs (a : string) : a = "dfs" -> String.eqb a "dfs" = true.
Proof. intros ->. reflexivity. Qed.

(** C5. When the reply holds no route (for [dfs]: [paths] absent or
    empty; for [bfs] and [dijkstra]: [path] absent or empty) the status
    line reads that no route was found, and map.js is not called: its
    variables, the layers on the map, the fitted bounds and the record of
    Leaflet calls are what they were. *)
Theorem empty_result_leaves_map (rq : Request) (data : Response) (s : State) :
  empty_response rq data ->
  let s' := fst (findRoute_resume rq (Fulfilled (Some data)) s) in
  statusDiv s' = ("error", "⚠️ Зам олдсонгүй") /\ surface s' = surface s.
Proof.
  intros H. unfold findRoute_resume, findRoute_try.
  destruct H as [[Ha Hp]|[Ha Hp]].
  - rewrite Ha. simpl.
    destruct Hp as [-> | ->]; simpl; split; reflexivity.
  - destruct Ha as [-> | ->]; simpl;
      destruct Hp as [-> | ->]; simpl; split; reflexivity.
Qed.

Lemma empty_result_leaves_map_witness :
  let rq := {| algorithm := "bfs"; lat1 := Number "47.92"; lon1 := Number "106.92";
               lat2 := Number "47.93"; lon2 := Number "106.93" |} in
  let data := {| path := Some []; paths := None; all_paths_data := None;
                 distance_km := None; distance := None; computeTime := "0.012" |} in
  let s := loaded (form "47.92" "106.92" "47.93" "106.93" "bfs") in
  empty_response rq data /\
  statusDiv (fst (findRoute_resume rq (Fulfilled (Some data)) s))
    = ("error", "⚠️ Зам олдсонгүй") /\
  surface (fst (findRoute_resume rq (Fulfilled (Some data)) s)) = surface s.
Proof.
  intros rq data s.
  assert (H : empty_response rq data).
  { right. split; [left; reflexivity | right; reflexivity]. }
  split; [exact H|]. exact (empty_result_leaves_map rq data s H).
Defined.

(** C10. For a reply without [path] and with a [paths] array that is not
    empty, the node count in the summary is the length of the first path
    of [paths], whatever the other paths hold. *)
Theorem node_count_is_first_path (data : Response) (algorithm : string) (s : State)
    (p0 : list string) (rest : list (list string)) :
  path data = None -> paths data = Some (p0 :: rest) ->
  nodesSpan (fst (updateInfoPanel data algorithm s)) = toString (of_nat (length p0)).
Proof.
  intros Hpath Hpaths. unfold updateInfoPanel. rewrite Hpath, Hpaths. reflexivity.
Qed.

Lemma node_count_is_first_path_witness :
  let data := {| path := None; paths := Some [["1_1"; "2_2"]; ["1_1"; "3_3"; "2_2"]];
                 all_paths_data := None; distance_km := None; distance := None;
                 computeTime := "0.020" |} in
  let s := loaded (form "1" "1" "2" "2" "dfs") in
  nodesSpan (fst (updateInfoPanel data "dfs" s)) = "2".
Proof.
  intros data s.
  exact (node_count_is_first_path data "dfs" s ["1_1"; "2_2"] [["1_1"; "3_3"; "2_2"]]
           eq_refl eq_refl).
Defined.

End Summary.

(** ** Clearing and selecting *)

Module Selection.
Import JS Leaflet AppJs AppSpec Hoare Page.

(** C8. In every state the page can reach, the clear button takes every
    line and both the start and the end marker off the map, empties the
    four overlay variables and hides the info panel; the click mode and the
    four coordinate inputs stay as they are. *)
Theorem clear_keeps_selection (html : State) (es : list Event) :
  let s := run (loaded html) es in
  let s' := step s ClearRouteClicked in
  (Spec.no_lines (surface s') /\
   Spec.no_icon MapJs.startIcon (surface s') /\
   Spec.no_icon MapJs.endIcon (surface s') /\
   MapJs.routeLayer (surface s') = None /\
   MapJs.allRouteLayers (surface s') = [] /\
   MapJs.startMarker (surface s') = None /\
   MapJs.endMarker (surface s') = None) /\
  infoPanelDiv s' = false /\
  clickMode s' = clickMode s /\
  startLatInput s' = startLatInput s /\ startLonInput s' = startLonInput s /\
  endLatInput s' = endLatInput s /\ endLonInput s' = endLonInput s.
Proof.
  intros s s'.
  assert (Hs : app_ok s) by (apply run_ok, loaded_ok).
  destruct Hs as [Hs _].
  pose proof (clearAll_selection s) as Hsel. injection Hsel as H1 H2 H3 H4 H5.
  assert (Hm : exists m, MapJs.clearMap (surface s) = (m, Normal tt) /\
            Spec.no_lines m /\ Spec.no_icon MapJs.startIcon m /\
            Spec.no_icon MapJs.endIcon m /\ MapJs.routeLayer m = None /\
            MapJs.allRouteLayers m = [] /\ MapJs.startMarker m = None /\
            MapJs.endMarker m = None).
  { pose proof (Overlays.clearMap_tracked 0 (surface s) Hs) as H.
    destruct (MapJs.clearMap (surface s)) as [m [[]|msg]]; [|contradiction].
    exists m. tauto. }
  destruct Hm as (m & Hrun & Hm).
  assert (Hsurf : surface s' = m /\ infoPanelDiv s' = false).
  { unfold s', step, handler, clearAll, bind. rewrite on_surface_run, Hrun.
    split; reflexivity. }
  destruct Hsurf as [-> Hpanel].
  split; [exact Hm|]. split; [exact Hpanel|].
  split; [exact H1|]. split; [exact H2|]. split; [exact H3|]. split; [exact H4 | exact H5].
Qed.

Lemma showTemporaryMarker_returns (lat lon : number) (text : string) (m : MapJs.State) :
  Spec.valid (lat, lon) ->
  snd (MapJs.showTemporaryMarker lat lon text m) = Normal tt.
Proof.
  intros [H1 H2]. simpl in *.
  unfold MapJs.showTemporaryMarker, MapJs.L_marker, MapJs.lift, MapJs.map_addTo, bind,
    modify, ret, toLatLng.
  simpl. rewrite H1, H2. reflexivity.
Qed.

Lemma click_in_start_mode (s : State) (p : number * number) :
  clickMode s = "start" -> accepted p ->
  let s' := step s (MapClicked p) in
  clickMode s' = "end" /\
  (startLatInput s', startLonInput s') = shown p /\
  (endLatInput s', endLonInput s') = (endLatInput s, endLonInput s).
Proof.
  intros Hmode Hp. unfold step, handler, MapJs.onMapClick, click_callback, bind, gets.
  simpl. rewrite Hmode. simpl. rewrite on_surface_run.
  rewrite (showTemporaryMarker_returns _ _ _ _ Hp). simpl. repeat split.
Qed.

Lemma click_in_end_mode (s : State) (p : number * number) :
  clickMode s = "end" -> accepted p ->
  let s' := step s (MapClicked p) in
  clickMode s' = "start" /\
  (startLatInput s', startLonInput s') = (startLatInput s, startLonInput s) /\
  (endLatInput s', endLonInput s') = shown p.
Proof.
  intros Hmode Hp. unfold step, handler, MapJs.onMapClick, click_callback, bind, gets.
  simpl. rewrite Hmode. simpl. rewrite on_surface_run.
  rewrite (showTemporaryMarker_returns _ _ _ _ Hp). simpl. repeat split.
Qed.

Lemma clicks_parity (clicks : list (number * number)) (s : State) :
  Forall accepted clicks ->
  (clickMode s = "start" ->
   clickMode (run s (MapClicked <$> clicks)) =
     if Nat.even (length clicks) then "start" else "end") /\
  (clickMode s = "end" ->
   clickMode (run s (MapClicked <$> clicks)) =
     if Nat.even (length clicks) then "end" else "start").
Proof.
  revert s. induction clicks as [|p clicks IH]; intros s Hall.
  - simpl. auto.
  - apply Forall_cons in Hall as [Hp Hall].
    change (run s (MapClicked <$> p :: clicks))
      with (run (step s (MapClicked p)) (MapClicked <$> clicks)).
    destruct (IH (step s (MapClicked p)) Hall) as [IH1 IH2].
    change (length (p :: clicks)) with (S (length clicks)).
    rewrite Nat.even_succ, <- Nat.negb_even.
    split; intros Hmode.
    + destruct (click_in_start_mode s p Hmode Hp) as (Hm & _).
      rewrite (IH2 Hm). destruct (Nat.even (length clicks)); reflexivity.
    + destruct (click_in_end_mode s p Hmode Hp) as (Hm & _).
      rewrite (IH1 Hm). destruct (Nat.even (length clicks)); reflexivity.
Qed.

(** C6. From the loaded page, after any number of accepted map clicks the
    click mode is ["start"] when their number is even and ["end"] when it
    is odd. The first click writes the start inputs and leaves the end
    inputs alone, the second writes the end inputs and leaves the start
    inputs alone, and the third writes the start inputs again and leaves
    the end inputs alone. *)
Theorem clicks_alternate (html : State) (clicks : list (number * number))
    (p1 p2 p3 : number * number) :
  Forall accepted clicks -> accepted p1 -> accepted p2 -> accepted p3 ->
  let after ps := run (loaded html) (MapClicked <$> ps) in
  clickMode (after clicks) = (if Nat.even (length clicks) then "start" else "end") /\
  (clickMode (after [p1]) = "end" /\
   (startLatInput (after [p1]), startLonInput (after [p1])) = shown p1 /\
   (endLatInput (after [p1]), endLonInput (after [p1]))
     = (endLatInput html, endLonInput html)) /\
  (clickMode (after [p1; p2]) = "start" /\
   (startLatInput (after [p1; p2]), startLonInput (after [p1; p2])) = shown p1 /\
   (endLatInput (after [p1; p2]), endLonInput (after [p1; p2])) = shown p2) /\
  (clickMode (after [p1; p2; p3]) = "end" /\
   (startLatInput (after [p1; p2; p3]), startLonInput (after [p1; p2; p3])) = shown p3 /\
   (endLatInput (after [p1; p2; p3]), endLonInput (after [p1; p2; p3])) = shown p2).
Proof.
  intros Hall H1 H2 H3 after.
  set (s0 := loaded html).
  split; [apply (clicks_parity clicks s0 Hall); reflexivity|].
  destruct (click_in_start_mode s0 p1 eq_refl H1) as (M1 & S1 & E1).
  set (s1 := step s0 (MapClicked p1)) in *.
  destruct (click_in_end_mode s1 p2 M1 H2) as (M2 & S2 & E2).
  set (s2 := step s1 (MapClicked p2)) in *.
  destruct (click_in_start_mode s2 p3 M2 H3) as (M3 & S3 & E3).
  set (s3 := step s2 (MapClicked p3)) in *.
  change (after [p1]) with s1. change (after [p1; p2]) with s2.
  change (after [p1; p2; p3]) with s3.
  repeat split; try assumption; congruence.
Qed.

Lemma clicks_alternate_witness :
  let p1 := (Number "47.92106", Number "106.92714") in
  let p2 := (Number "47.93", Number "106.93") in
  let p3 := (Number "47.9", Number "106.9") in
  let after ps := run (loaded (form "" "" "" "" "dijkstra"))
                    (MapClicked <$> ps) in
  clickMode (after [p1; p2; p3; p1]) = "start" /\
  (clickMode (after [p1]) = "end" /\
   (startLatInput (after [p1]), startLonInput (after [p1])) = ("47.9211", "106.9271") /\
   (endLatInput (after [p1]), endLonInput (after [p1])) = ("", "")) /\
  (clickMode (after [p1; p2]) = "start" /\
   (startLatInput (after [p1; p2]), startLonInput (after [p1; p2]))
     = ("47.9211", "106.9271") /\
   (endLatInput (after [p1; p2]), endLonInput (after [p1; p2])) = ("47.93", "106.93")) /\
  (clickMode (after [p1; p2; p3]) = "end" /\
   (startLatInput (after [p1; p2; p3]), startLonInput (after [p1; p2; p3]))
     = ("47.9", "106.9") /\
   (endLatInput (after [p1; p2; p3]), endLonInput (after [p1; p2; p3]))
     = ("47.93", "106.93")).
Proof.
  intros p1 p2 p3 after.
  assert (A1 : accepted p1) by (split; vm_compute; reflexivity).
  assert (A2 : accepted p2) by (split; vm_compute; reflexivity).
  assert (A3 : accepted p3) by (split; vm_compute; reflexivity).
  assert (Hall : Forall accepted [p1; p2; p3; p1]) by (repeat constructor; assumption).
  pose proof (clicks_alternate (form "" "" "" "" "dijkstra")
                [p1; p2; p3; p1] p1 p2 p3 Hall A1 A2 A3) as H.
  vm_compute in H. vm_compute. exact H.
Defined.

End Selection.

(** ** Requests under way *)

Module Requests.
Import JS Leaflet AppJs AppSpec Hoare Page.

Lemma findRoute_begin_single_flight (s : State) :
  inflight s = [] -> single_flight (fst (findRoute_begin s)).
Proof.
  intros H. unfold findRoute_begin, bind, gets, showLoading, setStatus, modify. simpl.
  destruct (isNaN (parseFloat (startLatInput s)) || isNaN (parseFloat (startLonInput s))
            || isNaN (parseFloat (endLatInput s)) || isNaN (parseFloat (endLonInput s)));
    simpl.
  - left. exact H.
  - right. rewrite H. split; reflexivity.
Qed.

Lemma findRoute_resume_enables (rq : Request) (outcome : Settled) (s : State) :
  findRouteBtn (fst (findRoute_resume rq outcome s)) = false.
Proof.
  unfold findRoute_resume.
  destruct outcome as [data|message]; [destruct (findRoute_try rq data s) as [s1 [u|msg]]|];
    reflexivity.
Qed.

(** A listener other than the one for keys keeps at most one request
    under way. *)
Lemma handler_single_flight (e : Event) :
  is_key e = false -> preserves single_flight (handler e).
Proof.
  intros He s Hs.
  destruct e as [latlng| | |key|field text|value|i outcome|i|isHealthy|stats];
    try discriminate; simpl.
  - pose proof (click_callback_inflight (parseFloat (toFixed latlng.1 4))
                  (parseFloat (toFixed latlng.2 4)) s) as H.
    simpl in H. injection H as H1 H2. unfold single_flight, MapJs.onMapClick.
    rewrite H1, H2. exact Hs.
  - unfold bind, gets. simpl. destruct (findRouteBtn s) eqn:E; [exact Hs|].
    apply findRoute_begin_single_flight.
    destruct Hs as [Hs|[_ Hs]]; [exact Hs | congruence].
  - pose proof (clearAll_inflight s) as H. simpl in H. injection H as H1 H2.
    unfold single_flight. rewrite H1, H2. exact Hs.
  - destruct field; exact Hs.
  - exact Hs.
  - unfold bind, gets. simpl. destruct (inflight s !! i) as [rq|] eqn:E; [|exact Hs].
    simpl. left. rewrite findRoute_resume_inflight. simpl.
    destruct Hs as [Hs|[Hs _]]; [rewrite Hs in E; discriminate|].
    destruct (inflight s) as [|r [|r' rs]]; try discriminate.
    destruct i as [|i]; [reflexivity | discriminate].
  - unfold single_flight. rewrite on_surface_run. simpl. exact Hs.
  - unfold bind, gets, init_health. simpl.
    destruct (stage s); [destruct isHealthy| |]; simpl; try exact Hs.
    destruct Hs as [Hs|[Hs _]]; [left; exact Hs | right; split; [exact Hs | reflexivity]].
  - unfold bind, gets, init_stats. simpl.
    destruct (stage s); [|destruct stats as [[[[[x1 x2] x3] x4]|]|]|]; simpl; exact Hs.
Qed.

(** Without key presses, the disabled button does what C2 asks: whatever
    else happens, at most one request is under way. *)
Lemma button_alone_single_flight (s : State) (es : list Event) :
  single_flight s -> forallb (fun e => negb (is_key e)) es = true ->
  single_flight (run s es).
Proof.
  revert s. induction es as [|e es IH]; intros s Hs Hes; simpl; [exact Hs|].
  simpl in Hes. apply andb_true_iff in Hes as [He Hes].
  apply IH; [|exact Hes]. apply handler_single_flight; [|exact Hs].
  destruct (is_key e); [discriminate | reflexivity].
Qed.

(** C2, at the input on which the code departs from it. With the four
    inputs filled in, a click on the search button leaves one request
    under way and the button disabled, and a second click does nothing;
    but the Enter key then starts a second request while the first has
    not settled. *)
Theorem enter_key_starts_second_request :
  let s0 := loaded (form "47.92" "106.92" "47.93" "106.93" "dijkstra") in
  let s1 := step s0 FindRouteClicked in
  let s2 := step s1 (KeyPressed "Enter") in
  findRouteBtn s1 = true /\ length (inflight s1) = 1%nat /\
  step s1 FindRouteClicked = s1 /\
  findRouteBtn s2 = true /\ length (inflight s2) = 2%nat.
Proof. vm_compute. repeat split; reflexivity. Qed.

End Requests.

(** ** The summary after a render *)

Module Distance.
Import JS Leaflet AppJs AppSpec Hoare Page.

Lemma updateInfoPanel_spans (data : Response) (algorithm : string) (s : State) :
  let s' := fst (updateInfoPanel data algorithm s) in
  infoPanelDiv s' = true /\
  distanceSpan s' =
    match distance_km data with
    | Some d => (toFixed d 2 ++ " км")%string
    | None =>
        match distance data with
        | Some d => (toFixed (div d (MapJs.lit 1000 0)) 2 ++ " км")%string
        | None => "Тодорхойгүй"
        end
    end /\
  nodesSpan s' =
    match path data with
    | Some p => toString (of_nat (length p))
    | None =>
        match paths data with
        | Some (p0 :: _) => toString (of_nat (length p0))
        | _ => "0"
        end
    end.
Proof. repeat split. Qed.

(** C7, as the code has it. After every render that returns, the info
    panel is shown; its distance reads [distance_km] printed by
    [toFixed(2)] and followed by the unit when the reply carries
    [distance_km], else [distance / 1000] printed the same way when it
    carries [distance], else the word for unknown; its node count is the
    length of [path], or of the first of [paths] when there is no [path].
    A [dijkstra] reply with a path of two node identifiers and
    [distance: 1000] gives ["1.00 км"] and ["2"]. *)
Theorem summary_after_render :
  (forall (rq : Request) (data : Response) (s : State),
     has_route rq data ->
     snd (findRoute_try rq (Some data) s) = Normal tt ->
     let s' := fst (findRoute_resume rq (Fulfilled (Some data)) s) in
     infoPanelDiv s' = true /\
     distanceSpan s' =
       match distance_km data with
       | Some d => (toFixed d 2 ++ " км")%string
       | None =>
           match distance data with
           | Some d => (toFixed (div d (MapJs.lit 1000 0)) 2 ++ " км")%string
           | None => "Тодорхойгүй"
           end
       end /\
     nodesSpan s' =
       match path data with
       | Some p => toString (of_nat (length p))
       | None =>
           match paths data with
           | Some (p0 :: _) => toString (of_nat (length p0))
           | _ => "0"
           end
       end) /\
  (let s0 := loaded (form "47.92" "106.92" "47.93" "106.93" "dijkstra") in
   let data := {| path := Some ["47.9200_106.9200"; "47.9300_106.9300"];
                  paths := None; all_paths_data := None; distance_km := None;
                  distance := Some (Number "1000"); computeTime := "0.123" |} in
   let s := run s0 [FindRouteClicked; RouteSettled 0 (Fulfilled (Some data))] in
   distanceSpan s = "1.00 км" /\ nodesSpan s = "2").
Proof.
  split; [|vm_compute; split; reflexivity].
  intros rq data s Hroute Hret.
  unfold findRoute_resume. unfold findRoute_try in *.
  destruct Hroute as [[Ha (p0 & rest & Hp)]|[Ha (p0 & rest & Hp)]].
  - rewrite Ha, Hp in *. simpl in *.
    destruct (all_paths_data data) as [[|d0 [|d1 ds]]|].
    all: unfold bind in *; rewrite on_surface_run in *.
    all: match type of Hret with
         | context [?c (surface ?m)] => destruct (c (surface m)) as [m' [u|msg]]
         end; simpl in *; [repeat split; rewrite ?Hp; reflexivity | discriminate].
  - assert (Hb : (String.eqb (algorithm rq) "dfs" = false) /\
                 (String.eqb (algorithm rq) "bfs" || String.eqb (algorithm rq) "dijkstra"
                  = true)).
    { destruct Ha as [-> | ->]; split; reflexivity. }
    destruct Hb as [Hb1 Hb2]. rewrite Hb1, Hb2, Hp in *.
    unfold bind in *. simpl in *. rewrite on_surface_run in *.
    match type of Hret with
    | context [?c (surface ?m)] => destruct (c (surface m)) as [m' [u|msg]]
    end; simpl in *; [repeat split; rewrite ?Hp; reflexivity | discriminate].
Qed.

Lemma summary_after_render_witness :
  let rq := {| algorithm := "bfs"; lat1 := Number "47.92"; lon1 := Number "106.92";
               lat2 := Number "47.93"; lon2 := Number "106.93" |} in
  let data := {| path := Some ["47.9200_106.9200"; "47.9250_106.9250"; "47.9300_106.9300"];
                 paths := None; all_paths_data := None;
                 distance_km := Some (Number "1.2345"); distance := Some (Number "7");
                 computeTime := "0.050" |} in
  let s := loaded (form "47.92" "106.92" "47.93" "106.93" "bfs") in
  let s' := fst (findRoute_resume rq (Fulfilled (Some data)) s) in
  has_route rq data /\
  snd (findRoute_try rq (Some data) s) = Normal tt /\
  infoPanelDiv s' = true /\ distanceSpan s' = "1.23 км" /\ nodesSpan s' = "3".
Proof.
  intros rq data s s'.
  assert (H1 : has_route rq data).
  { right. split; [left; reflexivity | eexists; eexists; reflexivity]. }
  assert (H2 : snd (findRoute_try rq (Some data) s) = Normal tt)
    by (vm_compute; reflexivity).
  split; [exact H1|]. split; [exact H2|].
  pose proof (proj1 summary_after_render rq data s H1 H2) as H.
  vm_compute in H. vm_compute. exact H.
Defined.

(** C7 as stated fails: a [dfs] reply that carries its one path and no
    distance is drawn, the panel is shown, and the distance reads
    "unknown", not a number of kilometres. *)
Lemma summary_without_distance :
  let s0 := loaded (form "47.92" "106.92" "47.93" "106.93" "dfs") in
  let data := {| path := None; paths := Some [["47.9200_106.9200"; "47.9300_106.9300"]];
                 all_paths_data := None; distance_km := None; distance := None;
                 computeTime := "0.100" |} in
  let s := run s0 [FindRouteClicked; RouteSettled 0 (Fulfilled (Some data))] in
  statusDiv s = ("success", "✅ DFS: 1 зам олдлоо") /\
  calls (MapJs.map (surface s)) <> [] /\
  infoPanelDiv s = true /\ distanceSpan s = "Тодорхойгүй".
Proof. vm_compute. repeat split; try reflexivity. discriminate. Qed.

End Distance.

(** ** Renders *)

Module Rendering.
Import JS Leaflet AppJs AppSpec Hoare Page.

Lemma settle_step (s : State) (i : nat) (rq : Request) (outcome : Settled) :
  inflight s !! i = Some rq ->
  step s (RouteSettled i outcome) =
  fst (findRoute_resume rq outcome
         (set_inflight (take i (inflight s) ++ drop (S i) (inflight s)) s)).
Proof.
  intros H. unfold step, handler, bind, gets. simpl. rewrite H. reflexivity.
Qed.

Lemma reachable_request (s : State) (i : nat) (rq : Request) :
  app_ok s -> inflight s !! i = Some rq ->
  Spec.tracked_from 0 (surface s) /\ valid_request rq.
Proof.
  intros [Hs Hrq] Hi. split; [exact Hs|].
  rewrite Forall_forall in Hrq. apply Hrq. eapply list_elem_of_lookup_2. exact Hi.
Qed.

Lemma resume_single (rq : Request) (data : Response) (s : State)
    (p0 : string) (rest : list string) (ps : list LatLng) (sw ne : LatLng) :
  algorithm rq = "bfs" \/ algorithm rq = "dijkstra" ->
  path data = Some (p0 :: rest) ->
  convertLatLngs (List.map MapJs.decode (p0 :: rest)) = Normal ps ->
  latLngBounds ps = Some (sw, ne) ->
  valid_request rq ->
  surface (fst (findRoute_resume rq (Fulfilled (Some data)) s)) =
  Spec.after_route ps (lat1 rq, lon1 rq) (lat2 rq, lon2 rq) sw ne (surface s).
Proof.
  intros Ha Hp Hps Hb [Hv1 Hv2].
  assert (Hb' : (String.eqb (algorithm rq) "dfs" = false) /\
                (String.eqb (algorithm rq) "bfs" || String.eqb (algorithm rq) "dijkstra"
                 = true)).
  { destruct Ha as [-> | ->]; split; reflexivity. }
  destruct Hb' as [Hb1 Hb2].
  unfold findRoute_resume, findRoute_try. rewrite Hb1, Hb2, Hp.
  unfold bind. simpl. rewrite on_surface_run.
  rewrite (Renders.drawRoute_run _ _ _ ps sw ne _ Hps Hb Hv1 Hv2).
  destruct (Spec.fit_outcome sw ne); reflexivity.
Qed.

Lemma resume_multi (rq : Request) (data : Response) (s : State)
    (p0 : list string) (rest : list (list string)) (pds : list MapJs.PathData) :
  algorithm rq = "dfs" ->
  paths data = Some (p0 :: rest) ->
  all_paths_data data = Some pds -> (1 < length pds)%nat ->
  Forall (fun pd => Forall Spec.geographic (MapJs.coordinates pd)) pds ->
  valid_request rq ->
  let s' := fst (findRoute_resume rq (Fulfilled (Some data)) s) in
  surface s' = Spec.after_paths pds (lat1 rq, lon1 rq) (lat2 rq, lon2 rq) (surface s) /\
  statusDiv s' =
    ("success",
     ("✅ DFS: " ++ toString (of_nat (length pds)) ++ " өөр зам харуулж байна")%string).
Proof.
  intros Ha Hp Hd Hlen Hpds [Hv1 Hv2].
  unfold findRoute_resume, findRoute_try. rewrite Ha, Hp, Hd.
  destruct pds as [|d0 [|d1 ds]]; simpl in Hlen; try lia.
  unfold bind. simpl. rewrite on_surface_run.
  rewrite (Renders.drawMultiplePaths_exec _ _ _ _ Hpds Hv1 Hv2). split; reflexivity.
Qed.

Lemma converted_nonempty (l : list (value * value)) (p : value * value) (ps : list LatLng) :
  convertLatLngs (p :: l) = Normal ps -> exists sw ne, latLngBounds ps = Some (sw, ne).
Proof.
  intros H. apply Renders.convertLatLngs_length in H.
  destruct ps as [|q qs]; [discriminate|]. apply Bounds.latLngBounds_nonempty.
Qed.

(** C4, as the code has it. In every state the page can reach, a [bfs] or
    [dijkstra] reply whose [path] is not empty and whose node identifiers
    all decode to coordinates Leaflet accepts is drawn as follows. When the
    request settles, the one line on the map is a new one through the
    decoded coordinates in their order, the one marker with the start icon
    and the one with the end icon are new ones at the requested start and
    end, and no line, start marker or end marker of before is on the map.
    The Leaflet calls are, in this order: the lines of before are removed,
    the new line is added, the start and end markers of before are
    removed, the two new markers are added, and the bounds of the line are
    fitted. *)
Theorem single_route_render (html : State) (es : list Event) (i : nat) (rq : Request)
    (data : Response) (p0 : string) (rest : list string) (ps : list LatLng) :
  let s := run (loaded html) es in
  inflight s !! i = Some rq ->
  algorithm rq = "bfs" \/ algorithm rq = "dijkstra" ->
  path data = Some (p0 :: rest) ->
  convertLatLngs (List.map MapJs.decode (p0 :: rest)) = Normal ps ->
  let s' := step s (RouteSettled i (Fulfilled (Some data))) in
  let m := surface s in
  let m' := surface s' in
  let n := lastId (MapJs.map m) in
  Spec.only_line m' (S n) (Spec.route_line ps) /\
  Spec.only_marker MapJs.startIcon m' (S (S n)) (Spec.start_marker (lat1 rq, lon1 rq)) /\
  Spec.only_marker MapJs.endIcon m' (S (S (S n))) (Spec.end_marker (lat2 rq, lon2 rq)) /\
  Spec.disposed m m' /\
  exists sw ne,
    latLngBounds ps = Some (sw, ne) /\
    calls (MapJs.map m') =
    calls (MapJs.map m) ++
    Spec.removals (MapJs.allRouteLayers m ++ option_list (MapJs.routeLayer m)) ++
    [AddLayer (S n)] ++
    Spec.removals (option_list (MapJs.startMarker m) ++ option_list (MapJs.endMarker m)) ++
    [AddLayer (S (S n)); AddLayer (S (S (S n))); FitBounds sw ne].
Proof.
  intros s Hi Ha Hp Hps s' m m' n.
  destruct (reachable_request s i rq (run_ok _ es (loaded_ok html)) Hi)
    as [Hs Hrq].
  destruct (converted_nonempty _ _ _ Hps) as (sw & ne & Hb).
  assert (Hm' : m' = Spec.after_route ps (lat1 rq, lon1 rq) (lat2 rq, lon2 rq) sw ne m).
  { unfold m', s'. rewrite (settle_step s i rq _ Hi).
    rewrite (resume_single rq data _ p0 rest ps sw ne Ha Hp Hps Hb Hrq). reflexivity. }
  rewrite Hm'.
  destruct (Renders.after_route_overlays 0 ps (lat1 rq, lon1 rq) (lat2 rq, lon2 rq) sw ne m Hs)
    as (H1 & H2 & H3 & _ & H5).
  split; [exact H1|]. split; [exact H2|]. split; [exact H3|]. split; [exact H5|].
  exists sw, ne. split; [exact Hb|]. apply Renders.after_route_calls.
Qed.

Lemma single_route_render_witness :
  let s := run (loaded (form "47.92" "106.92" "47.93" "106.93" "dijkstra"))
             [FindRouteClicked] in
  let rq := {| algorithm := "dijkstra"; lat1 := Number "47.92"; lon1 := Number "106.92";
               lat2 := Number "47.93"; lon2 := Number "106.93" |} in
  let data := {| path := Some ["47.9200_106.9200"; "47.9300_106.9300"];
                 paths := None; all_paths_data := None; distance_km := None;
                 distance := Some (Number "1000"); computeTime := "0.123" |} in
  let ps := [(Number "47.92", Number "106.92"); (Number "47.93", Number "106.93")] in
  let m' := surface (step s (RouteSettled 0 (Fulfilled (Some data)))) in
  inflight s !! 0%nat = Some rq /\
  convertLatLngs (List.map MapJs.decode ["47.9200_106.9200"; "47.9300_106.9300"])
    = Normal ps /\
  Spec.only_line m' 2 (Spec.route_line ps) /\
  Spec.only_marker MapJs.startIcon m' 3 (Spec.start_marker (Number "47.92", Number "106.92")) /\
  Spec.only_marker MapJs.endIcon m' 4 (Spec.end_marker (Number "47.93", Number "106.93")).
Proof.
  intros s rq data ps m'.
  assert (H1 : inflight s !! 0%nat = Some rq) by (vm_compute; reflexivity).
  assert (H2 : convertLatLngs
                 (List.map MapJs.decode ["47.9200_106.9200"; "47.9300_106.9300"])
               = Normal ps) by (vm_compute; reflexivity).
  split; [exact H1|]. split; [exact H2|].
  destruct (single_route_render (form "47.92" "106.92" "47.93" "106.93" "dijkstra") [FindRouteClicked] 0 rq data
              "47.9200_106.9200" ["47.9300_106.9300"] ps H1
              (or_intror eq_refl) eq_refl H2) as (L & S1 & E1 & _).
  split; [exact L|]. split; [exact S1 | exact E1].
Defined.

(** C4 as stated fails: when a second route is drawn over a first, the new
    line (stamp 5) is added to the map while the start marker of the first
    render (stamp 3) is still on it; that marker is removed only
    afterwards. *)
Lemma new_line_before_old_markers_go :
  let s0 := loaded (form "47.92" "106.92" "47.93" "106.93" "dijkstra") in
  let data := {| path := Some ["47.9200_106.9200"; "47.9300_106.9300"];
                 paths := None; all_paths_data := None; distance_km := None;
                 distance := Some (Number "1000"); computeTime := "0.123" |} in
  let s1 := run s0 [FindRouteClicked; RouteSettled 0 (Fulfilled (Some data))] in
  let s2 := run s1 [FindRouteClicked; RouteSettled 0 (Fulfilled (Some data))] in
  Spec.on_map (surface s1) 3 (Spec.start_marker (Number "47.92", Number "106.92")) /\
  take 3 (drop (length (calls (MapJs.map (surface s1)))) (calls (MapJs.map (surface s2))))
    = [RemoveLayer 2; AddLayer 5; RemoveLayer 3].
Proof. vm_compute. split; reflexivity. Qed.

Lemma colors_NoDup : NoDup MapJs.colors.
Proof. apply (bool_decide_unpack _). vm_compute. reflexivity. Qed.

Lemma path_style_color (k j : nat) :
  color (MapJs.path_style k j) = nth (j mod 10) MapJs.colors "".
Proof. reflexivity. Qed.

Lemma path_style_colors_differ (k j1 j2 : nat) :
  (j1 mod 10)%nat <> (j2 mod 10)%nat ->
  color (MapJs.path_style k j1) <> color (MapJs.path_style k j2).
Proof.
  intros Hne Heq. rewrite !path_style_color in Heq. apply Hne.
  assert (H1 : (j1 mod 10 < length MapJs.colors)%nat) by (apply Nat.mod_upper_bound; discriminate).
  assert (H2 : (j2 mod 10 < length MapJs.colors)%nat) by (apply Nat.mod_upper_bound; discriminate).
  pose proof colors_NoDup as Hnd. apply NoDup_ListNoDup in Hnd.
  exact (proj1 (List.NoDup_nth MapJs.colors "") Hnd _ _ H1 H2 Heq).
Qed.

Lemma path_style_first_stands_out (k j : nat) :
  (0 < j)%nat ->
  ltb (weight (MapJs.path_style k j)) (weight (MapJs.path_style k 0)) = true /\
  ltb (opacity (MapJs.path_style k j)) (opacity (MapJs.path_style k 0)) = true.
Proof.
  intros Hj. destruct j as [|j]; [lia|]. split; vm_compute; reflexivity.
Qed.

(** C3, as the code has it. In every state the page can reach, a [dfs]
    reply whose [paths] is not empty and whose [all_paths_data] has
    [k > 1] entries, with coordinates on the globe (latitudes from -90 to
    90, longitudes from -180 to 180), is drawn as [k] lines, and these are
    the only lines on the map: the line for the entry at index [j] goes
    through that entry's coordinates with the style of index [j]. The line
    at index 0 has a greater weight and a greater opacity than every
    other; the colour of the line at index [j] is the palette entry at
    [j mod 10], so two lines differ in colour when their indices differ
    modulo 10; the view is fitted to bounds that contain every coordinate
    of every entry; and the render returns, so that the status line is set
    to the success text that names [k]. *)
Theorem multi_path_render (html : State) (es : list Event) (i : nat) (rq : Request)
    (data : Response) (p0 : list string) (rest : list (list string))
    (pds : list MapJs.PathData) :
  let s := run (loaded html) es in
  inflight s !! i = Some rq ->
  algorithm rq = "dfs" ->
  paths data = Some (p0 :: rest) ->
  all_paths_data data = Some pds -> (1 < length pds)%nat ->
  Forall (fun pd => Forall Spec.geographic (MapJs.coordinates pd)) pds ->
  let s' := step s (RouteSettled i (Fulfilled (Some data))) in
  let m := surface s in
  let m' := surface s' in
  let n := lastId (MapJs.map m) in
  let k := length pds in
  (forall j pd, pds !! j = Some pd -> Spec.on_map m' (n + S j) (Spec.path_line k j pd)) /\
  (forall id l, Spec.on_map m' id l -> Spec.is_line l ->
     exists j pd, pds !! j = Some pd /\ id = (n + S j)%nat /\ l = Spec.path_line k j pd) /\
  (forall j, (0 < j)%nat ->
     ltb (weight (MapJs.path_style k j)) (weight (MapJs.path_style k 0)) = true /\
     ltb (opacity (MapJs.path_style k j)) (opacity (MapJs.path_style k 0)) = true) /\
  (forall j, color (MapJs.path_style k j) = nth (j mod 10) MapJs.colors "") /\
  (forall j1 j2, (j1 mod 10)%nat <> (j2 mod 10)%nat ->
     color (MapJs.path_style k j1) <> color (MapJs.path_style k j2)) /\
  (forall pd p, pd ∈ pds -> p ∈ MapJs.coordinates pd ->
     exists sw ne, fitted (MapJs.map m') = Some (sw, ne) /\
                   contains (Some (sw, ne)) p = true) /\
  statusDiv s' =
    ("success",
     ("✅ DFS: " ++ toString (of_nat k) ++ " өөр зам харуулж байна")%string).
Proof.
  intros s Hi Ha Hp Hd Hlen Hpds s' m m' n k.
  destruct (reachable_request s i rq (run_ok _ es (loaded_ok html)) Hi)
    as [Hs Hrq].
  assert (Hrun : m' = Spec.after_paths pds (lat1 rq, lon1 rq) (lat2 rq, lon2 rq) m /\
                 statusDiv s' =
                   ("success",
                    ("✅ DFS: " ++ toString (of_nat k) ++ " өөр зам харуулж байна")%string)).
  { unfold m', s'. rewrite (settle_step s i rq _ Hi).
    destruct (resume_multi rq data
                (set_inflight (take i (inflight s) ++ drop (S i) (inflight s)) s)
                p0 rest pds Ha Hp Hd Hlen Hpds Hrq) as [Hx Hy].
    split; [exact Hx | exact Hy]. }
  destruct Hrun as [Hm' Hstatus]. rewrite Hm'.
  destruct (Renders.after_paths_overlays 0 pds (lat1 rq, lon1 rq) (lat2 rq, lon2 rq) m Hs)
    as (H1 & H2 & _ & _ & H5 & _).
  split; [exact H1|]. split; [exact H2|].
  split; [intros j; apply path_style_first_stands_out|].
  split; [intros j; apply path_style_color|].
  split; [intros j1 j2; apply path_style_colors_differ|].
  split; [|exact Hstatus].
  intros pd p Hpd Hin.
  pose proof (Renders.flat_geographic pds Hpds) as Hgeo.
  assert (Hall : Forall Spec.valid (flat_map MapJs.coordinates pds)).
  { eapply Forall_impl; [exact Hgeo | apply Bounds.geographic_valid]. }
  assert (Hmem : p ∈ flat_map MapJs.coordinates pds).
  { apply list_elem_of_In. apply in_flat_map. exists pd.
    split; apply list_elem_of_In; assumption. }
  pose proof (Bounds.latLngBounds_contains _ _ Hall Hmem) as Hc.
  destruct (latLngBounds (flat_map MapJs.coordinates pds)) as [[sw ne]|] eqn:E;
    [|discriminate].
  exists sw, ne. split; [|exact Hc].
  apply H5; [reflexivity | exact (Bounds.latLngBounds_geographic _ sw ne Hgeo E)].
Qed.

Lemma multi_path_render_witness :
  let s := run (loaded (form "1" "1" "3" "3" "dfs")) [FindRouteClicked] in
  let rq := {| algorithm := "dfs"; lat1 := Number "1"; lon1 := Number "1";
               lat2 := Number "3"; lon2 := Number "3" |} in
  let pd0 := {| MapJs.coordinates := [(Number "1", Number "1"); (Number "3", Number "3")];
                MapJs.distance_km := Number "314.5"; MapJs.nodes := Number "2" |} in
  let pd1 := {| MapJs.coordinates := [(Number "1", Number "1"); (Number "2", Number "4");
                                      (Number "3", Number "3")];
                MapJs.distance_km := Number "402.25"; MapJs.nodes := Number "3" |} in
  let data := {| path := None; paths := Some [["1_1"; "3_3"]; ["1_1"; "2_4"; "3_3"]];
                 all_paths_data := Some [pd0; pd1]; distance_km := None;
                 distance := None; computeTime := "0.300" |} in
  let s' := step s (RouteSettled 0 (Fulfilled (Some data))) in
  inflight s !! 0%nat = Some rq /\
  (1 < length [pd0; pd1])%nat /\
  Forall (fun pd => Forall Spec.geographic (MapJs.coordinates pd)) [pd0; pd1] /\
  Spec.on_map (surface s') 2 (Spec.path_line 2 0 pd0) /\
  Spec.on_map (surface s') 3 (Spec.path_line 2 1 pd1) /\
  (exists sw ne, fitted (MapJs.map (surface s')) = Some (sw, ne) /\
                 contains (Some (sw, ne)) (Number "2", Number "4") = true) /\
  statusDiv s' = ("success", "✅ DFS: 2 өөр зам харуулж байна").
Proof.
  intros s rq pd0 pd1 data s'.
  assert (H1 : inflight s !! 0%nat = Some rq) by (vm_compute; reflexivity).
  assert (H2 : (1 < length [pd0; pd1])%nat) by (simpl; lia).
  assert (H3 : Forall (fun pd => Forall Spec.geographic (MapJs.coordinates pd)) [pd0; pd1]).
  { repeat constructor; vm_compute; reflexivity. }
  split; [exact H1|]. split; [exact H2|]. split; [exact H3|].
  destruct (multi_path_render (form "1" "1" "3" "3" "dfs") [FindRouteClicked]
              0 rq data ["1_1"; "3_3"] [["1_1"; "2_4"; "3_3"]] [pd0; pd1]
              H1 eq_refl eq_refl eq_refl H2 H3) as (L & _ & _ & _ & _ & B & St).
  split; [exact (L 0%nat pd0 eq_refl)|]. split; [exact (L 1%nat pd1 eq_refl)|].
  split; [|exact St].
  apply (B pd1); [right; left | right; left].
Defined.

(** C3 as stated fails: of eleven lines drawn for one reply, the first
    (stamp 2) and the eleventh (stamp 12) are lines through different
    points and of the same colour. *)
Lemma eleventh_line_repeats_first_color :
  let s0 := loaded (form "1" "1" "3" "3" "dfs") in
  let pd := {| MapJs.coordinates := [(Number "1", Number "1"); (Number "3", Number "3")];
               MapJs.distance_km := Number "314.5"; MapJs.nodes := Number "2" |} in
  let pd' := {| MapJs.coordinates := [(Number "1", Number "1"); (Number "2", Number "4");
                                      (Number "3", Number "3")];
                MapJs.distance_km := Number "402.25"; MapJs.nodes := Number "3" |} in
  let data := {| path := None;
                 paths := Some (replicate 10 ["1_1"; "3_3"] ++ [["1_1"; "2_4"; "3_3"]]);
                 all_paths_data := Some (replicate 10 pd ++ [pd']); distance_km := None;
                 distance := None; computeTime := "0.300" |} in
  let s := run s0 [FindRouteClicked; RouteSettled 0 (Fulfilled (Some data))] in
  Spec.on_map (surface s) 2 (Spec.path_line 11 0 pd) /\
  Spec.on_map (surface s) 12 (Spec.path_line 11 10 pd') /\
  Spec.line_color (Spec.path_line 11 0 pd) = Some "#667eea" /\
  Spec.line_color (Spec.path_line 11 10 pd') = Some "#667eea".
Proof. vm_compute. repeat split; reflexivity. Qed.

End Rendering.

(** * Further properties *)

(** ** Renders that throw, and renders of nothing *)

Module Failures.
Import JS Leaflet MapJs Spec Further Hoare Overlays Renders.

Lemma showTemporaryMarker_exec (lat lon : number) (text : string) (s : State) :
  valid (lat, lon) ->
  showTemporaryMarker lat lon text s = (after_show lat lon text s, Normal tt).
Proof.
  intros H. unfold showTemporaryMarker, L_marker, bind at 1. unfold bind at 1.
  unfold lift at 1. rewrite (toLatLng_valid (lat, lon) H). reflexivity.
Qed.

Lemma showTemporaryMarker_throws (lat lon : number) (text : string) (s : State) :
  isNaN lat || isNaN lon = true ->
  showTemporaryMarker lat lon text s =
  (s, Throw ("Invalid LatLng object: (" ++ toString lat ++ ", " ++ toString lon ++ ")")).
Proof.
  intros H. unfold showTemporaryMarker, L_marker, bind at 1. unfold bind at 1.
  unfold lift at 1, toLatLng. simpl. rewrite H. reflexivity.
Qed.

Lemma timer_fires_exec (i : nat) (s : State) :
  timer_fires i s = (after_timer i s, Normal tt).
Proof.
  unfold timer_fires, after_timer, bind, gets. simpl.
  destruct (timers s !! i) as [r|]; reflexivity.
Qed.

(** X1. When a node identifier of the path decodes to a pair Leaflet
    refuses, [drawRoute] throws the error of the first such identifier. By
    then [clearAllRoutes] has run: the lines of before are off the map and
    forgotten, while the markers of before are still there; nothing is
    added and the view is not fitted. *)
Theorem drawRoute_refused_node (good : list string) (bad : string) (rest : list string)
    (a b : number * number) (s : State) (msg : string) :
  Forall decodes good -> toLatLng (decode bad) = Throw msg ->
  let s' := fst (drawRoute (good ++ bad :: rest) a b s) in
  snd (drawRoute (good ++ bad :: rest) a b s) = Throw msg /\
  s' = after_clear s /\
  lastId (map s') = lastId (map s) /\ fitted (map s') = fitted (map s) /\
  startMarker s' = startMarker s /\ endMarker s' = endMarker s /\
  calls (map s') =
    calls (map s) ++ removals (allRouteLayers s ++ option_list (routeLayer s)).
Proof.
  intros Hgood Hbad s'.
  assert (H : convertLatLngs (List.map decode (good ++ bad :: rest)) = Throw msg).
  { rewrite map_app. simpl. apply convertLatLngs_first_refused; [|exact Hbad].
    apply Forall_forall. intros p Hp. apply list_elem_of_In, in_map_iff in Hp as (x & <- & Hx).
    rewrite Forall_forall in Hgood. apply Hgood, list_elem_of_In, Hx. }
  unfold s'. rewrite (drawRoute_throws _ a b s msg H). simpl.
  rewrite remove_refs_lastId, remove_refs_fitted, remove_refs_calls.
  repeat split.
Qed.

Lemma drawRoute_refused_node_witness :
  let s := fst (drawRoute ["47.92_106.92"; "47.93_106.93"]
                  (lit 4792 (-2), lit 10692 (-2)) (lit 4793 (-2), lit 10693 (-2)) initial) in
  let s' := fst (drawRoute ["47.92_106.92"; "47.93_abc"; "47.94_106.94"]
                   (lit 4792 (-2), lit 10692 (-2)) (lit 4793 (-2), lit 10693 (-2)) s) in
  snd (drawRoute ["47.92_106.92"; "47.93_abc"; "47.94_106.94"]
         (lit 4792 (-2), lit 10692 (-2)) (lit 4793 (-2), lit 10693 (-2)) s)
    = Throw "Invalid LatLng object: (47.93, NaN)" /\
  calls (map s') = calls (map s) ++ [RemoveLayer 2].
Proof.
  intros s s'.
  assert (H1 : Forall decodes ["47.92_106.92"]).
  { constructor; [|constructor]. eexists. vm_compute. reflexivity. }
  assert (H2 : toLatLng (decode "47.93_abc") = Throw "Invalid LatLng object: (47.93, NaN)")
    by (vm_compute; reflexivity).
  destruct (drawRoute_refused_node ["47.92_106.92"] "47.93_abc" ["47.94_106.94"]
              (lit 4792 (-2), lit 10692 (-2)) (lit 4793 (-2), lit 10693 (-2)) s _ H1 H2)
    as (E1 & _ & _ & _ & _ & _ & E2).
  split; [exact E1 | exact E2].
Defined.

(** X2. A node identifier without a separator is refused whatever it
    holds: its second coordinate is [undefined], and [drawRoute] throws the
    error that names it. *)
Theorem drawRoute_no_separator (good : list string) (bad : string) (rest : list string)
    (a b : number * number) (s : State) :
  Forall decodes good -> separators bad = 0%nat ->
  drawRoute (good ++ bad :: rest) a b s =
  (after_clear s,
   Throw ("Invalid LatLng object: (" ++ toString (Number bad) ++ ", undefined)")).
Proof.
  intros Hgood Hsep.
  assert (Hbad : toLatLng (decode bad) =
            Throw ("Invalid LatLng object: (" ++ toString (Number bad) ++ ", undefined)")).
  { unfold decode. rewrite (NodeId.split_no_separator bad Hsep).
    unfold toLatLng, first_two. simpl. rewrite orb_true_r. reflexivity. }
  apply drawRoute_throws. rewrite map_app. simpl.
  apply convertLatLngs_first_refused; [|exact Hbad].
  apply Forall_forall. intros p Hp. apply list_elem_of_In, in_map_iff in Hp as (x & <- & Hx).
  rewrite Forall_forall in Hgood. apply Hgood, list_elem_of_In, Hx.
Qed.

Lemma drawRoute_no_separator_witness :
  drawRoute ["47.92_106.92"; "47.93"] (lit 1 0, lit 2 0) (lit 3 0, lit 4 0) initial =
  (after_clear initial, Throw "Invalid LatLng object: (47.93, undefined)").
Proof.
  assert (H1 : Forall decodes ["47.92_106.92"]).
  { constructor; [|constructor]. eexists. vm_compute. reflexivity. }
  exact (drawRoute_no_separator ["47.92_106.92"] "47.93" [] (lit 1 0, lit 2 0)
           (lit 3 0, lit 4 0) initial H1 eq_refl).
Defined.

Lemma after_empty_route_fit (a b : number * number) (sw ne : LatLng) (s : State) :
  after_route [] a b sw ne s = after_fit sw ne (after_empty_route a b s).
Proof. reflexivity. Qed.

(** X3. [drawRoute] on an empty path throws "Bounds are not valid.", and
    only at its last step: by then the overlays of before are off the map,
    an empty line is on it and in [routeLayer], and new markers stand at
    the given start and end. The view is not fitted. *)
Theorem drawRoute_empty_path (n0 : nat) (a b : number * number) (s : State) :
  tracked_from n0 s -> valid a -> valid b ->
  let n := lastId (map s) in
  let s' := fst (drawRoute [] a b s) in
  snd (drawRoute [] a b s) = Throw "Bounds are not valid." /\
  routeLayer s' = Some (S n, route_line []) /\
  only_line s' (S n) (route_line []) /\
  only_marker startIcon s' (S (S n)) (start_marker a) /\
  only_marker endIcon s' (S (S (S n))) (end_marker b) /\
  disposed s s' /\
  fitted (map s') = fitted (map s).
Proof.
  intros Hs Ha Hb n s'. unfold s'.
  rewrite (drawRoute_empty_line [] a b s eq_refl Ha Hb). simpl.
  split; [reflexivity|].
  pose proof (after_route_overlays n0 [] a b (lit 0 0, lit 0 0) (lit 0 0, lit 0 0) s Hs)
    as (H1 & H2 & H3 & _ & H5).
  rewrite after_empty_route_fit in H1, H2, H3, H5.
  unfold only_line, only_marker, disposed in *.
  setoid_rewrite on_map_after_fit in H1. setoid_rewrite on_map_after_fit in H2.
  setoid_rewrite on_map_after_fit in H3.
  split.
  { unfold after_empty_route, after_markers. simpl.
    rewrite remove_refs_lastId. reflexivity. }
  split; [exact H1|]. split; [exact H2|]. split; [exact H3|].
  split; [exact H5|].
  unfold after_empty_route, after_markers. simpl.
  rewrite remove_refs_fitted. simpl. rewrite remove_refs_fitted. reflexivity.
Qed.

Lemma drawRoute_empty_path_witness :
  let a := (lit 4792 (-2), lit 10692 (-2)) in
  let b := (lit 4793 (-2), lit 10693 (-2)) in
  snd (drawRoute [] a b initial) = Throw "Bounds are not valid." /\
  only_line (fst (drawRoute [] a b initial)) 2 (route_line []) /\
  only_marker startIcon (fst (drawRoute [] a b initial)) 3 (start_marker a) /\
  only_marker endIcon (fst (drawRoute [] a b initial)) 4 (end_marker b).
Proof.
  intros a b.
  destruct (drawRoute_empty_path 0 a b initial initial_tracked) as (H1 & _ & H2 & H3 & H4 & _).
  - split; reflexivity.
  - split; reflexivity.
  - split; [exact H1|]. split; [exact H2|]. split; [exact H3 | exact H4].
Defined.

(** X4. When an entry of [pathsData] holds a coordinate Leaflet refuses,
    [drawMultiplePaths] throws at that entry and leaves a partial render:
    the lines of before are gone, the lines of the entries before the
    refused one are on the map and in [allRouteLayers], styled as lines of
    the whole set, and neither the markers nor the view are touched. *)
Theorem drawMultiplePaths_refused_entry (good : list PathData) (bad : PathData)
    (rest : list PathData) (a b : number * number) (s : State) (msg : string) :
  Forall (fun pd => Forall valid (coordinates pd)) good ->
  convertLatLngs (as_values (coordinates bad)) = Throw msg ->
  let k := length (good ++ bad :: rest) in
  let n := lastId (map s) in
  let s' := fst (drawMultiplePaths (good ++ bad :: rest) a b s) in
  snd (drawMultiplePaths (good ++ bad :: rest) a b s) = Throw msg /\
  s' = after_lines k good 0 (after_clear s) /\
  (forall j pd, good !! j = Some pd -> on_map s' (n + S j) (path_line k j pd)) /\
  lastId (map s') = (n + length good)%nat /\
  startMarker s' = startMarker s /\ endMarker s' = endMarker s /\
  fitted (map s') = fitted (map s).
Proof.
  intros Hgood Hbad k n s'.
  unfold s'. rewrite (drawMultiplePaths_throws good bad rest a b s msg Hgood Hbad).
  fold k. cbn [fst snd].
  destruct (after_lines_frame k good 0 (after_clear s)) as (_ & F2 & F3 & _ & F5 & F6).
  split; [reflexivity|]. split; [reflexivity|].
  split.
  { intros j pd Hj. pose proof (after_lines_new k good 0 (after_clear s) j pd Hj) as Hn.
    simpl in Hn. rewrite remove_refs_lastId in Hn. exact Hn. }
  split; [rewrite F6; simpl; rewrite remove_refs_lastId; reflexivity|].
  split; [rewrite F2; reflexivity|]. split; [rewrite F3; reflexivity|].
  rewrite F5. simpl. apply remove_refs_fitted.
Qed.

Lemma drawMultiplePaths_refused_entry_witness :
  let pd0 := {| coordinates := [(lit 1 0, lit 1 0); (lit 3 0, lit 3 0)];
                distance_km := lit 3145 (-1); nodes := lit 2 0 |} in
  let pd1 := {| coordinates := [(lit 1 0, lit 1 0); (NaN, lit 4 0)];
                distance_km := lit 40225 (-2); nodes := lit 2 0 |} in
  let a := (lit 1 0, lit 1 0) in
  let b := (lit 3 0, lit 3 0) in
  snd (drawMultiplePaths [pd0; pd1; pd0] a b initial)
    = Throw "Invalid LatLng object: (NaN, 4)" /\
  on_map (fst (drawMultiplePaths [pd0; pd1; pd0] a b initial)) 2 (path_line 3 0 pd0) /\
  lastId (map (fst (drawMultiplePaths [pd0; pd1; pd0] a b initial))) = 2%nat.
Proof.
  intros pd0 pd1 a b.
  assert (H1 : Forall (fun pd => Forall valid (coordinates pd)) [pd0]).
  { repeat constructor. }
  assert (H2 : convertLatLngs (as_values (coordinates pd1))
               = Throw "Invalid LatLng object: (NaN, 4)") by (vm_compute; reflexivity).
  destruct (drawMultiplePaths_refused_entry [pd0] pd1 [pd0] a b initial _ H1 H2)
    as (E1 & _ & E2 & E3 & _).
  split; [exact E1|]. split; [exact (E2 0%nat pd0 eq_refl) | exact E3].
Defined.

(** X5. Where [drawRoute] throws on an empty path, [drawMultiplePaths]
    returns when no entry holds a coordinate, an empty [pathsData]
    included: it draws one empty line for each entry, replaces the markers,
    and skips [fitBounds], so that the view stays where it was. *)
Theorem drawMultiplePaths_without_coordinates (pds : list PathData)
    (a b : number * number) (s : State) :
  Forall (fun pd => coordinates pd = []) pds -> valid a -> valid b ->
  let s' := fst (drawMultiplePaths pds a b s) in
  snd (drawMultiplePaths pds a b s) = Normal tt /\
  s' = after_markers a b (after_lines (length pds) pds 0 (after_clear s)) /\
  length (allRouteLayers s') = length pds /\
  fitted (map s') = fitted (map s) /\
  (forall sw ne, FitBounds sw ne ∈ calls (map s') -> FitBounds sw ne ∈ calls (map s)).
Proof.
  intros Hpds Ha Hb s'.
  assert (Hvalid : Forall (fun pd => Forall geographic (coordinates pd)) pds).
  { eapply Forall_impl; [exact Hpds|]. simpl. intros pd ->. constructor. }
  assert (Hflat : flat_map coordinates pds = []).
  { clear -Hpds. induction Hpds as [|pd pds Hpd _ IH]; simpl; [reflexivity|].
    rewrite Hpd, IH. reflexivity. }
  unfold s'. rewrite (drawMultiplePaths_exec pds a b s Hvalid Ha Hb). simpl.
  unfold after_paths. rewrite Hflat. simpl.
  split; [reflexivity|]. split; [reflexivity|].
  assert (Hlen : forall t l i s0,
            length (allRouteLayers (after_lines t l i s0)) =
            (length (allRouteLayers s0) + length l)%nat).
  { clear. intros t l. induction l as [|pd l IH]; intros i s0; simpl; [lia|].
    rewrite IH. simpl. rewrite length_app. simpl. lia. }
  assert (Hcalls : forall t l i s0 sw ne,
            FitBounds sw ne ∈ calls (map (after_lines t l i s0)) ->
            FitBounds sw ne ∈ calls (map s0)).
  { clear. intros t l. induction l as [|pd l IH]; intros i s0 sw ne H; simpl in H;
      [exact H|].
    apply IH in H. simpl in H. apply elem_of_app in H as [H|H]; [exact H|].
    apply list_elem_of_singleton in H. discriminate. }
  split.
  { unfold after_markers. simpl. rewrite Hlen. reflexivity. }
  split.
  { unfold after_markers. simpl. rewrite remove_refs_fitted.
    destruct (after_lines_frame (length pds) pds 0 (after_clear s)) as (_ & _ & _ & _ & F5 & _).
    rewrite F5. simpl. apply remove_refs_fitted. }
  intros sw ne H. unfold after_markers in H. simpl in H.
  apply elem_of_app in H as [H|H];
    [|apply list_elem_of_singleton in H; discriminate].
  apply elem_of_app in H as [H|H];
    [|apply list_elem_of_singleton in H; discriminate].
  rewrite remove_refs_calls in H. apply elem_of_app in H as [H|H].
  - apply Hcalls in H. simpl in H. rewrite remove_refs_calls in H.
    apply elem_of_app in H as [H|H]; [exact H|].
    apply list_elem_of_fmap in H as (r & Hr & _). discriminate.
  - apply list_elem_of_fmap in H as (r & Hr & _). discriminate.
Qed.

Lemma drawMultiplePaths_without_coordinates_witness :
  let pd := {| coordinates := []; distance_km := lit 0 0; nodes := lit 0 0 |} in
  let a := (lit 1 0, lit 1 0) in
  let b := (lit 3 0, lit 3 0) in
  snd (drawMultiplePaths [pd; pd] a b initial) = Normal tt /\
  length (allRouteLayers (fst (drawMultiplePaths [pd; pd] a b initial))) = 2%nat /\
  fitted (map (fst (drawMultiplePaths [pd; pd] a b initial))) = None.
Proof.
  intros pd a b.
  destruct (drawMultiplePaths_without_coordinates [pd; pd] a b initial)
    as (E1 & _ & E2 & E3 & _).
  - repeat constructor.
  - split; reflexivity.
  - split; reflexivity.
  - split; [exact E1|]. split; [exact E2 | exact E3].
Defined.

(** X6. [clearMap] never throws, and a second [clearMap] right after a
    first does nothing at all: it makes no Leaflet call and leaves every
    variable as the first left it. *)
Theorem clearMap_twice (s : State) :
  snd (clearMap s) = Normal tt /\
  clearMap (fst (clearMap s)) = (fst (clearMap s), Normal tt) /\
  routeLayer (fst (clearMap s)) = None /\ allRouteLayers (fst (clearMap s)) = [] /\
  startMarker (fst (clearMap s)) = None /\ endMarker (fst (clearMap s)) = None.
Proof.
  rewrite !clearMap_exec. simpl.
  split; [reflexivity|]. split; [|repeat split].
  unfold after_clearMap. simpl. reflexivity.
Qed.

(** X7. [drawRoute] on a path that is not empty and whose nodes decode
    to points on the globe (latitudes from -90 to 90, longitudes from -180
    to 180) returns, and the view is then fitted to bounds that contain
    every point of the line: every coordinate the path decodes to lies
    between the two corners. *)
Theorem drawRoute_fits_every_point (path : list string) (a b : number * number)
    (s : State) (ps : list LatLng) :
  convertLatLngs (List.map decode path) = Normal ps -> path <> [] ->
  Forall geographic ps -> valid a -> valid b ->
  snd (drawRoute path a b s) = Normal tt /\
  exists sw ne,
    fitted (map (fst (drawRoute path a b s))) = Some (sw, ne) /\
    forall p, p ∈ ps -> contains (Some (sw, ne)) p = true.
Proof.
  intros Hps Hne Hgeo Ha Hb.
  assert (Hvalid : Forall valid ps) by (eapply convertLatLngs_accepted; exact Hps).
  destruct path as [|p0 path]; [contradiction|].
  pose proof (convertLatLngs_length _ _ Hps) as Hlen.
  destruct ps as [|q qs]; [discriminate|].
  destruct (Bounds.latLngBounds_nonempty q qs) as (sw & ne & Hbounds).
  pose proof (Bounds.latLngBounds_geographic _ sw ne Hgeo Hbounds) as Hfin.
  rewrite (drawRoute_exec _ a b (q :: qs) sw ne s Hps Hbounds Hfin Ha Hb). simpl.
  split; [reflexivity|]. exists sw, ne. split.
  - unfold after_route, after_fit, fitBounds. rewrite Hfin. reflexivity.
  - intros p Hp. pose proof (Bounds.latLngBounds_contains (q :: qs) p Hvalid Hp) as Hc.
    unfold LatLng in *. rewrite Hbounds in Hc. exact Hc.
Qed.

Lemma drawRoute_fits_every_point_witness :
  let path := ["47.92_106.93"; "47.95_106.90"; "47.93_106.95"] in
  let a := (lit 4792 (-2), lit 10693 (-2)) in
  let b := (lit 4793 (-2), lit 10695 (-2)) in
  exists sw ne,
    fitted (map (fst (drawRoute path a b initial))) = Some (sw, ne) /\
    contains (Some (sw, ne)) (lit 4795 (-2), lit 10690 (-2)) = true.
Proof.
  intros path a b.
  destruct (drawRoute_fits_every_point path a b initial
              [(lit 4792 (-2), lit 10693 (-2)); (lit 4795 (-2), lit 10690 (-2));
               (lit 4793 (-2), lit 10695 (-2))])
    as (_ & sw & ne & E1 & E2).
  - vm_compute. reflexivity.
  - discriminate.
  - repeat constructor; vm_compute; reflexivity.
  - split; reflexivity.
  - split; reflexivity.
  - exists sw, ne. split; [exact E1|]. apply E2. right. left.
Defined.

End Failures.

(** ** Every layer has an owner *)

Module Ownership.
Import JS Leaflet MapJs Spec Further Hoare Overlays Renders Failures.

Lemma within_owns (s' s : State) (r : Ref) : within s' s -> owns s' r -> owns s r.
Proof.
  intros (H1 & H2 & H3 & H4 & H5) [H|[H|[H|[H|H]]]]; unfold owns; auto 10.
Qed.

Lemma owns_not_tile (s : State) (r : Ref) : accounted s -> owns s r -> snd r <> tile.
Proof.
  intros Hs [H|[H|[H|[H|H]]]] Heq.
  - pose proof (accounted_lines s Hs r (or_introl H)) as K. rewrite Heq in K. exact K.
  - pose proof (accounted_lines s Hs r (or_intror H)) as K. rewrite Heq in K. exact K.
  - pose proof (accounted_start s Hs r H) as K. rewrite Heq in K. exact K.
  - pose proof (accounted_end s Hs r H) as K. rewrite Heq in K. exact K.
  - pose proof (accounted_temporary s Hs r H) as K. rewrite Heq in K. exact K.
Qed.

Lemma owns_stamp (s : State) (r : Ref) :
  accounted s -> owns s r -> fst r <> 1%nat /\ (fst r <= lastId (map s))%nat.
Proof.
  intros Hs Hr. pose proof (accounted_on s Hs r Hr) as Hon.
  split; [|exact (accounted_fresh s Hs _ _ Hon)].
  intros E. rewrite E in Hon. pose proof (accounted_tile s Hs) as Ht.
  unfold on_map in *. rewrite Ht in Hon. injection Hon as Hon.
  apply (owns_not_tile s r Hs Hr). symmetry. exact Hon.
Qed.

Lemma last_stamp (s : State) : accounted s -> (1 <= lastId (map s))%nat.
Proof. intros Hs. exact (accounted_fresh s Hs _ _ (accounted_tile s Hs)). Qed.

Lemma owns_same (s : State) (r r' : Ref) :
  accounted s -> owns s r -> owns s r' -> fst r = fst r' -> r = r'.
Proof.
  intros Hs Hr Hr' E. pose proof (accounted_on s Hs r Hr) as H.
  pose proof (accounted_on s Hs r' Hr') as H'. unfold on_map in *.
  rewrite E, H' in H. injection H as H. destruct r, r'. simpl in *. congruence.
Qed.

Lemma owned_stamp_removed (s : State) (rs : list Ref) (r : Ref) :
  accounted s -> (forall r', r' ∈ rs -> owns s r') -> owns s r ->
  fst r ∈ (fst <$> rs) -> r ∈ rs.
Proof.
  intros Hs Hrs Hr Hin. apply list_elem_of_fmap in Hin as (r' & E & Hr').
  rewrite (owns_same s r r' Hs Hr (Hrs r' Hr') E). exact Hr'.
Qed.

(** Taking owned layers off the map and forgetting them keeps the
    account. *)
Lemma accounted_remove (s s' : State) (rs : list Ref) :
  accounted s ->
  map s' = remove_refs rs (map s) ->
  (forall r, r ∈ rs -> owns s r) ->
  within s' s ->
  (forall r, owns s r -> r ∉ rs -> owns s' r) ->
  (forall r, owns s' r -> r ∉ rs) ->
  NoDup (fst <$> timers s') ->
  accounted s'.
Proof.
  intros Hs Hmap Hrs Hin Hkeep Hout Hnd.
  assert (Hlook : forall id l, on_map s' id l <-> (id ∉ (fst <$> rs)) /\ on_map s id l).
  { intros id l. unfold on_map. rewrite Hmap. apply remove_refs_lookup. }
  destruct Hin as (I1 & I2 & I3 & I4 & I5).
  constructor.
  - apply Hlook. split; [|exact (accounted_tile s Hs)].
    intros H. apply list_elem_of_fmap in H as (r & E & Hr).
    destruct (owns_stamp s r Hs (Hrs r Hr)) as [Hne _]. congruence.
  - intros r Hr. apply Hlook.
    assert (Hold : owns s r).
    { apply (within_owns s' s); [repeat split; assumption | exact Hr]. }
    split; [|exact (accounted_on s Hs r Hold)].
    intros H. apply (Hout r Hr). exact (owned_stamp_removed s rs r Hs Hrs Hold H).
  - intros id l H. apply Hlook in H as [Hid Hon].
    destruct (accounted_only s Hs id l Hon) as [Ht|Ho]; [left; exact Ht|].
    right. apply Hkeep; [exact Ho|].
    intros Hr. apply Hid. apply list_elem_of_fmap. exists (id, l). split; [reflexivity | exact Hr].
  - intros id l H. apply Hlook in H as [_ Hon]. rewrite Hmap, remove_refs_lastId.
    exact (accounted_fresh s Hs id l Hon).
  - exact Hnd.
  - intros r [H|H]; apply (accounted_lines s Hs); [left; apply I1, H | right; apply I2, H].
  - intros r H. apply (accounted_start s Hs), I3, H.
  - intros r H. apply (accounted_end s Hs), I4, H.
  - intros r H. apply (accounted_temporary s Hs), I5, H.
Qed.

Ltac owns_tac :=
  unfold owns; simpl;
  split; intros H;
  repeat match type of H with _ \/ _ => destruct H as [H|H] end;
  try discriminate; try (injection H as <-); subst; auto 10.

(** Putting a new layer on the map and into a variable keeps the
    account. *)
Lemma accounted_add (s s' : State) (l : Layer) :
  accounted s ->
  map s' = fst (addTo l (map s)) ->
  (forall r, owns s' r <-> owns s r \/ r = (S (lastId (map s)), l)) ->
  (forall r, r ∈ allRouteLayers s' \/ routeLayer s' = Some r -> is_line (snd r)) ->
  (forall r, startMarker s' = Some r -> has_icon startIcon (snd r)) ->
  (forall r, endMarker s' = Some r -> has_icon endIcon (snd r)) ->
  (forall r, r ∈ timers s' -> is_temporary (snd r)) ->
  NoDup (fst <$> timers s') ->
  accounted s'.
Proof.
  intros Hs Hmap Hown K1 K2 K3 K4 Hnd.
  pose proof (last_stamp s Hs) as Hlast.
  assert (Hlook : forall id l', on_map s' id l' <->
            (id = S (lastId (map s)) /\ l' = l) \/
            (id <> S (lastId (map s)) /\ on_map s id l')).
  { intros id l'. unfold on_map. rewrite Hmap. simpl. rewrite lookup_insert_Some.
    split; intros [[H1 H2]|[H1 H2]]; [left|right|left|right]; split; congruence. }
  constructor; try assumption.
  - apply Hlook. right. split; [lia | exact (accounted_tile s Hs)].
  - intros r Hr. apply Hlook. apply Hown in Hr as [Hr| ->].
    + right. destruct (owns_stamp s r Hs Hr) as [_ Hle].
      split; [lia | exact (accounted_on s Hs r Hr)].
    + left. split; reflexivity.
  - intros id l' H. apply Hlook in H as [[-> ->]|[_ Hon]].
    + right. apply Hown. right. reflexivity.
    + destruct (accounted_only s Hs id l' Hon) as [Ht|Ho]; [left; exact Ht|].
      right. apply Hown. left. exact Ho.
  - intros id l' H. rewrite Hmap. simpl. apply Hlook in H as [[-> _]|[_ Hon]]; [lia|].
    pose proof (accounted_fresh s Hs id l' Hon). lia.
Qed.

Lemma accounted_view (s s' : State) :
  accounted s -> layers (map s') = layers (map s) -> lastId (map s') = lastId (map s) ->
  routeLayer s' = routeLayer s -> allRouteLayers s' = allRouteLayers s ->
  startMarker s' = startMarker s -> endMarker s' = endMarker s ->
  timers s' = timers s -> accounted s'.
Proof.
  intros [H1 H2 H3 H4 H5 H6 H7 H8 H9] E1 E2 E3 E4 E5 E6 E7.
  constructor; unfold owns, on_map in *; rewrite ?E1, ?E2, ?E3, ?E4, ?E5, ?E6, ?E7;
    assumption.
Qed.

Lemma accounted_initial : accounted initial.
Proof.
  constructor; unfold owns, on_map; simpl.
  - reflexivity.
  - intros r [H|[H|[H|[H|H]]]]; try discriminate; inversion H.
  - intros id l H. apply lookup_insert_Some in H as [[<- <-]|[_ H]];
      [left; split; reflexivity | rewrite lookup_empty in H; discriminate].
  - intros id l H. apply lookup_insert_Some in H as [[<- <-]|[_ H]];
      [lia | rewrite lookup_empty in H; discriminate].
  - constructor.
  - intros r [H|H]; [inversion H | discriminate].
  - intros r H. discriminate.
  - intros r H. discriminate.
  - intros r H. inversion H.
Qed.

(** A layer of one kind is not of another. *)
Lemma kinds_apart (s : State) (r : Ref) :
  accounted s ->
  (r ∈ allRouteLayers s \/ routeLayer s = Some r ->
   startMarker s <> Some r /\ endMarker s <> Some r /\ r ∉ timers s) /\
  (startMarker s = Some r -> endMarker s <> Some r /\ r ∉ timers s) /\
  (endMarker s = Some r -> r ∉ timers s).
Proof.
  intros Hs.
  pose proof (accounted_lines s Hs r) as K1. pose proof (accounted_start s Hs r) as K2.
  pose proof (accounted_end s Hs r) as K3. pose proof (accounted_temporary s Hs r) as K4.
  pose proof icons_differ as Hd.
  destruct r as [id [u|ps o p|q [|h] p]]; simpl in *;
    repeat split; intros; intuition (try congruence; try discriminate).
  all: try (apply Hd; congruence).
Qed.

Lemma accounted_after_clear (s : State) : accounted s -> accounted (after_clear s).
Proof.
  intros Hs.
  apply (accounted_remove s _ (allRouteLayers s ++ option_list (routeLayer s)) Hs).
  - reflexivity.
  - intros r Hr. apply elem_of_app in Hr as [Hr|Hr]; [left; exact Hr|].
    right; left. destruct (routeLayer s); [|inversion Hr].
    apply list_elem_of_singleton in Hr. congruence.
  - simpl. repeat split; intros r H; try exact H; try discriminate. inversion H.
  - intros r [H|[H|[H|[H|H]]]] Hout; unfold owns; simpl; auto 10.
    + exfalso. apply Hout, elem_of_app. left. exact H.
    + exfalso. apply Hout, elem_of_app. right. rewrite H. apply list_elem_of_singleton.
      reflexivity.
  - intros r Hr Hin.
    assert (Hline : r ∈ allRouteLayers s \/ routeLayer s = Some r).
    { apply elem_of_app in Hin as [Hin|Hin]; [left; exact Hin|]. right.
      destruct (routeLayer s); [|inversion Hin].
      apply list_elem_of_singleton in Hin. congruence. }
    destruct (kinds_apart s r Hs) as (K & _). destruct (K Hline) as (K1 & K2 & K3).
    destruct Hr as [H|[H|[H|[H|H]]]]; simpl in H; try discriminate; try contradiction.
    inversion H.
  - exact (accounted_timers s Hs).
Qed.

Lemma accounted_after_clearMap (s : State) : accounted s -> accounted (after_clearMap s).
Proof.
  intros Hs.
  set (rs := allRouteLayers s ++ option_list (routeLayer s) ++
             option_list (startMarker s) ++ option_list (endMarker s)).
  assert (Hrs : forall r, r ∈ rs <->
            r ∈ allRouteLayers s \/ routeLayer s = Some r \/ startMarker s = Some r \/
            endMarker s = Some r).
  { intros r. unfold rs. rewrite !elem_of_app.
    destruct (routeLayer s), (startMarker s), (endMarker s); simpl;
      rewrite ?list_elem_of_singleton, ?elem_of_nil;
      intuition (try congruence; try discriminate). }
  apply (accounted_remove s _ rs Hs).
  - reflexivity.
  - intros r Hr. apply Hrs in Hr. unfold owns. tauto.
  - simpl. repeat split; intros r H; try exact H; try discriminate. inversion H.
  - intros r Hr Hout. rewrite Hrs in Hout. unfold owns in *. simpl. tauto.
  - intros r Hr Hin. apply Hrs in Hin.
    destruct (kinds_apart s r Hs) as (K1 & K2 & K3).
    destruct Hr as [H|[H|[H|[H|H]]]]; simpl in H; try discriminate; try (inversion H; fail).
    destruct Hin as [Hin|[Hin|[Hin|Hin]]].
    + destruct (K1 (or_introl Hin)) as (_ & _ & K). contradiction.
    + destruct (K1 (or_intror Hin)) as (_ & _ & K). contradiction.
    + destruct (K2 Hin) as (_ & K). contradiction.
    + exact (K3 Hin H).
  - exact (accounted_timers s Hs).
Qed.

Lemma accounted_install_route (s : State) (l : Layer) :
  accounted s -> routeLayer s = None -> is_line l ->
  accounted (set_routeLayer (Some (S (lastId (map s)), l)) (set_map (fst (addTo l (map s))) s)).
Proof.
  intros Hs Hnone Hl. apply (accounted_add s _ l Hs); simpl.
  - reflexivity.
  - intros r. unfold owns. rewrite Hnone. owns_tac.
  - intros r [H|H]; [apply (accounted_lines s Hs); left; exact H|].
    injection H as <-. exact Hl.
  - exact (accounted_start s Hs).
  - exact (accounted_end s Hs).
  - exact (accounted_temporary s Hs).
  - exact (accounted_timers s Hs).
Qed.

Lemma accounted_push_route (s : State) (l : Layer) :
  accounted s -> is_line l ->
  accounted (set_allRouteLayers (allRouteLayers s ++ [(S (lastId (map s)), l)])
           (set_map (fst (addTo l (map s))) s)).
Proof.
  intros Hs Hl. apply (accounted_add s _ l Hs); simpl.
  - reflexivity.
  - intros r. unfold owns. simpl. rewrite elem_of_app, list_elem_of_singleton. tauto.
  - intros r [H|H].
    + apply elem_of_app in H as [H|H]; [apply (accounted_lines s Hs); left; exact H|].
      apply list_elem_of_singleton in H. subst r. exact Hl.
    + apply (accounted_lines s Hs). right. exact H.
  - exact (accounted_start s Hs).
  - exact (accounted_end s Hs).
  - exact (accounted_temporary s Hs).
  - exact (accounted_timers s Hs).
Qed.

Lemma accounted_after_lines (t : nat) (pds : list PathData) (i : nat) (s : State) :
  accounted s -> accounted (after_lines t pds i s).
Proof.
  revert i s. induction pds as [|pd pds IH]; intros i s Hs; simpl; [exact Hs|].
  apply IH. apply (accounted_push_route s (path_line t i pd) Hs). exact I.
Qed.

Lemma accounted_after_markers (a b : number * number) (s : State) :
  accounted s -> accounted (after_markers a b s).
Proof.
  intros Hs.
  set (rs := option_list (startMarker s) ++ option_list (endMarker s)).
  set (s1 := set_endMarker None (set_startMarker None (set_map (remove_refs rs (map s)) s))).
  assert (Hrs : forall r, r ∈ rs <-> startMarker s = Some r \/ endMarker s = Some r).
  { intros r. unfold rs. rewrite elem_of_app.
    destruct (startMarker s), (endMarker s); simpl;
      rewrite ?list_elem_of_singleton, ?elem_of_nil;
      intuition (try congruence; try discriminate). }
  assert (H1 : accounted s1).
  { apply (accounted_remove s _ rs Hs).
    - reflexivity.
    - intros r Hr. apply Hrs in Hr. unfold owns. tauto.
    - simpl. repeat split; intros r H; try exact H; discriminate.
    - intros r Hr Hout. rewrite Hrs in Hout. unfold owns in *. simpl. tauto.
    - intros r Hr Hin. apply Hrs in Hin.
      destruct (kinds_apart s r Hs) as (K1 & K2 & K3).
      destruct Hr as [H|[H|[H|[H|H]]]]; simpl in H; try discriminate.
      + destruct (K1 (or_introl H)) as (K & K' & _). tauto.
      + destruct (K1 (or_intror H)) as (K & K' & _). tauto.
      + destruct Hin as [Hin|Hin]; [destruct (K2 Hin) as (_ & K) | pose proof (K3 Hin) as K];
          contradiction.
    - exact (accounted_timers s Hs). }
  set (s2 := set_startMarker (Some (S (lastId (map s1)), start_marker a))
               (set_map (fst (addTo (start_marker a) (map s1))) s1)).
  assert (H2 : accounted s2).
  { apply (accounted_add s1 _ (start_marker a) H1); simpl.
    - reflexivity.
    - intros r. owns_tac.
    - exact (accounted_lines s Hs).
    - intros r H. injection H as <-. reflexivity.
    - intros r H. discriminate.
    - exact (accounted_temporary s Hs).
    - exact (accounted_timers s Hs). }
  assert (H3 : accounted (set_endMarker (Some (S (lastId (map s2)), end_marker b))
                        (set_map (fst (addTo (end_marker b) (map s2))) s2))).
  { apply (accounted_add s2 _ (end_marker b) H2); simpl.
    - reflexivity.
    - intros r. owns_tac.
    - exact (accounted_lines s Hs).
    - intros r H. injection H as <-. reflexivity.
    - intros r H. injection H as <-. reflexivity.
    - exact (accounted_temporary s Hs).
    - exact (accounted_timers s Hs). }
  exact H3.
Qed.

Lemma accounted_after_fit (sw ne : LatLng) (s : State) : accounted s -> accounted (after_fit sw ne s).
Proof.
  intros Hs. unfold after_fit, fitBounds.
  destruct (finite_corners sw ne); apply (accounted_view s _ Hs); reflexivity.
Qed.

Lemma accounted_after_show (lat lon : number) (text : string) (s : State) :
  accounted s -> accounted (after_show lat lon text s).
Proof.
  intros Hs. apply (accounted_add s _ (temporary_marker lat lon text) Hs); simpl.
  - reflexivity.
  - intros r. unfold owns. simpl. rewrite elem_of_app, list_elem_of_singleton. tauto.
  - exact (accounted_lines s Hs).
  - exact (accounted_start s Hs).
  - exact (accounted_end s Hs).
  - intros r H. apply elem_of_app in H as [H|H]; [exact (accounted_temporary s Hs r H)|].
    apply list_elem_of_singleton in H. subst r. exact I.
  - rewrite fmap_app. apply NoDup_app. split; [exact (accounted_timers s Hs)|].
    split; [|apply NoDup_singleton].
    intros id Hid Hnew. apply list_elem_of_singleton in Hnew. simpl in Hnew.
    apply list_elem_of_fmap in Hid as (r & E & Hr).
    assert (Ho : owns s r) by (unfold owns; tauto).
    destruct (owns_stamp s r Hs Ho) as [_ Hle]. lia.
Qed.

Lemma accounted_after_timer (i : nat) (s : State) : accounted s -> accounted (after_timer i s).
Proof.
  intros Hs. unfold after_timer. destruct (timers s !! i) as [r|] eqn:E; [|exact Hs].
  pose proof (take_drop_middle (timers s) i r E) as Hsplit.
  pose proof (accounted_timers s Hs) as Hnd. rewrite <- Hsplit in Hnd.
  rewrite fmap_app, fmap_cons in Hnd.
  apply NoDup_app in Hnd as (N1 & N2 & N3). apply NoDup_cons in N3 as [N3 N4].
  assert (Hin : forall r', r' ∈ take i (timers s) ++ drop (S i) (timers s) ->
            r' ∈ timers s /\ r' <> r).
  { intros r' H. split.
    - rewrite <- Hsplit. apply elem_of_app in H as [H|H]; apply elem_of_app;
        [left; exact H | right; right; exact H].
    - intros ->. apply elem_of_app in H as [H|H].
      + apply (N2 (fst r)); [apply list_elem_of_fmap; exists r; split; [reflexivity | exact H]|].
        left.
      + apply N3. apply list_elem_of_fmap. exists r. split; [reflexivity | exact H]. }
  assert (Hr : r ∈ timers s) by (eapply list_elem_of_lookup_2; exact E).
  apply (accounted_remove s _ [r] Hs).
  - reflexivity.
  - intros r' H. apply list_elem_of_singleton in H. subst r'. unfold owns. tauto.
  - simpl. repeat split; intros r' H; try exact H. apply Hin, H.
  - intros r' Ho Hout. rewrite list_elem_of_singleton in Hout. unfold owns in *. simpl.
    destruct Ho as [H|[H|[H|[H|H]]]]; auto 10.
    right; right; right; right. rewrite <- Hsplit in H.
    apply elem_of_app in H as [H|H]; apply elem_of_app; [left; exact H|].
    apply elem_of_cons in H as [H|H]; [contradiction | right; exact H].
  - intros r' Ho Hout. apply list_elem_of_singleton in Hout. subst r'.
    destruct (kinds_apart s r Hs) as (K1 & K2 & K3).
    destruct Ho as [H|[H|[H|[H|H]]]]; simpl in H.
    + destruct (K1 (or_introl H)) as (_ & _ & K). contradiction.
    + destruct (K1 (or_intror H)) as (_ & _ & K). contradiction.
    + destruct (K2 H) as (_ & K). contradiction.
    + exact (K3 H Hr).
    + apply Hin in H as [_ H]. contradiction.
  - simpl. rewrite fmap_app. apply NoDup_app. split; [exact N1|]. split; [|exact N4].
    intros id H1 H2. apply (N2 id H1). right. exact H2.
Qed.

Lemma convertLatLngs_as_values (cs : list (number * number)) :
  Forall valid cs \/ exists msg, convertLatLngs (as_values cs) = Throw msg.
Proof.
  induction cs as [|[x y] cs IH]; [left; constructor|].
  cbn -[toLatLng]. unfold toLatLng. simpl.
  destruct (isNaN x) eqn:Ex; simpl; [right; eexists; reflexivity|].
  destruct (isNaN y) eqn:Ey; simpl; [right; eexists; reflexivity|].
  destruct IH as [IH|[msg IH]].
  - left. constructor; [split; assumption | exact IH].
  - right. unfold as_values in IH. rewrite IH. eexists. reflexivity.
Qed.

Lemma first_refused_entry (pds : list PathData) :
  Forall (fun pd => Forall valid (coordinates pd)) pds \/
  exists good bad rest msg,
    pds = good ++ bad :: rest /\
    Forall (fun pd => Forall valid (coordinates pd)) good /\
    convertLatLngs (as_values (coordinates bad)) = Throw msg.
Proof.
  induction pds as [|pd pds IH]; [left; constructor|].
  destruct (convertLatLngs_as_values (coordinates pd)) as [Hpd|[msg Hpd]].
  - destruct IH as [IH|(good & bad & rest & msg & -> & Hg & Hb)].
    + left. constructor; assumption.
    + right. exists (pd :: good), bad, rest, msg.
      split; [reflexivity|]. split; [constructor; assumption | exact Hb].
  - right. exists [], pd, pds, msg. split; [reflexivity|]. split; [constructor | exact Hpd].
Qed.

Lemma drawRoute_accounted (path : list string) (a b : number * number) (s : State) :
  valid a -> valid b -> accounted s -> accounted (fst (drawRoute path a b s)).
Proof.
  intros Ha Hb Hs.
  pose proof (accounted_after_clear s Hs) as H1.
  destruct (convertLatLngs (List.map decode path)) as [ps|msg] eqn:E.
  - assert (H2 : forall qs, accounted (after_markers a b
               (set_routeLayer (Some (S (lastId (map (after_clear s))), route_line qs))
                  (set_map (fst (addTo (route_line qs) (map (after_clear s))))
                     (after_clear s))))).
    { intros qs. apply accounted_after_markers.
      apply (accounted_install_route (after_clear s) (route_line qs) H1); [reflexivity | exact I]. }
    destruct ps as [|q qs].
    + rewrite (drawRoute_empty_line path a b s E Ha Hb). exact (H2 []).
    + destruct (Bounds.latLngBounds_nonempty q qs) as (sw & ne & Hbounds).
      rewrite (drawRoute_run path a b (q :: qs) sw ne s E Hbounds Ha Hb).
      simpl. apply accounted_after_fit. exact (H2 (q :: qs)).
  - rewrite (drawRoute_throws path a b s msg E). exact H1.
Qed.

Lemma drawMultiplePaths_accounted (pds : list PathData) (a b : number * number) (s : State) :
  valid a -> valid b -> accounted s -> accounted (fst (drawMultiplePaths pds a b s)).
Proof.
  intros Ha Hb Hs.
  pose proof (accounted_after_clear s Hs) as H1.
  destruct (first_refused_entry pds) as [Hall|(good & bad & rest & msg & -> & Hg & Hbad)].
  - rewrite (drawMultiplePaths_run pds a b s Hall Ha Hb). simpl. unfold after_paths.
    pose proof (accounted_after_markers a b _ (accounted_after_lines (length pds) pds 0 _ H1)) as H3.
    destruct (latLngBounds (flat_map coordinates pds)) as [[sw ne]|];
      [apply accounted_after_fit|]; exact H3.
  - rewrite (drawMultiplePaths_throws good bad rest a b s msg Hg Hbad).
    apply accounted_after_lines. exact H1.
Qed.

Lemma clearMap_accounted (s : State) : accounted s -> accounted (fst (clearMap s)).
Proof. intros Hs. rewrite clearMap_exec. apply accounted_after_clearMap, Hs. Qed.

Lemma showTemporaryMarker_accounted (lat lon : number) (text : string) (s : State) :
  accounted s -> accounted (fst (showTemporaryMarker lat lon text s)).
Proof.
  intros Hs. destruct (isNaN lat || isNaN lon) eqn:E.
  - rewrite (showTemporaryMarker_throws lat lon text s E). exact Hs.
  - apply orb_false_iff in E.
    rewrite (showTemporaryMarker_exec lat lon text s E). apply accounted_after_show, Hs.
Qed.

Lemma timer_fires_accounted (i : nat) (s : State) : accounted s -> accounted (fst (timer_fires i s)).
Proof. intros Hs. rewrite timer_fires_exec. apply accounted_after_timer, Hs. Qed.

End Ownership.

(** ** The map of the page *)

Module PageMap.
Import JS Leaflet AppJs AppSpec AppFurther Hoare Page.

Lemma preserves_total {A : Type} (Q : MapJs.State -> Prop) (c : M MapJs.State A) :
  (forall m, Q m -> Q (fst (c m))) -> preserves (fun s => Q (surface s)) (on_surface c).
Proof. intros H s Hs. rewrite on_surface_run. simpl. apply H, Hs. Qed.

Lemma findRoute_try_accounted (rq : Request) (data : option Response) :
  valid_request rq -> preserves surface_accounted (findRoute_try rq data).
Proof.
  intros [Ha Hb]. unfold findRoute_try, updateInfoPanel, setStatus, hideLoading.
  surface_tac; apply (preserves_total Further.accounted); intros m Hm;
    first [apply Ownership.drawRoute_accounted | apply Ownership.drawMultiplePaths_accounted];
    assumption.
Qed.

Lemma findRoute_resume_accounted (rq : Request) (outcome : Settled) :
  valid_request rq -> preserves surface_accounted (findRoute_resume rq outcome).
Proof.
  intros Hrq s Hs. unfold findRoute_resume.
  destruct outcome as [data|message].
  - pose proof (findRoute_try_accounted rq data Hrq s Hs) as H.
    destruct (findRoute_try rq data s) as [s1 [u|msg]]; simpl in *; exact H.
  - simpl. exact Hs.
Qed.

Lemma findRoute_begin_surface : keeps surface findRoute_begin.
Proof. unfold findRoute_begin, showLoading, setStatus. keeps_tac. Qed.

Lemma handler_accounted (e : Event) (s : State) :
  app_ok s -> surface_accounted s -> surface_accounted (fst (handler e s)).
Proof.
  intros [_ Hrq] Hs.
  destruct e as [latlng| | |key|field text|value|i outcome|i|isHealthy|stats]; simpl.
  - revert s Hrq Hs. unfold MapJs.onMapClick.
    assert (H : preserves surface_accounted
                  (click_callback (parseFloat (toFixed latlng.1 4))
                     (parseFloat (toFixed latlng.2 4)))).
    { unfold click_callback, setStatus.
      surface_tac; apply (preserves_total Further.accounted); intros m Hm;
        apply Ownership.showTemporaryMarker_accounted; exact Hm. }
    intros s _ Hs. exact (H s Hs).
  - unfold bind, gets. simpl. destruct (findRouteBtn s); [exact Hs|].
    unfold surface_accounted. rewrite findRoute_begin_surface. exact Hs.
  - revert s Hrq Hs.
    assert (H : preserves surface_accounted clearAll).
    { unfold clearAll, setStatus.
      surface_tac. apply (preserves_total Further.accounted). intros m Hm.
      apply Ownership.clearMap_accounted, Hm. }
    intros s _ Hs. exact (H s Hs).
  - destruct (String.eqb key "Enter"); [|exact Hs].
    unfold surface_accounted. rewrite findRoute_begin_surface. exact Hs.
  - destruct field; exact Hs.
  - exact Hs.
  - unfold bind, gets. simpl. destruct (inflight s !! i) as [rq|] eqn:E; [|exact Hs].
    simpl. apply findRoute_resume_accounted; [|exact Hs].
    rewrite Forall_forall in Hrq. apply Hrq. eapply list_elem_of_lookup_2. exact E.
  - apply (preserves_total Further.accounted); [|exact Hs].
    intros m Hm. apply Ownership.timer_fires_accounted, Hm.
  - unfold bind, gets, init_health. simpl.
    destruct (stage s); [destruct isHealthy| |]; simpl; exact Hs.
  - unfold bind, gets, init_stats. simpl.
    destruct (stage s); [|destruct stats as [[[[[x1 x2] x3] x4]|]|]|]; simpl; exact Hs.
Qed.

Lemma run_accounted (s : State) (es : list Event) :
  app_ok s -> surface_accounted s -> surface_accounted (run s es).
Proof.
  revert s. induction es as [|e es IH]; intros s Hok Hs; simpl; [exact Hs|].
  apply IH; [apply handler_ok, Hok | apply handler_accounted; assumption].
Qed.

Lemma reachable_accounted (html : State) (es : list Event) :
  Further.accounted (surface (run (loaded html) es)).
Proof. apply run_accounted; [apply loaded_ok | apply Ownership.accounted_initial]. Qed.

(** X8. In every state the page can reach, whatever was clicked, typed
    or answered and whatever threw on the way, the map holds the tile layer
    and, besides it, exactly the layers that [allRouteLayers],
    [routeLayer], [startMarker], [endMarker] and the pending timers refer
    to: no layer is on the map without a variable through which it can
    still be removed, no variable refers to a layer that is gone, and the
    tile layer is never taken off. *)
Theorem no_layer_without_owner (html : State) (es : list Event) :
  let m := surface (run (loaded html) es) in
  Spec.on_map m 1 Further.tile /\
  (forall r, Further.owns m r -> Spec.on_map m (fst r) (snd r)) /\
  (forall id l, Spec.on_map m id l ->
     (id = 1%nat /\ l = Further.tile) \/ Further.owns m (id, l)) /\
  (forall r, r ∈ MapJs.allRouteLayers m \/ MapJs.routeLayer m = Some r ->
     Spec.is_line (snd r)) /\
  (forall r, MapJs.startMarker m = Some r -> Spec.has_icon MapJs.startIcon (snd r)) /\
  (forall r, MapJs.endMarker m = Some r -> Spec.has_icon MapJs.endIcon (snd r)) /\
  (forall r, r ∈ MapJs.timers m -> Further.is_temporary (snd r)).
Proof.
  intros m. destruct (reachable_accounted html es) as [H1 H2 H3 H4 H5 H6 H7 H8 H9].
  repeat split; assumption.
Qed.

(** X9. In every state the page can reach, the clear button leaves on
    the map the tile layer and the temporary markers whose timers have not
    fired, and nothing else; with no timer pending, the tile layer is all
    that is left. *)
Theorem clear_leaves_tiles (html : State) (es : list Event) :
  let s := run (loaded html) es in
  let s' := step s ClearRouteClicked in
  (forall id l, Spec.on_map (surface s') id l ->
     (id = 1%nat /\ l = Further.tile) \/ (id, l) ∈ MapJs.timers (surface s)) /\
  MapJs.timers (surface s') = MapJs.timers (surface s) /\
  (MapJs.timers (surface s) = [] ->
   layers (MapJs.map (surface s')) = {[ 1%nat := Further.tile ]}).
Proof.
  intros s s'.
  assert (Hs' : Further.accounted (surface s')).
  { apply handler_accounted; [apply run_ok, loaded_ok | apply reachable_accounted]. }
  assert (Hsurf : surface s' = Further.after_clearMap (surface s)).
  { unfold s', step, handler, clearAll, bind. rewrite on_surface_run.
    rewrite Renders.clearMap_exec. reflexivity. }
  assert (Honly : forall id l, Spec.on_map (surface s') id l ->
            (id = 1%nat /\ l = Further.tile) \/ (id, l) ∈ MapJs.timers (surface s)).
  { intros id l Hon. destruct (Further.accounted_only _ Hs' id l Hon) as [H|H]; [left; exact H|].
    right. rewrite Hsurf in H.
    destruct H as [H|[H|[H|[H|H]]]]; simpl in H; try discriminate; [inversion H | exact H]. }
  split; [exact Honly|]. split; [rewrite Hsurf; reflexivity|].
  intros Hnone. apply map_eq. intros id.
  destruct (layers (MapJs.map (surface s')) !! id) as [l|] eqn:E.
  - destruct (Honly id l E) as [[-> ->]|H]; [rewrite lookup_singleton_eq; reflexivity|].
    rewrite Hnone in H. inversion H.
  - destruct (decide (id = 1%nat)) as [->|Hne].
    + pose proof (Further.accounted_tile _ Hs') as Ht. unfold Spec.on_map in Ht. congruence.
    + rewrite lookup_singleton_ne by congruence. reflexivity.
Qed.

(** X10. A map click on a point with coordinates puts one temporary
    marker on the map, at the clicked point as rounded; when its timer
    fires the map holds the layers it held before the click, and the
    variables of map.js are what they were. The routes and the start and
    end markers on the map are not touched by either. *)
Theorem temporary_marker_comes_and_goes (html : State) (es : list Event)
    (p : number * number) :
  accepted p ->
  let s := run (loaded html) es in
  let s1 := step s (MapClicked p) in
  let s2 := step s1 (TimerElapsed (length (MapJs.timers (surface s)))) in
  let text := if String.eqb (clickMode s) "start"
              then "🎯 Эхлэх цэг" else "🏁 Төгсгөлийн цэг" in
  let id := S (lastId (MapJs.map (surface s))) in
  let marker := Further.temporary_marker (rounded (fst p)) (rounded (snd p)) text in
  layers (MapJs.map (surface s1)) = <[id := marker]> (layers (MapJs.map (surface s))) /\
  MapJs.timers (surface s1) = MapJs.timers (surface s) ++ [(id, marker)] /\
  layers (MapJs.map (surface s2)) = layers (MapJs.map (surface s)) /\
  MapJs.timers (surface s2) = MapJs.timers (surface s) /\
  MapJs.routeLayer (surface s2) = MapJs.routeLayer (surface s) /\
  MapJs.allRouteLayers (surface s2) = MapJs.allRouteLayers (surface s) /\
  MapJs.startMarker (surface s2) = MapJs.startMarker (surface s) /\
  MapJs.endMarker (surface s2) = MapJs.endMarker (surface s).
Proof.
  intros Hp s s1 s2 text id marker.
  assert (Hs : Further.accounted (surface s)) by apply reachable_accounted.
  assert (H1 : surface s1 =
               Further.after_show (rounded (fst p)) (rounded (snd p)) text (surface s)).
  { unfold s1, step, handler, MapJs.onMapClick, click_callback, bind, gets. simpl.
    unfold text. fold (rounded (fst p)) (rounded (snd p)).
    destruct (String.eqb (clickMode s) "start"); simpl; rewrite on_surface_run;
      rewrite (Failures.showTemporaryMarker_exec _ _ _ _ Hp); reflexivity. }
  assert (H2 : surface s2 = Further.after_timer (length (MapJs.timers (surface s))) (surface s1)).
  { unfold s2, step, handler. rewrite on_surface_run.
    rewrite Failures.timer_fires_exec. reflexivity. }
  assert (Hfresh : layers (MapJs.map (surface s)) !! id = None).
  { destruct (layers (MapJs.map (surface s)) !! id) as [l|] eqn:E; [|reflexivity].
    pose proof (Further.accounted_fresh _ Hs id l E). unfold id in *. lia. }
  rewrite H2, H1. unfold Further.after_timer, Further.after_show. simpl.
  rewrite (list_lookup_middle _ [] _ _ eq_refl). simpl.
  rewrite take_app_length.
  rewrite (drop_ge (MapJs.timers (surface s) ++ _)) by (rewrite length_app; simpl; lia).
  rewrite app_nil_r. fold id. fold marker.
  rewrite (delete_insert_id _ _ _ Hfresh).
  repeat split; reflexivity.
Qed.

Lemma temporary_marker_comes_and_goes_witness :
  let p := (Number "47.92106", Number "106.92714") in
  let s := run (loaded (form "" "" "" "" "dijkstra")) [] in
  let s1 := step s (MapClicked p) in
  let s2 := step s1 (TimerElapsed 0) in
  accepted p /\
  MapJs.timers (surface s1) =
    [(2%nat, Further.temporary_marker (Number "47.9211") (Number "106.9271") "🎯 Эхлэх цэг")] /\
  layers (MapJs.map (surface s2)) = layers (MapJs.map (surface s)) /\
  MapJs.timers (surface s2) = [].
Proof.
  intros p s s1 s2.
  assert (Hp : accepted p) by (split; vm_compute; reflexivity).
  split; [exact Hp|].
  destruct (temporary_marker_comes_and_goes (form "" "" "" "" "dijkstra") [] p Hp)
    as (_ & E1 & E2 & E3 & _).
  split; [|split; [exact E2 | exact E3]].
  etransitivity; [exact E1|]. vm_compute. reflexivity.
Defined.

End PageMap.

(** ** The route search of the page *)

Module Search.
Import JS Leaflet AppJs AppSpec AppFurther Further Hoare Page Numbers.

Lemma findRoute_begin_issues (s : State) :
  inputs_parse s -> findRoute_begin s = (issued s, Normal tt).
Proof.
  intros (H1 & H2 & H3 & H4).
  unfold findRoute_begin, bind, gets, showLoading, setStatus, modify. simpl.
  rewrite H1, H2, H3, H4. reflexivity.
Qed.

Lemma findRoute_begin_refuses (s : State) :
  isNaN (parseFloat (startLatInput s)) || isNaN (parseFloat (startLonInput s)) ||
  isNaN (parseFloat (endLatInput s)) || isNaN (parseFloat (endLonInput s)) = true ->
  findRoute_begin s = (refused s, Normal tt).
Proof.
  intros H. unfold findRoute_begin, bind, gets, setStatus, modify. simpl.
  rewrite H. reflexivity.
Qed.

Lemma parseFloat_blank (t : string) : blank t -> isNaN (parseFloat t) = true.
Proof. unfold blank, parseFloat. intros ->. reflexivity. Qed.

(** X11. When one of the four inputs is empty or holds white space
    only, neither the Enter key nor the search button starts a search: the
    status line reads that the coordinates are to be entered properly, and
    nothing else on the page or the map changes. *)
Theorem blank_input_blocks_search (s : State) :
  blank (startLatInput s) \/ blank (startLonInput s) \/
  blank (endLatInput s) \/ blank (endLonInput s) ->
  step s (KeyPressed "Enter") = refused s /\
  (findRouteBtn s = false -> step s FindRouteClicked = refused s) /\
  inflight (refused s) = inflight s /\ surface (refused s) = surface s /\
  findRouteBtn (refused s) = findRouteBtn s.
Proof.
  intros H.
  assert (Hnan : isNaN (parseFloat (startLatInput s)) || isNaN (parseFloat (startLonInput s)) ||
                 isNaN (parseFloat (endLatInput s)) || isNaN (parseFloat (endLonInput s)) = true).
  { destruct H as [H|[H|[H|H]]]; rewrite (parseFloat_blank _ H);
      rewrite ?orb_true_r; reflexivity. }
  split; [|split; [|repeat split]].
  - unfold step. simpl. rewrite (findRoute_begin_refuses s Hnan). reflexivity.
  - intros Hb. unfold step, handler, bind, gets. simpl. rewrite Hb.
    rewrite (findRoute_begin_refuses s Hnan). reflexivity.
Qed.

Lemma blank_input_blocks_search_witness :
  let s := loaded (form "47.92" "   " "47.93" "106.93" "bfs") in
  statusDiv (step s (KeyPressed "Enter")) = ("error", "❌ Координат зөв оруулна уу!") /\
  inflight (step s (KeyPressed "Enter")) = [].
Proof.
  intros s.
  destruct (blank_input_blocks_search s) as (E & _).
  - right. left. reflexivity.
  - rewrite E. split; reflexivity.
Defined.

(** X12. The check of the inputs looks at how each text begins only: when
    each of the four starts with a digit, or with a minus sign and a digit
    (or is the name of an infinity), the search is started, whatever
    follows the number in the text. The request holds what [parseFloat]
    reads of the four texts, none NaN, and the algorithm selected. *)
Theorem search_accepts_leading_number (s : State) :
  numeral (startLatInput s) -> numeral (startLonInput s) ->
  numeral (endLatInput s) -> numeral (endLonInput s) ->
  step s (KeyPressed "Enter") = issued s /\
  (findRouteBtn s = false -> step s FindRouteClicked = issued s) /\
  valid_request (request_of s).
Proof.
  intros H1 H2 H3 H4.
  assert (Hp : inputs_parse s).
  { repeat split; apply parseFloat_numeral; assumption. }
  split; [|split].
  - unfold step. simpl. rewrite (findRoute_begin_issues s Hp). reflexivity.
  - intros Hb. unfold step, handler, bind, gets. simpl. rewrite Hb.
    rewrite (findRoute_begin_issues s Hp). reflexivity.
  - destruct Hp as (P1 & P2 & P3 & P4). repeat split; assumption.
Qed.

Lemma search_accepts_leading_number_witness :
  let s := loaded (form "47.92 degrees" "106.92E" "-0.5x" "12abc" "bfs") in
  inflight (step s (KeyPressed "Enter")) =
    [{| algorithm := "bfs"; lat1 := Number "47.92"; lon1 := Number "106.92";
        lat2 := Number "-0.5"; lon2 := Number "12" |}] /\
  findRouteBtn (step s (KeyPressed "Enter")) = true.
Proof.
  intros s.
  destruct (search_accepts_leading_number s) as (E & _).
  - left. reflexivity.
  - left. reflexivity.
  - right. left. exists "0.5x". split; reflexivity.
  - left. reflexivity.
  - rewrite E. split; vm_compute; reflexivity.
Defined.

Lemma resume_enables_button (rq : Request) (outcome : Settled) (s : State) :
  findRouteBtn (fst (findRoute_resume rq outcome s)) = false.
Proof.
  unfold findRoute_resume.
  destruct outcome as [data|message]; [destruct (findRoute_try rq data s) as [s1 [u|msg]]|];
    reflexivity.
Qed.

Lemma settle_runs (s : State) (i : nat) (rq : Request) (outcome : Settled) :
  inflight s !! i = Some rq ->
  step s (RouteSettled i outcome) =
  fst (findRoute_resume rq outcome
         (set_inflight (take i (inflight s) ++ drop (S i) (inflight s)) s)).
Proof.
  intros H. unfold step, handler, bind, gets. simpl. rewrite H. reflexivity.
Qed.

(** X13. Whenever a request settles, however it settles (a route drawn,
    no route, a reply that cannot be drawn, a rejection), the search button
    is enabled and that request, and no other, is no longer under way: also
    while another request has not settled yet. *)
Theorem settle_enables_button (s : State) (i : nat) (rq : Request) (outcome : Settled) :
  inflight s !! i = Some rq ->
  let s' := step s (RouteSettled i outcome) in
  findRouteBtn s' = false /\
  inflight s' = take i (inflight s) ++ drop (S i) (inflight s) /\
  length (inflight s') = (length (inflight s) - 1)%nat.
Proof.
  intros H s'. unfold s'. rewrite (settle_runs s i rq outcome H).
  split; [apply resume_enables_button|].
  rewrite findRoute_resume_inflight. simpl. split; [reflexivity|].
  apply lookup_lt_Some in H.
  rewrite length_app, length_take, length_drop. lia.
Qed.

Lemma settle_enables_button_witness :
  let s := run (loaded (form "47.92" "106.92" "47.93" "106.93" "dijkstra"))
             [FindRouteClicked; KeyPressed "Enter"] in
  let s' := step s (RouteSettled 0 (Rejected "Failed to fetch")) in
  length (inflight s) = 2%nat /\ findRouteBtn s = true /\
  findRouteBtn s' = false /\ length (inflight s') = 1%nat.
Proof.
  intros s s'.
  destruct (settle_enables_button s 0
              {| algorithm := "dijkstra"; lat1 := Number "47.92"; lon1 := Number "106.92";
                 lat2 := Number "47.93"; lon2 := Number "106.93" |}
              (Rejected "Failed to fetch")) as (E1 & _ & E3).
  - vm_compute. reflexivity.
  - split; [vm_compute; reflexivity|]. split; [vm_compute; reflexivity|].
    split; [exact E1 | exact E3].
Defined.

(** X14. When the health check fails, [init] disables the search button
    and a click on it does nothing; but the Enter key still starts a
    search, and when that search settles the button is enabled, although
    the server was found unreachable. *)
Theorem unhealthy_lock_is_lifted (html : State) (outcome : Settled) :
  inputs_parse html ->
  let s1 := step (loaded html) (HealthChecked false) in
  let s2 := step s1 (KeyPressed "Enter") in
  let s3 := step s2 (RouteSettled 0 outcome) in
  findRouteBtn s1 = true /\ stage s1 = Ready /\
  step s1 FindRouteClicked = s1 /\
  inflight s2 = [request_of html] /\
  findRouteBtn s3 = false /\ inflight s3 = [].
Proof.
  intros Hp s1 s2 s3.
  assert (Hp1 : inputs_parse s1) by exact Hp.
  assert (E2 : s2 = issued s1).
  { unfold s2, step. simpl handler. rewrite (findRoute_begin_issues s1 Hp1). reflexivity. }
  split; [reflexivity|]. split; [reflexivity|]. split; [reflexivity|].
  split; [rewrite E2; reflexivity|].
  assert (Hi : inflight s2 !! 0%nat = Some (request_of html)) by (rewrite E2; reflexivity).
  unfold s3. rewrite (settle_runs s2 0 _ outcome Hi).
  split; [apply resume_enables_button|].
  rewrite findRoute_resume_inflight. rewrite E2. reflexivity.
Qed.

Lemma unhealthy_lock_is_lifted_witness :
  let html := form "47.92" "106.92" "47.93" "106.93" "dijkstra" in
  let s1 := step (loaded html) (HealthChecked false) in
  let s3 := run s1 [KeyPressed "Enter"; RouteSettled 0 (Rejected "Failed to fetch")] in
  inputs_parse html /\ findRouteBtn s1 = true /\ findRouteBtn s3 = false.
Proof.
  intros html s1 s3.
  assert (Hp : inputs_parse html) by (repeat split; vm_compute; reflexivity).
  destruct (unhealthy_lock_is_lifted html (Rejected "Failed to fetch") Hp)
    as (E1 & _ & _ & _ & E2 & _).
  split; [exact Hp|]. split; [exact E1 | exact E2].
Defined.

Lemma map_decode_refused (good : list string) (bad : string) (rest : list string)
    (msg : string) :
  Forall decodes good -> toLatLng (MapJs.decode bad) = Throw msg ->
  convertLatLngs (List.map MapJs.decode (good ++ bad :: rest)) = Throw msg.
Proof.
  intros Hgood Hbad. rewrite map_app. simpl.
  apply Renders.convertLatLngs_first_refused; [|exact Hbad].
  apply Forall_forall. intros p Hp. apply list_elem_of_In, in_map_iff in Hp as (x & <- & Hx).
  rewrite Forall_forall in Hgood. apply Hgood, list_elem_of_In, Hx.
Qed.

Lemma route_refs (m : MapJs.State) (r : Ref) :
  r ∈ MapJs.allRouteLayers m ++ option_list (MapJs.routeLayer m) ->
  r ∈ MapJs.allRouteLayers m \/ MapJs.routeLayer m = Some r.
Proof.
  intros H. apply elem_of_app in H as [H|H]; [left; exact H|]. right.
  destruct (MapJs.routeLayer m); [|inversion H].
  apply list_elem_of_singleton in H. congruence.
Qed.

(** X15. In every state the page can reach, a [bfs] or [dijkstra] reply
    whose path holds a node identifier Leaflet refuses ends as follows: the
    status line shows the error of that identifier, the button is enabled,
    and the summary panel is left as it was, shown or hidden, with the
    texts of the search before. On the map the lines of before are gone and
    no line is drawn; every other layer, the start and end markers of
    before among them, is still there. *)
Theorem render_error_reported (html : State) (es : list Event) (i : nat) (rq : Request)
    (data : Response) (good : list string) (bad : string) (rest : list string)
    (msg : string) :
  let s := run (loaded html) es in
  inflight s !! i = Some rq ->
  algorithm rq = "bfs" \/ algorithm rq = "dijkstra" ->
  path data = Some (good ++ bad :: rest) ->
  Forall decodes good -> toLatLng (MapJs.decode bad) = Throw msg ->
  let s' := step s (RouteSettled i (Fulfilled (Some data))) in
  statusDiv s' = ("error", ("❌ Алдаа: " ++ msg)%string) /\
  findRouteBtn s' = false /\
  summary s' = summary s /\
  Spec.no_lines (surface s') /\
  (forall id l, Spec.on_map (surface s) id l -> ~ Spec.is_line l ->
     Spec.on_map (surface s') id l) /\
  MapJs.startMarker (surface s') = MapJs.startMarker (surface s) /\
  MapJs.endMarker (surface s') = MapJs.endMarker (surface s).
Proof.
  intros s Hi Ha Hp Hgood Hbad s'.
  assert (Hok : app_ok s) by (apply run_ok, loaded_ok).
  assert (Hex : accounted (surface s)) by apply PageMap.reachable_accounted.
  pose proof (map_decode_refused good bad rest msg Hgood Hbad) as Hthrow.
  assert (Hb : (String.eqb (algorithm rq) "dfs" = false) /\
               (String.eqb (algorithm rq) "bfs" || String.eqb (algorithm rq) "dijkstra"
                = true)).
  { destruct Ha as [-> | ->]; split; reflexivity. }
  destruct Hb as [Hb1 Hb2].
  assert (Hrun : s' = set_findRouteBtn false
                   (set_statusDiv "error" ("❌ Алдаа: " ++ msg)%string
                      (set_surface (Spec.after_clear (surface s))
                         (set_statusDiv "success"
                            ("✅ " ++ (if String.eqb (algorithm rq) "bfs" then "BFS" else "Dijkstra")
                             ++ ": Зам амжилттай олдлоо!")%string
                            (set_inflight (take i (inflight s) ++ drop (S i) (inflight s)) s))))).
  { unfold s'. rewrite (settle_runs s i rq _ Hi).
    unfold findRoute_resume, findRoute_try. rewrite Hb1, Hb2, Hp.
    destruct good as [|g good]; simpl app in *;
      unfold bind; simpl; rewrite on_surface_run;
      rewrite (Renders.drawRoute_throws _ _ _ _ msg Hthrow); reflexivity. }
  rewrite Hrun. simpl.
  split; [reflexivity|]. split; [reflexivity|]. split; [reflexivity|].
  destruct Hok as [Htr _].
  split; [exact (proj2 (Renders.after_clear_tracked 0 (surface s) Htr))|].
  split; [|split; reflexivity].
  intros id l Hon Hnl. unfold Spec.on_map, Spec.after_clear. simpl.
  apply Overlays.remove_refs_lookup. split; [|exact Hon].
  intros Hin. apply list_elem_of_fmap in Hin as (r & E & Hr).
  pose proof (route_refs (surface s) r Hr) as Hline.
  assert (Ho : owns (surface s) r) by (unfold owns; tauto).
  pose proof (accounted_on _ Hex r Ho) as Hr'. unfold Spec.on_map in *.
  rewrite <- E, Hon in Hr'. injection Hr' as Hr'.
  apply Hnl. rewrite Hr'. exact (accounted_lines _ Hex r Hline).
Qed.

Lemma render_error_reported_witness :
  let html := form "47.92" "106.92" "47.93" "106.93" "dijkstra" in
  let rq := {| algorithm := "dijkstra"; lat1 := Number "47.92"; lon1 := Number "106.92";
               lat2 := Number "47.93"; lon2 := Number "106.93" |} in
  let good := {| path := Some ["47.9200_106.9200"; "47.9300_106.9300"];
                 paths := None; all_paths_data := None; distance_km := None;
                 distance := Some (Number "1000"); computeTime := "0.123" |} in
  let bad := {| path := Some ["47.9200_106.9200"; "47.9300;106.9300"];
                paths := None; all_paths_data := None; distance_km := None;
                distance := Some (Number "2000"); computeTime := "0.456" |} in
  let s := run (loaded html)
             [FindRouteClicked; RouteSettled 0 (Fulfilled (Some good)); FindRouteClicked] in
  let s' := step s (RouteSettled 0 (Fulfilled (Some bad))) in
  statusDiv s' = ("error", "❌ Алдаа: Invalid LatLng object: (NaN, undefined)") /\
  summary s' = summary s /\ distanceSpan s = "1.00 км" /\
  Spec.no_lines (surface s') /\
  MapJs.startMarker (surface s') = MapJs.startMarker (surface s).
Proof.
  intros html rq good bad s s'.
  assert (H1 : Forall decodes ["47.9200_106.9200"]).
  { constructor; [|constructor]. eexists. vm_compute. reflexivity. }
  destruct (render_error_reported html
              [FindRouteClicked; RouteSettled 0 (Fulfilled (Some good)); FindRouteClicked]
              0 rq bad ["47.9200_106.9200"] "47.9300;106.9300" []
              "Invalid LatLng object: (NaN, undefined)")
    as (E1 & _ & E3 & E4 & _ & E6 & _).
  - vm_compute. reflexivity.
  - right. reflexivity.
  - reflexivity.
  - exact H1.
  - vm_compute. reflexivity.
  - split; [exact E1|]. split; [exact E3|].
    split; [vm_compute; reflexivity|]. split; [exact E4 | exact E6].
Defined.

Lemma resume_first_path (rq : Request) (data : Response) (s : State)
    (p0 : list string) (rest : list (list string)) (ps : list LatLng) (sw ne : LatLng) :
  algorithm rq = "dfs" ->
  paths data = Some (p0 :: rest) ->
  (forall pds, all_paths_data data = Some pds -> (length pds <= 1)%nat) ->
  convertLatLngs (List.map MapJs.decode p0) = Normal ps ->
  latLngBounds ps = Some (sw, ne) -> finite_corners sw ne = true ->
  valid_request rq ->
  let s' := fst (findRoute_resume rq (Fulfilled (Some data)) s) in
  surface s' = Spec.after_route ps (lat1 rq, lon1 rq) (lat2 rq, lon2 rq) sw ne (surface s) /\
  statusDiv s' = ("success", "✅ DFS: 1 зам олдлоо") /\
  infoPanelDiv s' = true /\ findRouteBtn s' = false.
Proof.
  intros Ha Hp Hd Hps Hb Hfin [Hv1 Hv2].
  unfold findRoute_resume, findRoute_try. rewrite Ha, Hp. simpl.
  destruct (all_paths_data data) as [[|d0 [|d1 ds]]|] eqn:E.
  3: { specialize (Hd _ eq_refl). simpl in Hd. lia. }
  all: unfold bind; simpl; rewrite on_surface_run;
    rewrite (Renders.drawRoute_exec _ _ _ ps sw ne _ Hps Hb Hfin Hv1 Hv2);
    repeat split; reflexivity.
Qed.

(** X16. In every state the page can reach, a [dfs] reply whose
    [all_paths_data] is absent or holds at most one entry is drawn as one
    route, the first of [paths], however many paths [paths] holds. When
    the nodes of that path decode to points on the globe (latitudes from
    -90 to 90, longitudes from -180 to 180), the one line on the map goes
    through these points, the markers stand at the requested start and
    end, and the render returns, so that the status line is set to the
    text that one route was found, the summary is shown and the button is
    enabled. *)
Theorem dfs_draws_first_path_only (html : State) (es : list Event) (i : nat)
    (rq : Request) (data : Response) (n0 : string) (p0 : list string)
    (rest : list (list string)) (ps : list LatLng) :
  let s := run (loaded html) es in
  inflight s !! i = Some rq ->
  algorithm rq = "dfs" ->
  paths data = Some ((n0 :: p0) :: rest) ->
  (forall pds, all_paths_data data = Some pds -> (length pds <= 1)%nat) ->
  convertLatLngs (List.map MapJs.decode (n0 :: p0)) = Normal ps ->
  Forall Spec.geographic ps ->
  let s' := step s (RouteSettled i (Fulfilled (Some data))) in
  let n := lastId (MapJs.map (surface s)) in
  Spec.only_line (surface s') (S n) (Spec.route_line ps) /\
  Spec.only_marker MapJs.startIcon (surface s') (S (S n))
    (Spec.start_marker (lat1 rq, lon1 rq)) /\
  Spec.only_marker MapJs.endIcon (surface s') (S (S (S n)))
    (Spec.end_marker (lat2 rq, lon2 rq)) /\
  statusDiv s' = ("success", "✅ DFS: 1 зам олдлоо") /\
  infoPanelDiv s' = true /\ findRouteBtn s' = false.
Proof.
  intros s Hi Ha Hp Hd Hps Hgeo s' n.
  destruct (run_ok _ es (loaded_ok html)) as [Hs Hrqs]. fold s in Hs, Hrqs.
  assert (Hrq : valid_request rq).
  { rewrite Forall_forall in Hrqs. apply Hrqs. eapply list_elem_of_lookup_2. exact Hi. }
  pose proof (Renders.convertLatLngs_length _ _ Hps) as Hlen.
  destruct ps as [|q qs]; [discriminate|].
  destruct (Bounds.latLngBounds_nonempty q qs) as (sw & ne & Hb).
  pose proof (Bounds.latLngBounds_geographic _ sw ne Hgeo Hb) as Hfin.
  destruct (resume_first_path rq data
              (set_inflight (take i (inflight s) ++ drop (S i) (inflight s)) s)
              (n0 :: p0) rest (q :: qs) sw ne Ha Hp Hd Hps Hb Hfin Hrq) as (E1 & E2 & E3 & E4).
  unfold s'. rewrite (settle_runs s i rq _ Hi). rewrite E1.
  destruct (Renders.after_route_overlays 0 (q :: qs) (lat1 rq, lon1 rq) (lat2 rq, lon2 rq)
              sw ne (surface s) Hs) as (H1 & H2 & H3 & _).
  split; [exact H1|]. split; [exact H2|]. split; [exact H3|].
  split; [exact E2|]. split; [exact E3 | exact E4].
Qed.

Lemma dfs_draws_first_path_only_witness :
  let html := form "1" "1" "3" "3" "dfs" in
  let rq := {| algorithm := "dfs"; lat1 := Number "1"; lon1 := Number "1";
               lat2 := Number "3"; lon2 := Number "3" |} in
  let data := {| path := None; paths := Some [["1_1"; "3_3"]; ["1_1"; "2_4"; "3_3"]];
                 all_paths_data := None; distance_km := None; distance := None;
                 computeTime := "0.300" |} in
  let s' := run (loaded html) [FindRouteClicked; RouteSettled 0 (Fulfilled (Some data))] in
  Spec.only_line (surface s') 2
    (Spec.route_line [(Number "1", Number "1"); (Number "3", Number "3")]) /\
  statusDiv s' = ("success", "✅ DFS: 1 зам олдлоо").
Proof.
  intros html rq data s'.
  destruct (dfs_draws_first_path_only html [FindRouteClicked] 0 rq data
              "1_1" ["3_3"] [["1_1"; "2_4"; "3_3"]]
              [(Number "1", Number "1"); (Number "3", Number "3")])
    as (E1 & _ & _ & E2 & _).
  - vm_compute. reflexivity.
  - reflexivity.
  - reflexivity.
  - intros pds H. discriminate.
  - vm_compute. reflexivity.
  - repeat constructor; vm_compute; reflexivity.
  - split; [exact E1 | exact E2].
Defined.

(** X17. A reply to a request for an algorithm other than [dfs], [bfs]
    and [dijkstra] is dropped without a word: nothing is drawn, the summary
    and the status line stay as they are, so that the status line goes on
    saying that the route is being computed, and only the button is
    enabled again. *)
Theorem other_algorithm_is_dropped (s : State) (i : nat) (rq : Request) (data : Response) :
  inflight s !! i = Some rq ->
  algorithm rq <> "dfs" -> algorithm rq <> "bfs" -> algorithm rq <> "dijkstra" ->
  step s (RouteSettled i (Fulfilled (Some data))) =
  set_findRouteBtn false
    (set_inflight (take i (inflight s) ++ drop (S i) (inflight s)) s).
Proof.
  intros Hi H1 H2 H3. rewrite (settle_runs s i rq _ Hi).
  apply String.eqb_neq in H1, H2, H3.
  unfold findRoute_resume, findRoute_try. rewrite H1, H2, H3. reflexivity.
Qed.

Lemma other_algorithm_is_dropped_witness :
  let s := run (loaded (form "47.92" "106.92" "47.93" "106.93" "astar")) [FindRouteClicked] in
  let data := {| path := Some ["47.9200_106.9200"; "47.9300_106.9300"];
                 paths := None; all_paths_data := None; distance_km := None;
                 distance := Some (Number "1000"); computeTime := "0.123" |} in
  let s' := step s (RouteSettled 0 (Fulfilled (Some data))) in
  fst (statusDiv s') = "loading" /\ findRouteBtn s' = false /\
  surface s' = MapJs.initial /\ infoPanelDiv s' = false.
Proof.
  intros s data s'.
  pose proof (other_algorithm_is_dropped s 0
                {| algorithm := "astar"; lat1 := Number "47.92"; lon1 := Number "106.92";
                   lat2 := Number "47.93"; lon2 := Number "106.93" |} data) as E.
  unfold s'. rewrite E.
  - repeat split.
  - vm_compute. reflexivity.
  - discriminate.
  - discriminate.
  - discriminate.
Defined.

End Search.

(** ** Numbers that pass through texts *)

Module Texts.
Import JS Leaflet AppJs AppSpec AppFurther Further Hoare Page Numbers.

Lemma rounded_isNaN (x : number) : isNaN (rounded x) = isNaN x.
Proof. apply parseFloat_toFixed_isNaN. Qed.

Lemma binary_normalize_isNaN (m e : Z) (szero : bool) :
  isNaN (binary_normalize prec emax m e szero) = false.
Proof. destruct m; simpl; [reflexivity | apply binary_round_isNaN ..]. Qed.

Lemma add_finite_isNaN (x y : number) :
  isFinite x = true -> isFinite y = true -> isNaN (add x y) = false.
Proof.
  destruct x as [sx|sx| |sx mx ex], y as [sy|sy| |sy my ey]; intros Hx Hy;
    try discriminate; unfold add, SFadd.
  - destruct sx, sy; reflexivity.
  - reflexivity.
  - reflexivity.
  - apply binary_normalize_isNaN.
Qed.

Lemma sub_finite_isNaN (x y : number) :
  isFinite x = true -> isFinite y = true -> isNaN (ApiJs.sub x y) = false.
Proof.
  destruct x as [sx|sx| |sx mx ex], y as [sy|sy| |sy my ey]; intros Hx Hy;
    try discriminate; unfold ApiJs.sub, SFsub.
  - destruct sx, sy; reflexivity.
  - reflexivity.
  - reflexivity.
  - apply binary_normalize_isNaN.
Qed.

Lemma add_to_finite_isNaN (x : number) (sy : bool) (my : positive) (ey : Z) :
  isNaN x = false -> isNaN (add x (S754_finite sy my ey)) = false.
Proof.
  destruct x as [sx|sx| |sx mx ex]; intros Hx; try discriminate; unfold add, SFadd;
    try reflexivity.
  apply binary_normalize_isNaN.
Qed.

Lemma div_by_finite_isNaN (x : number) (sy : bool) (my : positive) (ey : Z) :
  isNaN x = false -> isNaN (div x (S754_finite sy my ey)) = false.
Proof.
  destruct x as [sx|sx| |sx mx ex]; intros Hx; try discriminate;
    [reflexivity | reflexivity | apply div_finite_isNaN].
Qed.

(** X18. The listener of [onMapClick] hands to its callback the clicked
    coordinates as printed with four decimals and read back, and this
    neither makes a NaN nor hides one: a coordinate handed on is NaN
    exactly when the clicked one is. So the temporary marker of a click is
    refused by Leaflet exactly when the clicked point itself holds a
    NaN. *)
Theorem map_click_hands_numbers {St : Type} (callback : number -> number -> M St unit)
    (latlng : number * number) :
  MapJs.onMapClick callback latlng =
    callback (rounded (fst latlng)) (rounded (snd latlng)) /\
  isNaN (rounded (fst latlng)) = isNaN (fst latlng) /\
  isNaN (rounded (snd latlng)) = isNaN (snd latlng) /\
  (accepted latlng <-> Spec.valid latlng).
Proof.
  split; [reflexivity|]. split; [apply rounded_isNaN|]. split; [apply rounded_isNaN|].
  unfold accepted, Spec.valid. simpl. rewrite !rounded_isNaN. tauto.
Qed.

Lemma shown_parses (x : number) :
  isNaN x = false -> isNaN (parseFloat (toString (rounded x))) = false.
Proof. intros H. rewrite parseFloat_toString_isNaN, rounded_isNaN. exact H. Qed.

(** X19. Two map clicks on points with coordinates, the first in click
    mode [start], fill the four inputs with texts that pass the check of
    [findRoute]: the Enter key then starts a search at once, for the points
    as the inputs show them. *)
Theorem clicked_points_pass_validation (s : State) (p1 p2 : number * number) :
  clickMode s = "start" -> Spec.valid p1 -> Spec.valid p2 ->
  let s2 := run s [MapClicked p1; MapClicked p2] in
  (startLatInput s2, startLonInput s2) = shown p1 /\
  (endLatInput s2, endLonInput s2) = shown p2 /\
  inputs_parse s2 /\
  step s2 (KeyPressed "Enter") = issued s2 /\
  valid_request (request_of s2).
Proof.
  intros Hmode [V1 V1'] [V2 V2'] s2.
  assert (A1 : accepted p1) by (split; simpl; rewrite rounded_isNaN; assumption).
  assert (A2 : accepted p2) by (split; simpl; rewrite rounded_isNaN; assumption).
  destruct (Selection.click_in_start_mode s p1 Hmode A1) as (M1 & S1 & E1).
  destruct (Selection.click_in_end_mode _ p2 M1 A2) as (M2 & S2 & E2).
  change (step (step s (MapClicked p1)) (MapClicked p2)) with s2 in *.
  assert (Hs : (startLatInput s2, startLonInput s2) = shown p1) by congruence.
  assert (Hp : inputs_parse s2).
  { injection Hs as I1 I2. injection E2 as I3 I4. unfold inputs_parse.
    rewrite I1, I2, I3, I4. repeat split; apply shown_parses; assumption. }
  split; [exact Hs|]. split; [exact E2|]. split; [exact Hp|].
  split.
  - unfold step. simpl handler. rewrite (Search.findRoute_begin_issues s2 Hp). reflexivity.
  - destruct Hp as (P1 & P2 & P3 & P4). repeat split; assumption.
Qed.

Lemma clicked_points_pass_validation_witness :
  let s := loaded (form "" "" "" "" "dijkstra") in
  let p1 := (Number "47.92106", Number "106.92714") in
  let p2 := (Number "47.93", Number "106.93") in
  let s2 := run s [MapClicked p1; MapClicked p2] in
  Spec.valid p1 /\ Spec.valid p2 /\
  (startLatInput s2, startLonInput s2) = shown p1 /\
  step s2 (KeyPressed "Enter") = issued s2.
Proof.
  intros s p1 p2 s2.
  assert (V1 : Spec.valid p1) by (split; reflexivity).
  assert (V2 : Spec.valid p2) by (split; reflexivity).
  destruct (clicked_points_pass_validation s p1 p2 eq_refl V1 V2) as (E1 & _ & _ & E & _).
  split; [exact V1|]. split; [exact V2|]. split; [exact E1 | exact E].
Defined.

End Texts.

(** ** Start-up and the exchange with the service *)

Module Exchange.
Import JS Leaflet AppJs AppSpec AppFurther Further ApiJs Hoare Page Numbers Texts.

Ltac literal x :=
  let v := eval vm_compute in x in change x with v.

Lemma halved_isNaN (x y : number) :
  isFinite x = true -> isFinite y = true ->
  isNaN (div (add x y) (MapJs.lit 2 0)) = false.
Proof.
  intros Hx Hy. literal (MapJs.lit 2 0).
  apply div_by_finite_isNaN, add_finite_isNaN; assumption.
Qed.

Lemma nudged_isNaN (x : number) :
  isNaN x = false -> isNaN (add x (MapJs.lit 1 (-2))) = false.
Proof. intros Hx. literal (MapJs.lit 1 (-2)). apply add_to_finite_isNaN, Hx. Qed.

(** X20. When the statistics carry a bounding box of four numbers,
    [init] fills the inputs with the centre of the box and with the point
    a hundredth of a degree further, each printed with four decimals; and
    these texts always pass the check of [findRoute], so that the Enter key
    starts a search for them at once. *)
Theorem init_defaults_pass_validation (s : State)
    (min_lat max_lat min_lon max_lon : number) :
  stage s = AwaitingStats ->
  isFinite min_lat = true -> isFinite max_lat = true ->
  isFinite min_lon = true -> isFinite max_lon = true ->
  let s' := step s (StatsLoaded (Some (Some (min_lat, max_lat, min_lon, max_lon)))) in
  let center_lat := div (add min_lat max_lat) (MapJs.lit 2 0) in
  let center_lon := div (add min_lon max_lon) (MapJs.lit 2 0) in
  startLatInput s' = toFixed center_lat 4 /\
  startLonInput s' = toFixed center_lon 4 /\
  endLatInput s' = toFixed (add center_lat (MapJs.lit 1 (-2))) 4 /\
  endLonInput s' = toFixed (add center_lon (MapJs.lit 1 (-2))) 4 /\
  inputs_parse s' /\
  step s' (KeyPressed "Enter") = issued s' /\
  stage s' = Ready.
Proof.
  intros Hstage H1 H2 H3 H4 s' center_lat center_lon.
  assert (E : s' = set_stage Ready
                (set_statusDiv "info"
                   "🗺️ Бэлэн байна. Эхлэх цэгийг газрын зураг дээр дарж сонгоно уу"
                   (set_end (toFixed (add center_lat (MapJs.lit 1 (-2))) 4)
                      (toFixed (add center_lon (MapJs.lit 1 (-2))) 4)
                      (set_start (toFixed center_lat 4) (toFixed center_lon 4) s)))).
  { unfold s', step, handler, bind, gets. simpl. rewrite Hstage. reflexivity. }
  assert (C1 : isNaN center_lat = false) by (apply halved_isNaN; assumption).
  assert (C2 : isNaN center_lon = false) by (apply halved_isNaN; assumption).
  assert (Hp : inputs_parse s').
  { rewrite E. unfold inputs_parse. simpl. rewrite !parseFloat_toFixed_isNaN.
    repeat split; try assumption; apply nudged_isNaN; assumption. }
  split; [rewrite E; reflexivity|]. split; [rewrite E; reflexivity|].
  split; [rewrite E; reflexivity|]. split; [rewrite E; reflexivity|].
  split; [exact Hp|]. split; [|rewrite E; reflexivity].
  unfold step. simpl handler. rewrite (Search.findRoute_begin_issues s' Hp). reflexivity.
Qed.

Lemma init_defaults_pass_validation_witness :
  let s := step (loaded (form "" "" "" "" "dijkstra")) (HealthChecked true) in
  let s' := step s (StatsLoaded (Some (Some (Number "47.8", Number "48.0",
                                            Number "106.7", Number "107.1")))) in
  stage s = AwaitingStats /\
  startLatInput s' = "47.9000" /\ endLonInput s' = "106.9100" /\
  inputs_parse s'.
Proof.
  intros s s'.
  assert (Hst : stage s = AwaitingStats) by reflexivity.
  destruct (init_defaults_pass_validation s (Number "47.8") (Number "48.0")
              (Number "106.7") (Number "107.1") Hst eq_refl eq_refl eq_refl eq_refl)
    as (E1 & _ & _ & E4 & E5 & _).
  split; [exact Hst|].
  split; [etransitivity; [exact E1 | vm_compute; reflexivity]|].
  split; [etransitivity; [exact E4 | vm_compute; reflexivity] | exact E5].
Defined.

(** The page after a request that was rejected with [message]. *)
Lemma rejected_runs (s : State) (i : nat) (rq : Request) (message : string) :
  inflight s !! i = Some rq ->
  step s (RouteSettled i (Rejected message)) =
  set_findRouteBtn false
    (set_statusDiv "error" ("❌ Алдаа: " ++ message)%string
       (set_inflight (take i (inflight s) ++ drop (S i) (inflight s)) s)).
Proof. intros Hi. rewrite (Search.settle_runs s i rq _ Hi). reflexivity. Qed.

(** X21. Whenever the exchange with the service does not deliver an
    object (the request fails on the network, the answer has a status that
    is not OK, the body is not JSON, or the JSON is no object), [getRoute]
    rejects, and [findRoute] gives the status line the class [error],
    assigns the message, behind the word for error and as it is, to its
    [innerHTML], and enables the button; the map, the summary panel, the
    inputs and the click mode stay as they are. For an answer with a
    status that is not OK the message holds the status and the text of the
    body: what the service sent is assigned as markup, not escaped. And
    [getRoute] never fulfils with a falsy value: the branch of [findRoute]
    for a reply that did not come is never taken. *)
Theorem failed_exchange_is_reported (s : State) (i : nat) (rq : Request)
    (startTime endTime : number) (fetched : Fetched RouteBody) :
  inflight s !! i = Some rq ->
  getRoute startTime endTime fetched <> Fulfilled None /\
  ((forall response data, fetched = Responded response -> ok response = true ->
      json response <> Normal (AnObject data)) ->
   exists message,
     getRoute startTime endTime fetched = Rejected message /\
     step s (RouteSettled i (getRoute startTime endTime fetched)) =
       set_findRouteBtn false
         (set_statusDiv "error" ("❌ Алдаа: " ++ message)%string
            (set_inflight (take i (inflight s) ++ drop (S i) (inflight s)) s)) /\
     (forall m, fetched = Failed m -> message = m) /\
     (forall response errorText,
        fetched = Responded response -> ok response = false ->
        text response = Normal errorText ->
        message = ("API алдаа (" ++ toString (status response) ++ "): " ++ errorText)%string)).
Proof.
  intros Hi. split.
  { destruct fetched as [m|response]; [discriminate|]. unfold getRoute.
    destruct (ok response); simpl.
    - destruct (json response) as [[m|data]|m]; discriminate.
    - destruct (text response) as [t|m]; discriminate. }
  intros Hno.
  assert (H : exists message,
            getRoute startTime endTime fetched = Rejected message /\
            (forall m, fetched = Failed m -> message = m) /\
            (forall response errorText,
               fetched = Responded response -> ok response = false ->
               text response = Normal errorText ->
               message = ("API алдаа (" ++ toString (status response) ++ "): " ++ errorText)%string)).
  { destruct fetched as [m|response].
    - exists m. split; [reflexivity|]. split; [congruence | discriminate].
    - unfold getRoute. destruct (ok response) eqn:Eok; simpl.
      + destruct (json response) as [[m|data]|m] eqn:Ej.
        * exists m. split; [reflexivity|]. split; [discriminate|]. intros r t E. congruence.
        * exfalso. exact (Hno response data eq_refl Eok Ej).
        * exists m. split; [reflexivity|]. split; [discriminate|]. intros r t E. congruence.
      + destruct (text response) as [t|m] eqn:Et.
        * eexists. split; [reflexivity|]. split; [discriminate|].
          intros r t' E _ Ht. injection E as <-. congruence.
        * exists m. split; [reflexivity|]. split; [discriminate|].
          intros r t' E _ Ht. injection E as <-. congruence. }
  destruct H as (message & E & Hm & Ht).
  exists message. split; [exact E|]. split; [|split; assumption].
  rewrite E. apply (rejected_runs s i rq message Hi).
Qed.

Lemma failed_exchange_is_reported_witness :
  let s := run (loaded (form "47.92" "106.92" "47.93" "106.93" "dijkstra"))
             [FindRouteClicked] in
  let fetched : Fetched RouteBody :=
    Responded {| ok := false; status := Number "404";
                 text := Normal "{}"; json := Throw "Unexpected end of JSON input" |} in
  let s' := step s (RouteSettled 0 (getRoute (Number "10") (Number "35") fetched)) in
  statusDiv s' = ("error", "❌ Алдаа: API алдаа (404): {}") /\
  findRouteBtn s' = false /\ surface s' = surface s.
Proof.
  intros s fetched s'.
  destruct (failed_exchange_is_reported s 0
              {| algorithm := "dijkstra"; lat1 := Number "47.92"; lon1 := Number "106.92";
                 lat2 := Number "47.93"; lon2 := Number "106.93" |}
              (Number "10") (Number "35") fetched)
    as (_ & H).
  - vm_compute. reflexivity.
  - destruct H as (message & _ & E & _ & Ht).
    + intros response data Hr Hok. injection Hr as <-. discriminate.
    + unfold s'. rewrite E. rewrite (Ht _ "{}" eq_refl eq_refl eq_refl).
      split; [vm_compute; reflexivity|]. split; reflexivity.
Defined.

Lemma timeSpan_after_try (rq : Request) (data : Response) (s : State) :
  has_route rq data ->
  snd (findRoute_try rq (Some data) s) = Normal tt ->
  timeSpan (fst (findRoute_resume rq (Fulfilled (Some data)) s)) =
    (computeTime data ++ "с")%string.
Proof.
  intros Hroute Hret. unfold findRoute_resume. unfold findRoute_try in *.
  destruct Hroute as [[Ha (p0 & rest & Hp)]|[Ha (p0 & rest & Hp)]].
  - rewrite Ha, Hp in *. simpl in *.
    destruct (all_paths_data data) as [[|d0 [|d1 ds]]|].
    all: unfold bind in *; rewrite on_surface_run in *.
    all: match type of Hret with
         | context [?c (surface ?m)] => destruct (c (surface m)) as [m' [u|msg]]
         end; simpl in *; [reflexivity | discriminate].
  - assert (Hb : (String.eqb (algorithm rq) "dfs" = false) /\
                 (String.eqb (algorithm rq) "bfs" || String.eqb (algorithm rq) "dijkstra"
                  = true)).
    { destruct Ha as [-> | ->]; split; reflexivity. }
    destruct Hb as [Hb1 Hb2]. rewrite Hb1, Hb2, Hp in *.
    unfold bind in *. simpl in *. rewrite on_surface_run in *.
    match type of Hret with
    | context [?c (surface ?m)] => destruct (c (surface m)) as [m' [u|msg]]
    end; simpl in *; [reflexivity | discriminate].
Qed.

(** X22. When the service answers with an object, [getRoute] fulfils with
    that object in which [computeTime] is overwritten by the time measured
    on the page: the difference of the two clock readings in seconds,
    printed with three decimals, which for any two readings is the text of
    a number. After a render that returns, this is the time the summary
    shows, whatever [computeTime] the service sent. *)
Theorem compute_time_is_measured (s : State) (i : nat) (rq : Request)
    (startTime endTime : number) (response : HttpResponse RouteBody) (body : Response) :
  inflight s !! i = Some rq ->
  isFinite startTime = true -> isFinite endTime = true ->
  ok response = true -> json response = Normal (AnObject body) ->
  let measured := toFixed (div (sub endTime startTime) (MapJs.lit 1000 0)) 3 in
  let data := set_computeTime measured body in
  let s0 := set_inflight (take i (inflight s) ++ drop (S i) (inflight s)) s in
  getRoute startTime endTime (Responded response) = Fulfilled (Some data) /\
  numeral measured /\
  (has_route rq data -> snd (findRoute_try rq (Some data) s0) = Normal tt ->
   timeSpan (step s (RouteSettled i (getRoute startTime endTime (Responded response))))
     = (measured ++ "с")%string).
Proof.
  intros Hi H0 H1 Hok Hjson measured data s0.
  assert (E : getRoute startTime endTime (Responded response) = Fulfilled (Some data)).
  { unfold getRoute. rewrite Hok, Hjson. reflexivity. }
  split; [exact E|]. split.
  - apply toFixed_numeral. literal (MapJs.lit 1000 0).
    apply div_by_finite_isNaN, sub_finite_isNaN; assumption.
  - intros Hroute Hret. rewrite E, (Search.settle_runs s i rq _ Hi).
    apply (timeSpan_after_try rq data s0 Hroute Hret).
Qed.

Lemma compute_time_is_measured_witness :
  let s := run (loaded (form "47.92" "106.92" "47.93" "106.93" "dijkstra"))
             [FindRouteClicked] in
  let body := {| path := Some ["47.9200_106.9200"; "47.9300_106.9300"];
                 paths := None; all_paths_data := None; distance_km := None;
                 distance := Some (Number "1000"); computeTime := "0.001" |} in
  let response := {| ok := true; status := Number "200"; text := Normal "";
                     json := Normal (AnObject body) |} in
  let s' := step s (RouteSettled 0 (getRoute (Number "10") (Number "135.5")
                                      (Responded response))) in
  timeSpan s' = "0.126с".
Proof.
  intros s body response s'.
  destruct (compute_time_is_measured s 0
              {| algorithm := "dijkstra"; lat1 := Number "47.92"; lon1 := Number "106.92";
                 lat2 := Number "47.93"; lon2 := Number "106.93" |}
              (Number "10") (Number "135.5") response body)
    as (_ & _ & E).
  - vm_compute. reflexivity.
  - reflexivity.
  - reflexivity.
  - reflexivity.
  - reflexivity.
  - unfold s'. rewrite E.
    + vm_compute. reflexivity.
    + right. split; [right; reflexivity | eexists; eexists; reflexivity].
    + vm_compute. reflexivity.
Defined.

(** X23. When the health check does not get an answer with an OK status
    (the request fails, or the status is another), [init] shows that the
    server cannot be reached, disables the search button and is over: it
    does not ask for the statistics, whatever arrives later changes
    nothing, and the inputs, the click mode and the map stay as the page
    was loaded. *)
Theorem startup_without_server {Body : Type} (html : State) (fetched : Fetched Body) :
  (forall response, fetched = Responded response -> ok response = false) ->
  let s1 := step (loaded html) (HealthChecked (checkHealth fetched)) in
  statusDiv s1 =
    ("error",
     "⚠️ Backend серверт холбогдож чадсангүй. http://127.0.0.1:8000 эхэлсэн эсэхийг шалгана уу") /\
  findRouteBtn s1 = true /\ stage s1 = Ready /\
  step s1 FindRouteClicked = s1 /\
  (forall stats, step s1 (StatsLoaded stats) = s1) /\
  (forall isHealthy, step s1 (HealthChecked isHealthy) = s1) /\
  selection s1 = selection (loaded html) /\ surface s1 = MapJs.initial.
Proof.
  intros H s1.
  assert (E : checkHealth fetched = false).
  { destruct fetched as [m|response]; [reflexivity | exact (H response eq_refl)]. }
  unfold s1. rewrite E. repeat split.
Qed.

Lemma startup_without_server_witness :
  let s1 := step (loaded (form "" "" "" "" "dijkstra"))
              (HealthChecked (checkHealth (Failed (Body := unit) "Failed to fetch"))) in
  findRouteBtn s1 = true /\ stage s1 = Ready.
Proof.
  intros s1.
  destruct (startup_without_server (Body := unit) (form "" "" "" "" "dijkstra")
              (Failed "Failed to fetch")) as (_ & E1 & E2 & _).
  - intros response H. discriminate.
  - split; [exact E1 | exact E2].
Defined.

(** X24. When the server is healthy but the statistics do not arrive
    (the request fails, the status is not OK, the body is not JSON) or
    arrive without a bounding box, [init] ends all the same: it reports
    that the page is ready and leaves the inputs, the button and the map as
    they were. *)
Theorem startup_without_stats (html : State) (fetched : Fetched (option StatsBody)) :
  (forall response bbox, fetched = Responded response -> ok response = true ->
     json response <> Normal (Some (Some bbox))) ->
  let s2 := run (loaded html) [HealthChecked true; StatsLoaded (stats_of fetched)] in
  statusDiv s2 =
    ("info", "🗺️ Бэлэн байна. Эхлэх цэгийг газрын зураг дээр дарж сонгоно уу") /\
  stage s2 = Ready /\
  selection s2 = selection (loaded html) /\
  findRouteBtn s2 = findRouteBtn html /\ surface s2 = MapJs.initial.
Proof.
  intros H s2.
  assert (E : stats_of fetched = None \/ stats_of fetched = Some None).
  { unfold stats_of, getGraphStats, json_or_null. destruct fetched as [m|response]; [left; reflexivity|].
    destruct (ok response) eqn:Eok; simpl; [|left; reflexivity].
    destruct (json response) as [[[bbox|]|]|m] eqn:Ej; auto.
    exfalso. exact (H response bbox eq_refl Eok Ej). }
  unfold s2. destruct E as [-> | ->]; repeat split.
Qed.

Lemma startup_without_stats_witness :
  let fetched : Fetched (option StatsBody) :=
    Responded {| ok := false; status := Number "500"; text := Normal "";
                 json := Throw "Unexpected end of JSON input" |} in
  let s2 := run (loaded (form "1" "2" "3" "4" "bfs"))
              [HealthChecked true; StatsLoaded (stats_of fetched)] in
  stage s2 = Ready /\ selection s2 = ("1", "2", "3", "4", "start").
Proof.
  intros fetched s2.
  destruct (startup_without_stats (form "1" "2" "3" "4" "bfs") fetched)
    as (_ & E1 & E2 & _).
  - intros response bbox Hr Hok. injection Hr as <-. discriminate.
  - split; [exact E1 | exact E2].
Defined.

(** X25. In every state the page can reach, each request under way is
    sent to the address of its algorithm with the four coordinates as
    search parameters, each the text of a number (never [NaN]), and with
    [max_depth=50] besides exactly when the algorithm is [dfs]. *)
Theorem request_parameters_are_numbers (html : State) (es : list Event) (rq : Request) :
  let s := run (loaded html) es in
  rq ∈ inflight s ->
  let url := getRoute_url (algorithm rq) (lat1 rq) (lon1 rq) (lat2 rq) (lon2 rq) in
  href url = ("http://127.0.0.1:8000/" ++ algorithm rq)%string /\
  fst <$> searchParams url =
    ["lat1"; "lon1"; "lat2"; "lon2"] ++
    (if String.eqb (algorithm rq) "dfs" then ["max_depth"] else []) /\
  (forall k v, (k, v) ∈ searchParams url -> numeral v) /\
  (("max_depth", "50") ∈ searchParams url <-> algorithm rq = "dfs").
Proof.
  intros s Hin url.
  destruct (run_ok _ es (loaded_ok html)) as [_ Hrqs]. fold s in Hrqs.
  rewrite Forall_forall in Hrqs. destruct (Hrqs rq Hin) as [[V1 V2] [V3 V4]].
  simpl in V1, V2, V3, V4.
  split; [reflexivity|]. unfold url, getRoute_url.
  literal (toString (MapJs.lit 50 0)). cbn [searchParams].
  destruct (String.eqb_spec (algorithm rq) "dfs") as [Ed|Ed]; cbn [app fmap list_fmap fst].
  - split; [reflexivity|]. split.
    + intros k v H. repeat (apply elem_of_cons in H as [H|H];
        [injection H as _ ->; first [apply toString_numeral; assumption | left; reflexivity]|]).
      inversion H.
    + split; [intros _; exact Ed|]. intros _. do 4 right. left.
  - split; [reflexivity|]. split.
    + intros k v H. repeat (apply elem_of_cons in H as [H|H];
        [injection H as _ ->; apply toString_numeral; assumption|]).
      inversion H.
    + split; [|intros E; contradiction]. intros H.
      repeat (apply elem_of_cons in H as [H|H]; [discriminate H|]). inversion H.
Qed.

Lemma request_parameters_are_numbers_witness :
  let s := run (loaded (form "47.92" "106.92" "47.93" "106.93" "dfs")) [FindRouteClicked] in
  let rq := {| algorithm := "dfs"; lat1 := Number "47.92"; lon1 := Number "106.92";
               lat2 := Number "47.93"; lon2 := Number "106.93" |} in
  rq ∈ inflight s /\
  fst <$> searchParams (getRoute_url "dfs" (Number "47.92") (Number "106.92")
                          (Number "47.93") (Number "106.93")) =
    ["lat1"; "lon1"; "lat2"; "lon2"; "max_depth"].
Proof.
  intros s rq.
  assert (H : rq ∈ inflight s) by (vm_compute; left).
  split; [exact H|].
  destruct (request_parameters_are_numbers
              (form "47.92" "106.92" "47.93" "106.93" "dfs") [FindRouteClicked] rq H)
    as (_ & E & _).
  exact E.
Defined.

End Exchange.
